(** * simple-driver-update: version comparison, update resolution,
      download verification, de-duplication and the installation cascade.

    Shallow embedding of [update_checker.py], [driver_installer.py] and
    [driver_scanner_fixed.py].

    Conventions.
    - A Python [str] is a [string]; a character is a code point below 256
      (Latin-1), which is the range the functions below can tell apart.
    - Python integers are unbounded: [Z] (or [N] where the source cannot
      produce a negative number).  The interpreter's optional limit on the
      number of digits accepted by [int(str)] is not modelled.
    - An exception is a value of [exc]; [try ... except] is [try_except].
      A bare [except:] and [except Exception] catch every exception of the
      model.
    - Python floats are IEEE 754 binary64 numbers: [spec_float] with the
      operations of the standard library's [SpecFloat] at precision 53. *)

From Stdlib Require Import ZArith NArith List Ascii String Bool Lia SpecFloat.
From stdpp Require Import gmap strings list.

Local Open Scope string_scope.
Local Open Scope list_scope.

(** ** Exceptions *)

Inductive exn : Type :=
| ValueError
| InvalidVersion
| OverflowError
| TimeoutExpired
| OSError.

Inductive exc (A : Type) : Type :=
| Ret (a : A)
| Raise (e : exn).

Arguments Ret {A} a.
Arguments Raise {A} e.

Definition bind {A B : Type} (m : exc A) (k : A -> exc B) : exc B :=
  match m with
  | Ret a => k a
  | Raise e => Raise e
  end.

Definition try_except {A : Type} (body : exc A) (handler : exn -> exc A) : exc A :=
  match body with
  | Ret a => Ret a
  | Raise e => handler e
  end.

Fixpoint mapM {A B : Type} (f : A -> exc B) (l : list A) : exc (list B) :=
  match l with
  | [] => Ret []
  | x :: l' => bind (f x) (fun y => bind (mapM f l') (fun ys => Ret (y :: ys)))
  end.

(** ** Python string primitives *)

Module Py.

Definition code (c : ascii) : N := N_of_ascii c.

(** [str.isspace] on one character, for code points below 256. *)
Definition is_space (c : ascii) : bool :=
  let n := code c in
  ((9 <=? n) && (n <=? 13) || (28 <=? n) && (n <=? 32)
   || (n =? 133) || (n =? 160))%N.

(** ASCII decimal digit; below 256 these are the only decimal digits. *)
Definition is_digit (c : ascii) : bool :=
  let n := code c in ((48 <=? n) && (n <=? 57))%N.

Definition digit_val (c : ascii) : N := (code c - 48)%N.

(** [str.lower] on one character (code points below 256). *)
Definition lower_char (c : ascii) : ascii :=
  let n := code c in
  if ((65 <=? n) && (n <=? 90)
      || (192 <=? n) && (n <=? 222) && negb (n =? 215))%N
  then ascii_of_N (n + 32) else c.

Fixpoint lower (s : string) : string :=
  match s with
  | EmptyString => EmptyString
  | String c s' => String (lower_char c) (lower s')
  end.

Fixpoint lstrip (s : string) : string :=
  match s with
  | EmptyString => EmptyString
  | String c s' => if is_space c then lstrip s' else s
  end.

Fixpoint rstrip (s : string) : string :=
  match s with
  | EmptyString => EmptyString
  | String c s' =>
      match rstrip s' with
      | EmptyString => if is_space c then EmptyString else String c EmptyString
      | r => String c r
      end
  end.

(** [s.strip()] *)
Definition strip (s : string) : string := rstrip (lstrip s).

(** [s.replace(old, new)] for one-character [old] and [new]. *)
Fixpoint replace_char (old new : ascii) (s : string) : string :=
  match s with
  | EmptyString => EmptyString
  | String c s' =>
      String (if Ascii.eqb c old then new else c) (replace_char old new s')
  end.

(** [s[:n]] *)
Fixpoint take (n : nat) (s : string) : string :=
  match n, s with
  | O, _ => EmptyString
  | S _, EmptyString => EmptyString
  | S n', String c s' => String c (take n' s')
  end.

(** [s.startswith(p)] *)
Fixpoint startswith (p s : string) : bool :=
  match p, s with
  | EmptyString, _ => true
  | String _ _, EmptyString => false
  | String a p', String b s' => Ascii.eqb a b && startswith p' s'
  end.

(** [p in s] *)
Fixpoint contains (p s : string) : bool :=
  startswith p s ||
  match s with
  | EmptyString => false
  | String _ s' => contains p s'
  end.

(** [s.endswith(p)] *)
Fixpoint endswith (p s : string) : bool :=
  String.eqb p s ||
  match s with
  | EmptyString => false
  | String _ s' => endswith p s'
  end.

(** [s.split(sep)] for a one-character separator: never empty. *)
Fixpoint split_on (sep : ascii) (s : string) : list string :=
  match s with
  | EmptyString => [EmptyString]
  | String c s' =>
      let r := split_on sep s' in
      if Ascii.eqb c sep then EmptyString :: r
      else match r with
           | t :: ts => String c t :: ts
           | [] => [String c EmptyString]
           end
  end.

(** Value of a run of decimal digits, most significant first. *)
Fixpoint digits_value (acc : N) (s : string) : N :=
  match s with
  | EmptyString => acc
  | String c s' => digits_value (10 * acc + digit_val c)%N s'
  end.

Fixpoint all_digits (s : string) : bool :=
  match s with
  | EmptyString => true
  | String c s' => is_digit c && all_digits s'
  end.

(** The digits of an integer literal: decimal digits, single underscores
    allowed between two digits. *)
Fixpoint int_body (prev_digit : bool) (acc : N) (s : string) : option N :=
  match s with
  | EmptyString => if prev_digit then Some acc else None
  | String c s' =>
      if is_digit c then int_body true (10 * acc + digit_val c)%N s'
      else if Ascii.eqb c "_" then
             (if prev_digit then int_body false acc s' else None)
           else None
  end.

(** The whitespace [int] skips around a literal: that of [str.isspace]
    but for the separators U+001C to U+001F, which [int] rejects. *)
Definition is_int_space (c : ascii) : bool :=
  let n := code c in
  ((9 <=? n) && (n <=? 13) || (n =? 32) || (n =? 133) || (n =? 160))%N.

Fixpoint lstrip_by (p : ascii -> bool) (s : string) : string :=
  match s with
  | EmptyString => EmptyString
  | String c s' => if p c then lstrip_by p s' else s
  end.

Fixpoint rstrip_by (p : ascii -> bool) (s : string) : string :=
  match s with
  | EmptyString => EmptyString
  | String c s' =>
      match rstrip_by p s' with
      | EmptyString => if p c then EmptyString else String c EmptyString
      | r => String c r
      end
  end.

(** [int(s)]: surrounding whitespace, an optional sign, then the digits;
    [ValueError] otherwise. *)
Definition int (s : string) : exc Z :=
  let t := rstrip_by is_int_space (lstrip_by is_int_space s) in
  let '(neg, body) :=
    match t with
    | String "-" r => (true, r)
    | String "+" r => (false, r)
    | _ => (false, t)
    end in
  match int_body false 0%N body with
  | Some n => Ret (if neg then (- Z.of_N n)%Z else Z.of_N n)
  | None => Raise ValueError
  end.

(** [str(n)] for a natural number: its decimal digits. *)
Fixpoint str_pos_fuel (fuel : nat) (n : N) (acc : string) : string :=
  match fuel with
  | O => acc
  | S f =>
      let acc' := String (ascii_of_N (48 + n mod 10)) acc in
      if (n <? 10)%N then acc' else str_pos_fuel f (n / 10)%N acc'
  end.

Definition str_N (n : N) : string :=
  str_pos_fuel (S (N.to_nat (N.log2 n))) n EmptyString.

(** [str(z)] *)
Definition str_Z (z : Z) : string :=
  match z with
  | Zneg p => String "-" (str_N (Npos p))
  | _ => str_N (Z.to_N z)
  end.

(** Python's ordering of sequences (tuples, lists): the first difference
    decides, else the shorter one is the smaller. *)
Fixpoint cmp_seq {A : Type} (cmp : A -> A -> comparison)
  (l1 l2 : list A) : comparison :=
  match l1, l2 with
  | [], [] => Eq
  | [], _ :: _ => Lt
  | _ :: _, [] => Gt
  | x :: l1', y :: l2' =>
      match cmp x y with
      | Eq => cmp_seq cmp l1' l2'
      | c => c
      end
  end.

End Py.

(** Every character of [s] satisfies [p]; the first and the last
    character of [s]. *)
Fixpoint all_chars (p : ascii -> bool) (s : string) : bool :=
  match s with
  | EmptyString => true
  | String c s' => p c && all_chars p s'
  end.

Fixpoint last_char (s : string) : option ascii :=
  match s with
  | EmptyString => None
  | String c EmptyString => Some c
  | String _ s' => last_char s'
  end.

Definition first_char (s : string) : option ascii :=
  match s with
  | EmptyString => None
  | String c _ => Some c
  end.

(** ** [packaging.version]: PEP 440 versions

    [_is_version_newer] delegates to [packaging.version.parse] and to the
    ordering of [Version] objects.  The library is modelled after its
    [VERSION_PATTERN] and [_cmpkey] (release 22 and later, where a string
    that is not a PEP 440 version raises [InvalidVersion]).  The pattern is
    anchored at both ends; its whitespace, [v], epoch, release and local
    parts can match in one way only and are read deterministically; the
    pre/post/dev part is matched by ordered backtracking (first alternative
    first, greedy repetitions first), as the regex engine does. *)

Module Packaging.

Inductive pre_tag : Type := PA | PB | PRC.
Inductive local_seg : Type := LStr (s : string) | LNum (n : N).

Record Version : Type := mkVersion {
  epoch : N;
  release : list N;
  pre : option (pre_tag * N);
  post : option N;
  dev : option N;
  local : option (list local_seg)
}.

(** *** Parsing *)

Definition is_sep (c : ascii) : bool :=
  Ascii.eqb c "-" || Ascii.eqb c "_" || Ascii.eqb c ".".

Definition is_release_char (c : ascii) : bool :=
  Py.is_digit c || Ascii.eqb c ".".

Definition nonempty_digits (t : string) : bool :=
  negb (String.eqb t "") && Py.all_digits t.

(** [[0-9]+(\.[0-9]+)*] against a whole string. *)
Definition release_segment (s : string) : option (list N) :=
  let toks := Py.split_on "." s in
  if forallb nonempty_digits toks
  then Some (map (Py.digits_value 0) toks) else None.

Fixpoint span (p : ascii -> bool) (s : string) : string * string :=
  match s with
  | EmptyString => (EmptyString, EmptyString)
  | String c s' =>
      if p c then let '(a, b) := span p s' in (String c a, b)
      else (EmptyString, s)
  end.

Fixpoint ends_with_dot (s : string) : bool :=
  match s with
  | EmptyString => false
  | String c EmptyString => Ascii.eqb c "."
  | String _ s' => ends_with_dot s'
  end.

Fixpoint drop_last (s : string) : string :=
  match s with
  | EmptyString => EmptyString
  | String _ EmptyString => EmptyString
  | String c s' => String c (drop_last s')
  end.

(** The longest prefix the release part can take, and what follows it. *)
Definition split_release (s : string) : string * string :=
  let '(r, rest) := span is_release_char s in
  if ends_with_dot r then (drop_last r, String "." rest) else (r, rest).

(** Ordered backtracking: every way to match, in the engine's order, each
    with the input that remains. *)
Definition opt_sep (s : string) : list string :=
  match s with
  | String c s' => if is_sep c then [s'; s] else [s]
  | EmptyString => [s]
  end.

Fixpoint drop (n : nat) (s : string) : string :=
  match n, s with
  | O, _ => s
  | S _, EmptyString => EmptyString
  | S n', String _ s' => drop n' s'
  end.

Definition lits {T : Type} (ws : list (string * T)) (s : string)
  : list (T * string) :=
  flat_map (fun '(w, t) =>
              if Py.startswith w s then [(t, drop (String.length w) s)]
              else []) ws.

Fixpoint digit_runs (acc : N) (s : string) : list (N * string) :=
  match s with
  | EmptyString => []
  | String c s' =>
      if Py.is_digit c then
        let acc' := (10 * acc + Py.digit_val c)%N in
        digit_runs acc' s' ++ [(acc', s')]
      else []
  end.

(** [([0-9]+)?]; an absent number is read as 0 by [_parse_letter_version]. *)
Definition opt_number (s : string) : list (N * string) :=
  digit_runs 0 s ++ [(0%N, s)].

Definition pre_letters : list (string * pre_tag) :=
  [("a", PA); ("b", PB); ("c", PRC); ("rc", PRC); ("alpha", PA);
   ("beta", PB); ("pre", PRC); ("preview", PRC)].

Definition post_letters : list (string * unit) :=
  [("post", tt); ("rev", tt); ("r", tt)].

Definition dev_letters : list (string * unit) := [("dev", tt)].

Definition lettered {T : Type} (ws : list (string * T)) (s : string)
  : list ((T * N) * string) :=
  flat_map (fun s1 =>
    flat_map (fun '(t, s2) =>
      flat_map (fun s3 =>
        map (fun '(n, s4) => ((t, n), s4)) (opt_number s3))
        (opt_sep s2))
      (lits ws s1))
    (opt_sep s).

Definition parse_pre (s : string) : list (option (pre_tag * N) * string) :=
  map (fun '(p, r) => (Some p, r)) (lettered pre_letters s) ++ [(None, s)].

Definition parse_post (s : string) : list (option N * string) :=
  match s with
  | String "-" s' => map (fun '(n, r) => (Some n, r)) (digit_runs 0 s')
  | _ => []
  end
  ++ map (fun '(p, r) => (Some (snd p), r)) (lettered post_letters s)
  ++ [(None, s)].

Definition parse_dev (s : string) : list (option N * string) :=
  map (fun '(p, r) => (Some (snd p), r)) (lettered dev_letters s)
  ++ [(None, s)].

(** All matches of the pre/post/dev part that use up the input. *)
Definition parse_suffix (s : string)
  : list (option (pre_tag * N) * option N * option N) :=
  flat_map (fun '(p, s1) =>
    flat_map (fun '(q, s2) =>
      flat_map (fun '(d, s3) =>
        if String.eqb s3 "" then [(p, q, d)] else [])
        (parse_dev s2))
      (parse_post s1))
    (parse_pre s).

Definition is_local_char (c : ascii) : bool :=
  let n := Py.code c in
  Py.is_digit c || ((97 <=? n) && (n <=? 122))%N.

Fixpoint all_local_chars (s : string) : bool :=
  match s with
  | EmptyString => true
  | String c s' => is_local_char c && all_local_chars s'
  end.

(** Local segments, separated by one of [-_.]. *)
Fixpoint split_seps (s : string) : list string :=
  match s with
  | EmptyString => [EmptyString]
  | String c s' =>
      let r := split_seps s' in
      if is_sep c then EmptyString :: r
      else match r with
           | t :: ts => String c t :: ts
           | [] => [String c EmptyString]
           end
  end.

Definition parse_local (s : string) : option (list local_seg) :=
  let parts := split_seps s in
  if forallb (fun t => negb (String.eqb t "") && all_local_chars t) parts
  then Some (map (fun t => if Py.all_digits t
                           then LNum (Py.digits_value 0 t) else LStr t) parts)
  else None.

Definition parse_public (s : string) (loc : option (list local_seg))
  : exc Version :=
  let with_epoch (e : N) (body : string) : exc Version :=
    let '(rel, rest) := split_release body in
    match release_segment rel with
    | None => Raise InvalidVersion
    | Some r =>
        match parse_suffix rest with
        | (p, q, d) :: _ => Ret (mkVersion e r p q d loc)
        | [] => Raise InvalidVersion
        end
    end in
  match Py.split_on "!" s with
  | [body] => with_epoch 0%N body
  | [e; body] =>
      if nonempty_digits e then with_epoch (Py.digits_value 0 e) body
      else Raise InvalidVersion
  | _ => Raise InvalidVersion
  end.

(** [version.parse(s)]: a [Version], or [InvalidVersion]. *)
Definition parse (s : string) : exc Version :=
  let s1 := Py.lower (Py.strip s) in
  let s2 := match s1 with String "v" r => r | _ => s1 end in
  match Py.split_on "+" s2 with
  | [pub] => parse_public pub None
  | [pub; loc] =>
      match parse_local loc with
      | Some l => parse_public pub (Some l)
      | None => Raise InvalidVersion
      end
  | _ => Raise InvalidVersion
  end.

(** *** Ordering: [_cmpkey] *)

Inductive bounded (A : Type) : Type :=
| NegInf
| Fin (a : A)
| PosInf.
Arguments NegInf {A}.
Arguments Fin {A} a.
Arguments PosInf {A}.

Definition cmp_bounded {A : Type} (cmp : A -> A -> comparison)
  (x y : bounded A) : comparison :=
  match x, y with
  | NegInf, NegInf => Eq
  | NegInf, _ => Lt
  | _, NegInf => Gt
  | PosInf, PosInf => Eq
  | PosInf, _ => Gt
  | _, PosInf => Lt
  | Fin a, Fin b => cmp a b
  end.

(** [reversed(dropwhile(lambda x: x == 0, reversed(release)))] *)
Fixpoint strip_trailing_zeros (l : list N) : list N :=
  match l with
  | [] => []
  | x :: l' =>
      match strip_trailing_zeros l' with
      | [] => if (x =? 0)%N then [] else [x]
      | r => x :: r
      end
  end.

Definition tag_rank (t : pre_tag) : N :=
  match t with PA => 0 | PB => 1 | PRC => 2 end%N.

Definition cmp_pre (p q : pre_tag * N) : comparison :=
  match (tag_rank (fst p) ?= tag_rank (fst q))%N with
  | Eq => (snd p ?= snd q)%N
  | c => c
  end.

Definition cmp_local_seg (a b : local_seg) : comparison :=
  match a, b with
  | LStr s, LStr t => String.compare s t
  | LStr _, LNum _ => Lt
  | LNum _, LStr _ => Gt
  | LNum m, LNum n => (m ?= n)%N
  end.

Definition key_pre (v : Version) : bounded (pre_tag * N) :=
  match pre v, post v, dev v with
  | None, None, Some _ => NegInf
  | None, _, _ => PosInf
  | Some p, _, _ => Fin p
  end.

Definition key_post (v : Version) : bounded N :=
  match post v with None => NegInf | Some n => Fin n end.

Definition key_dev (v : Version) : bounded N :=
  match dev v with None => PosInf | Some n => Fin n end.

Definition key_local (v : Version) : bounded (list local_seg) :=
  match local v with None => NegInf | Some l => Fin l end.

Definition lex (c : comparison) (k : comparison) : comparison :=
  match c with Eq => k | _ => c end.

(** Comparison of the keys [(epoch, release, pre, post, dev, local)]. *)
Definition compare (v w : Version) : comparison :=
  lex (epoch v ?= epoch w)%N
  (lex (Py.cmp_seq N.compare (strip_trailing_zeros (release v))
                            (strip_trailing_zeros (release w)))
  (lex (cmp_bounded cmp_pre (key_pre v) (key_pre w))
  (lex (cmp_bounded N.compare (key_post v) (key_post w))
  (lex (cmp_bounded N.compare (key_dev v) (key_dev w))
       (cmp_bounded (Py.cmp_seq cmp_local_seg) (key_local v) (key_local w)))))).

(** [v > w] *)
Definition gt (v w : Version) : bool :=
  match compare v w with Gt => true | _ => false end.

End Packaging.

(** ** The version comparator ([update_checker.py]) *)

(** The body of the outer [try] of [_is_version_newer]:
    [version.parse(new_version) > version.parse(current_version)]. *)
Definition newer_by_version (new_version current_version : string)
  : exc bool :=
  bind (Packaging.parse new_version) (fun n =>
  bind (Packaging.parse current_version) (fun c =>
  Ret (Packaging.gt n c))).

(** The body of the inner [try]: the dot-separated tokens are converted
    with [int], the shorter list is padded with zeros and the lists are
    compared. *)
Definition newer_by_int_parts (new_version current_version : string)
  : exc bool :=
  bind (mapM Py.int (Py.split_on "." new_version)) (fun new_parts =>
  bind (mapM Py.int (Py.split_on "." current_version)) (fun current_parts =>
  let max_len := Nat.max (length new_parts) (length current_parts) in
  let new_parts := new_parts ++ repeat 0%Z (max_len - length new_parts) in
  let current_parts :=
    current_parts ++ repeat 0%Z (max_len - length current_parts) in
  Ret (match Py.cmp_seq Z.compare new_parts current_parts with
       | Gt => true
       | _ => false
       end))).

(** [_is_version_newer], exceptions explicit: the comparison of [Version]
    objects; if that raises, the comparison of integer lists; if that
    raises too, [False]. *)
Definition is_version_newer_exc (new_version current_version : string)
  : exc bool :=
  try_except (newer_by_version new_version current_version)
    (fun _ =>
       try_except (newer_by_int_parts new_version current_version)
         (fun _ => Ret false)).

(** The value [_is_version_newer] returns. *)
Definition is_version_newer (new_version current_version : string) : bool :=
  match is_version_newer_exc new_version current_version with
  | Ret b => b
  | Raise _ => false
  end.

(** The specification's three-way result.  The source has the predicate
    only: [a] is GREATER than [b] when [a] is newer than [b], LESS when [b]
    is newer than [a], EQUAL when neither is. *)
Inductive ordering : Type := LESS | EQUAL | GREATER.

Definition compare (a b : string) : ordering :=
  if is_version_newer a b then GREATER
  else if is_version_newer b a then LESS
  else EQUAL.

(** A valid dotted version string: non-empty runs of decimal digits
    separated by single dots; [dotted s] is its list of components. *)
Definition dotted (s : string) : option (list N) := Packaging.release_segment s.

(** Component-wise comparison in order, a missing trailing component
    counting as zero. *)
Definition pad (n : nat) (l : list N) : list N :=
  l ++ repeat 0%N (n - length l).

Definition cmp_components (l1 l2 : list N) : comparison :=
  let n := Nat.max (length l1) (length l2) in
  Py.cmp_seq N.compare (pad n l1) (pad n l2).

Definition of_comparison (c : comparison) : ordering :=
  match c with
  | Lt => LESS
  | Eq => EQUAL
  | Gt => GREATER
  end.

(** The fallback as the specification words it: "comparing the
    dot-separated tokens as strings". *)
Definition cmp_tokens_as_strings (a b : string) : comparison :=
  Py.cmp_seq String.compare (Py.split_on "." a) (Py.split_on "." b).

(** ** Floats: IEEE 754 binary64 *)

Module Float.

Definition prec : Z := 53.
Definition emax : Z := 1024.

(** [float(z)] for a Python integer: rounding to nearest even;
    [OverflowError] when the integer is too large. *)
Definition of_Z (z : Z) : exc spec_float :=
  match binary_normalize prec emax z 0 false with
  | S754_infinity _ => Raise OverflowError
  | f => Ret f
  end.

(** [float(s)] for [s] made of the decimal digits [ip], optionally followed
    by a point and the digits [fp]: the binary64 number nearest to the
    decimal, i.e. the correctly rounded quotient of the integer [ip fp] by
    the power of ten. *)
Definition of_decimal (ip fp : string) : spec_float :=
  match Py.digits_value 0 (ip ++ fp) with
  | N0 => S754_zero false
  | Npos m =>
      SFdiv prec emax (S754_finite false m 0)
        (S754_finite false (Z.to_pos (10 ^ Z.of_nat (String.length fp))) 0)
  end.

Definition mul (x y : spec_float) : spec_float := SFmul prec emax x y.

Definition ltb (x y : spec_float) : bool := SFltb x y.

(** [int(f)]: truncation; [OverflowError] on an infinity, [ValueError] on
    a NaN. *)
Definition to_Z (f : spec_float) : exc Z :=
  match f with
  | S754_zero _ => Ret 0%Z
  | S754_infinity _ => Raise OverflowError
  | S754_nan => Raise ValueError
  | S754_finite s m e =>
      let a := match e with
               | Zneg k => Z.shiftr (Zpos m) (Zpos k)
               | _ => Z.shiftl (Zpos m) e
               end in
      Ret (if s then (- a)%Z else a)
  end.

(** [z > f] for a Python integer [z] and a float [f]: the exact comparison
    of the two numbers. *)
Definition Z_gt (z : Z) (f : spec_float) : bool :=
  match f with
  | S754_zero _ => (0 <? z)%Z
  | S754_infinity s => s
  | S754_nan => false
  | S754_finite s m e =>
      let v := if s then Zneg m else Zpos m in
      match e with
      | Zneg k => (v <? Z.shiftl z (Zpos k))%Z
      | _ => (Z.shiftl v e <? z)%Z
      end
  end.

(** The literal [0.1], [0.05] *)
Definition lit_0_1 : spec_float := of_decimal "0" "1".
Definition lit_0_05 : spec_float := of_decimal "0" "05".

End Float.

(** ** Update resolution ([update_checker.py]) *)

(** A dictionary value read with [d.get(key, default)]: [None] models a
    missing key. *)
Definition get (o : option string) (default : string) : string :=
  match o with
  | Some v => v
  | None => default
  end.

(** A driver record: the keys the functions below read. *)
Record Driver : Type := mkDriver {
  device_name : option string;
  manufacturer : option string;
  hardware_id : option string;
  version : option string;
  device_id : option string;
  driver_path : option string
}.

(** An update candidate: the dictionary the strategies build and the
    installer reads. *)
Record Update : Type := mkUpdate {
  u_device_name : option string;
  current_version : option string;
  new_version : option string;
  download_url : option string;
  download_size : option string;
  release_notes : option string;
  u_manufacturer : option string;
  status : option string;
  driver_type : option string
}.

(** [_generate_mock_version] *)
Definition generate_mock_version (current_version : string) : string :=
  let parts := Py.split_on "." current_version in
  let body : exc (option string) :=
    if (2 <=? length parts)%nat then
      bind (Py.int (nth 0 parts "")) (fun major =>
      bind (Py.int (nth 1 parts "")) (fun minor =>
      bind (if (2 <? length parts)%nat then Py.int (nth 2 parts "")
            else Ret 0%Z) (fun build =>
      bind (if (3 <? length parts)%nat then Py.int (nth 3 parts "")
            else Ret 0%Z) (fun revision =>
      let build := (build + 1)%Z in
      Ret (Some (Py.str_Z major +:+ "." +:+ Py.str_Z minor +:+ "."
                 +:+ Py.str_Z build +:+ "." +:+ Py.str_Z revision))))))
    else Ret None in
  match try_except body (fun _ => Ret None) with
  | Ret (Some v) => v
  | _ => "1.0.0.1"
  end.

(** *** [_extract_nvidia_gpu_series]: three regular expressions, searched
    case-insensitively; the result is the text of the first match. *)

(** [\w] on code points below 256. *)
Definition is_word (c : ascii) : bool :=
  let n := Py.code c in
  (Py.is_digit c || (65 <=? n) && (n <=? 90) || (97 <=? n) && (n <=? 122)
   || (n =? 95) || (n =? 170) || (n =? 178) || (n =? 179) || (n =? 181)
   || (n =? 185) || (n =? 186) || (188 <=? n) && (n <=? 190)
   || (192 <=? n) && (n <=? 214) || (216 <=? n) && (n <=? 246)
   || (248 <=? n))%N.

(** Length of the longest prefix whose characters satisfy [p]. *)
Fixpoint run_length (p : ascii -> bool) (s : string) : nat :=
  match s with
  | EmptyString => O
  | String c s' => if p c then S (run_length p s') else O
  end.

(** [lit \s+ rest]: the literal, at least one blank, then [rest]; the
    length of the match. *)
Definition lit_blank_then (lit : string) (rest : string -> option nat)
  (s : string) : option nat :=
  if Py.startswith lit s then
    let s1 := Packaging.drop (String.length lit) s in
    let k := run_length Py.is_space s1 in
    match k with
    | O => None
    | S _ =>
        match rest (Packaging.drop k s1) with
        | Some n => Some (String.length lit + k + n)%nat
        | None => None
        end
    end
  else None.

Definition one_or_more (p : ascii -> bool) (s : string) : option nat :=
  match run_length p s with
  | O => None
  | n => Some n
  end.

(** [geforce\s+(rtx|gtx)\s+(\d+)] at the start of [s] *)
Definition match_geforce (s : string) : option nat :=
  lit_blank_then "geforce"
    (fun s1 =>
       match lit_blank_then "rtx" (one_or_more Py.is_digit) s1 with
       | Some n => Some n
       | None => lit_blank_then "gtx" (one_or_more Py.is_digit) s1
       end) s.

(** [quadro\s+(\w+)] and [tesla\s+(\w+)] at the start of [s] *)
Definition match_quadro (s : string) : option nat :=
  lit_blank_then "quadro" (one_or_more is_word) s.

Definition match_tesla (s : string) : option nat :=
  lit_blank_then "tesla" (one_or_more is_word) s.

(** [re.search(pattern, s, re.IGNORECASE)]: the leftmost match;
    [match.group(0)]. *)
Fixpoint re_search (m : string -> option nat) (s : string) : option string :=
  match m (Py.lower s) with
  | Some n => Some (Py.take n s)
  | None =>
      match s with
      | EmptyString => None
      | String _ s' => re_search m s'
      end
  end.

Definition extract_nvidia_gpu_series (device_name : string) : option string :=
  match re_search match_geforce device_name with
  | Some g => Some g
  | None =>
      match re_search match_quadro device_name with
      | Some g => Some g
      | None => re_search match_tesla device_name
      end
  end.

(** *** The manufacturer strategies.  Nothing inside their [try] blocks
    raises in this model, so they are plain functions.  [rnd] is the value
    [random.random()] returns in the two strategies that draw one. *)

Definition candidate (driver : Driver) (current new url size notes mfg ty : string)
  : Update :=
  {| u_device_name := device_name driver;
     current_version := Some current;
     new_version := Some new;
     download_url := Some url;
     download_size := Some size;
     release_notes := Some notes;
     u_manufacturer := Some mfg;
     status := Some "Available";
     driver_type := Some ty |}.

Definition check_nvidia_updates (driver : Driver) : option Update :=
  let device_name := Py.lower (get (device_name driver) "") in
  if negb (Py.contains "nvidia" device_name)
     && negb (Py.contains "geforce" device_name)
     && negb (Py.contains "quadro" device_name)
  then None
  else
    match extract_nvidia_gpu_series device_name with
    | None => None
    | Some _ =>
        let current_version := get (version driver) "0.0.0.0" in
        let new_version := generate_mock_version current_version in
        if is_version_newer new_version current_version then
          Some (candidate driver current_version new_version
                  ("https://us.download.nvidia.com/Windows/" +:+ new_version
                   +:+ "/GeForce_Driver.exe")
                  "500 MB" "Bug fixes and performance improvements"
                  "NVIDIA" "Graphics")
        else None
    end.

Definition check_amd_updates (driver : Driver) : option Update :=
  let device_name := Py.lower (get (device_name driver) "") in
  if negb (Py.contains "amd" device_name)
     && negb (Py.contains "radeon" device_name)
     && negb (Py.contains "ati" device_name)
  then None
  else
    let current_version := get (version driver) "0.0.0.0" in
    let new_version := generate_mock_version current_version in
    if is_version_newer new_version current_version then
      Some (candidate driver current_version new_version
              ("https://drivers.amd.com/drivers/installer/22.40/radeon-software-adrenalin-"
               +:+ new_version +:+ ".exe")
              "450 MB" "Performance optimizations and bug fixes"
              "AMD" "Graphics")
    else None.

Definition check_intel_updates (driver : Driver) : option Update :=
  let device_name := Py.lower (get (device_name driver) "") in
  if negb (Py.contains "intel" device_name) then None
  else
    let current_version := get (version driver) "0.0.0.0" in
    let new_version := generate_mock_version current_version in
    if is_version_newer new_version current_version then
      Some (candidate driver current_version new_version
              ("https://downloadmirror.intel.com/drivers/" +:+ new_version
               +:+ "/intel-driver.exe")
              "200 MB" "Stability improvements and new features"
              "Intel" "System")
    else None.

Definition check_realtek_updates (driver : Driver) : option Update :=
  let device_name := Py.lower (get (device_name driver) "") in
  if negb (Py.contains "realtek" device_name) then None
  else
    let current_version := get (version driver) "0.0.0.0" in
    let new_version := generate_mock_version current_version in
    if is_version_newer new_version current_version then
      Some (candidate driver current_version new_version
              ("https://www.realtek.com/downloads/" +:+ new_version
               +:+ "/realtek-driver.exe")
              "50 MB" "Audio and network improvements"
              "Realtek" "Audio/Network")
    else None.

Definition check_microsoft_updates (driver : Driver) (rnd : spec_float)
  : option Update :=
  if Float.ltb rnd Float.lit_0_1 then
    let current_version := get (version driver) "0.0.0.0" in
    let new_version := generate_mock_version current_version in
    Some (candidate driver current_version new_version
            "windows_update" "10 MB" "Windows Update driver package"
            "Microsoft" "System")
  else None.

Definition check_generic_updates (driver : Driver) (rnd : spec_float)
  : option Update :=
  if Float.ltb rnd Float.lit_0_05 then
    let current_version := get (version driver) "0.0.0.0" in
    let new_version := generate_mock_version current_version in
    Some (candidate driver current_version new_version
            "generic_update" "25 MB" "Generic driver update"
            (get (manufacturer driver) "Unknown") "Generic")
  else None.

Inductive strategy : Type :=
  Nvidia | Amd | Intel | Realtek | Microsoft | Generic.

(** [self.update_checkers], in insertion order. *)
Definition update_checkers : list (string * strategy) :=
  [("nvidia", Nvidia); ("amd", Amd); ("intel", Intel);
   ("realtek", Realtek); ("microsoft", Microsoft); ("generic", Generic)].

Definition run_strategy (k : strategy) (driver : Driver) (rnd : spec_float)
  : option Update :=
  match k with
  | Nvidia => check_nvidia_updates driver
  | Amd => check_amd_updates driver
  | Intel => check_intel_updates driver
  | Realtek => check_realtek_updates driver
  | Microsoft => check_microsoft_updates driver rnd
  | Generic => check_generic_updates driver rnd
  end.

(** The first strategy whose key occurs in the manufacturer or in the
    device name, else the generic one. *)
Definition select_strategy (driver : Driver) : strategy :=
  let manufacturer := Py.lower (get (manufacturer driver) "") in
  let device_name := get (device_name driver) "" in
  match find (fun '(mfg_key, _) =>
                Py.contains mfg_key manufacturer
                || Py.contains mfg_key (Py.lower device_name))
             update_checkers with
  | Some (_, k) => k
  | None => Generic
  end.

(** [_check_driver_update] *)
Definition check_driver_update (driver : Driver) (rnd : spec_float)
  : option Update :=
  run_strategy (select_strategy driver) driver rnd.

(** [check_for_updates]: the drivers in input order, each with the value
    its strategy would draw; the candidates found, in that order. *)
Fixpoint check_for_updates (drivers_data : list Driver)
  (draws : list spec_float) : list Update :=
  match drivers_data with
  | [] => []
  | driver :: rest =>
      let rnd := hd (S754_zero false) draws in
      match check_driver_update driver rnd with
      | Some update_info =>
          update_info :: check_for_updates rest (tl draws)
      | None => check_for_updates rest (tl draws)
      end
  end.

(** The invariant of an update candidate: its new version is newer than
    its current version. *)
Definition candidate_newer (u : Update) : bool :=
  is_version_newer (get (new_version u) "") (get (current_version u) "").

(** ** Download verification ([update_checker.py]) *)

(** [(\d+(?:\.\d+)?)\s*(KB|MB|GB)] at the start of [s] (already in lower
    case): the integer digits, the fraction digits and the unit in upper
    case, as [match.group(2).upper()] gives it.  After
    the greedy runs the next character decides, so there is one way to
    match at a given position. *)
Definition match_size (s : string) : option (string * string * string) :=
  let '(ip, r1) := Packaging.span Py.is_digit s in
  if String.eqb ip "" then None
  else
    let '(fp, r2) :=
      match r1 with
      | String "." r =>
          let '(f, r') := Packaging.span Py.is_digit r in
          if String.eqb f "" then (EmptyString, r1) else (f, r')
      | _ => (EmptyString, r1)
      end in
    let r3 := Py.lstrip r2 in
    if Py.startswith "kb" r3 then Some (ip, fp, "KB")
    else if Py.startswith "mb" r3 then Some (ip, fp, "MB")
    else if Py.startswith "gb" r3 then Some (ip, fp, "GB")
    else None.

(** [re.search(..., size_str, re.IGNORECASE)]: the leftmost match. *)
Fixpoint search_size (s : string) : option (string * string * string) :=
  match match_size (Py.lower s) with
  | Some m => Some m
  | None =>
      match s with
      | EmptyString => None
      | String _ s' => search_size s'
      end
  end.

(** [multipliers.get(unit, 1)] *)
Definition multiplier (unit : string) : Z :=
  if String.eqb unit "KB" then 1024
  else if String.eqb unit "MB" then 1024 ^ 2
  else if String.eqb unit "GB" then 1024 ^ 3
  else 1.

(** [_parse_size_string]: [int(size * multiplier)], or [None] when the
    string has no match or the conversion raises. *)
Definition parse_size_string (size_str : string) : option Z :=
  match search_size size_str with
  | None => None
  | Some (ip, fp, unit) =>
      let size := Float.of_decimal ip fp in
      match bind (Float.of_Z (multiplier unit)) (fun m =>
            Float.to_Z (Float.mul size m)) with
      | Ret n => Some n
      | Raise _ => None
      end
  end.

(** [abs(file_size - expected_bytes) > expected_bytes * 0.1] *)
Definition exceeds_tolerance (file_size expected_bytes : Z) : exc bool :=
  bind (Float.of_Z expected_bytes) (fun e =>
  Ret (Float.Z_gt (Z.abs (file_size - expected_bytes))
         (Float.mul e Float.lit_0_1))).

(** [file_path.lower().endswith((".exe", ".msi", ".inf"))] *)
Definition installer_extension (file_path : string) : bool :=
  let p := Py.lower file_path in
  Py.endswith ".exe" p || Py.endswith ".msi" p || Py.endswith ".inf" p.

(** A string is true when it is not empty; [None] is false. *)
Definition truthy (o : option string) : bool :=
  match o with
  | Some s => negb (String.eqb s "")
  | None => false
  end.

(** [verify_download].  [files] gives the size of each existing file
    ([os.path.exists], [os.path.getsize]). *)
Definition verify_download_exc (files : string -> option Z)
  (file_path : string) (expected_size : option string) : exc bool :=
  try_except
    (match files file_path with
     | None => Ret false
     | Some file_size =>
         bind
           (if truthy expected_size then
              match parse_size_string (get expected_size "") with
              | Some expected_bytes =>
                  if (expected_bytes =? 0)%Z then Ret false
                  else exceeds_tolerance file_size expected_bytes
              | None => Ret false
              end
            else Ret false)
           (fun too_far =>
              if too_far then Ret false
              else if negb (installer_extension file_path) then Ret false
              else Ret true)
     end)
    (fun _ => Ret false).

Definition verify_download (files : string -> option Z)
  (file_path : string) (expected_size : option string) : bool :=
  match verify_download_exc files file_path expected_size with
  | Ret b => b
  | Raise _ => false
  end.

(** ** De-duplication ([driver_scanner_fixed.py]) *)

(** The key of a record: [(driver.get("device_id", ""),
    driver.get("driver_path", ""))]. *)
Definition driver_key (driver : Driver) : string * string :=
  (get (device_id driver) "", get (driver_path driver) "").

(** The loop of [_remove_duplicates]: the records still to visit, the set
    [seen] and the list [unique_drivers] built so far. *)
Fixpoint remove_duplicates_loop (drivers : list Driver)
  (seen : gset (string * string)) (unique_drivers : list Driver)
  : list Driver :=
  match drivers with
  | [] => unique_drivers
  | driver :: rest =>
      let key := driver_key driver in
      if decide (key ∈ seen) then remove_duplicates_loop rest seen unique_drivers
      else remove_duplicates_loop rest ({[key]} ∪ seen)
             (unique_drivers ++ [driver])
  end.

Definition remove_duplicates (drivers : list Driver) : list Driver :=
  remove_duplicates_loop drivers ∅ [].

(** ** File names ([driver_installer.py]) *)

(** The characters of [invalid_chars]: less-than, greater-than, colon,
    double quote (code 34), slash, backslash, bar, question mark, star. *)
Definition invalid_chars : list ascii :=
  ["<"; ">"; ":"; ascii_of_N 34; "/"; "\"; "|"; "?"; "*"]%char.

(** [_sanitize_filename] *)
Definition sanitize_filename (filename : string) : string :=
  let filename :=
    fold_left (fun f char => Py.replace_char char "_" f) invalid_chars filename in
  let filename :=
    if (50 <? String.length filename)%nat then Py.take 50 filename
    else filename in
  Py.strip filename.

(** [_generate_driver_filename]: the extension is [.exe] in every branch. *)
Definition generate_driver_filename (update : Update) : string :=
  let device_name := get (u_device_name update) "Unknown" in
  let manufacturer := get (u_manufacturer update) "Unknown" in
  let version := get (new_version update) "1.0.0.0" in
  let safe_device_name := sanitize_filename device_name in
  let safe_manufacturer := sanitize_filename manufacturer in
  let ext := ".exe" in
  safe_manufacturer +:+ "_" +:+ safe_device_name +:+ "_" +:+ version +:+ ext.

(** ** Installation ([driver_installer.py])

    External programs are run with [subprocess.run].  What a program does
    is not known to the installer: it is given by an oracle that sees the
    invocations made so far and the new one.  The installer's state is the
    list of invocations it has made, oldest first. *)

Record invocation : Type := mkInvocation {
  argv : list string;
  timeout : N
}.

Inductive proc_result : Type :=
| Exited (returncode : Z)
| TimedOut
| Errored.

Definition oracle : Type := list invocation -> invocation -> proc_result.
Definition trace : Type := list invocation.

(** [subprocess.run(argv, timeout=...)]: the return code, or the
    exception raised. *)
Definition subprocess_run (os : oracle) (cmd : invocation) (tr : trace)
  : exc Z * trace :=
  (match os tr cmd with
   | Exited c => Ret c
   | TimedOut => Raise TimeoutExpired
   | Errored => Raise OSError
   end, tr ++ [cmd]).

(** The silent installation parameters, in the order they are tried. *)
Definition silent_params : list string :=
  ["/S"; "/SILENT"; "/VERYSILENT"; "/q"; "/s"; "-s"; "--silent"; "/quiet"].

Definition exe_attempt (driver_file param : string) : invocation :=
  mkInvocation [driver_file; param] 300.

Definition interactive_attempt (driver_file : string) : invocation :=
  mkInvocation [driver_file] 600.

(** [_install_interactive]: the installer without parameters. *)
Definition install_interactive (os : oracle) (driver_file : string)
  (tr : trace) : bool * trace :=
  match subprocess_run os (interactive_attempt driver_file) tr with
  | (Ret c, tr') => ((c =? 0)%Z || (c =? 3010)%Z, tr')
  | (Raise _, tr') => (false, tr')
  end.

(** The loop of [_install_exe_driver] over the parameters left to try:
    [Some true] when an attempt returned 0 or 3010, [None] when the loop
    ran to its end. *)
Fixpoint try_silent (os : oracle) (driver_file : string)
  (params : list string) (tr : trace) : option bool * trace :=
  match params with
  | [] => (None, tr)
  | param :: rest =>
      match subprocess_run os (exe_attempt driver_file param) tr with
      | (Ret c, tr') =>
          if (c =? 0)%Z then (Some true, tr')
          else if (c =? 3010)%Z then (Some true, tr')
          else try_silent os driver_file rest tr'
      | (Raise _, tr') => try_silent os driver_file rest tr'
      end
  end.

(** [_install_exe_driver] *)
Definition install_exe_driver (os : oracle) (driver_file : string)
  (tr : trace) : bool * trace :=
  match try_silent os driver_file silent_params tr with
  | (Some b, tr') => (b, tr')
  | (None, tr') => install_interactive os driver_file tr'
  end.

(** [_install_msi_driver] *)
Definition install_msi_driver (os : oracle) (driver_file : string)
  (tr : trace) : bool * trace :=
  match subprocess_run os
          (mkInvocation ["msiexec"; "/i"; driver_file; "/quiet"; "/norestart"] 300)
          tr with
  | (Ret c, tr') => ((c =? 0)%Z || (c =? 3010)%Z, tr')
  | (Raise _, tr') => (false, tr')
  end.

Definition inf_attempt (driver_file : string) : invocation :=
  mkInvocation ["pnputil"; "/add-driver"; driver_file; "/install"] 300.

(** [_install_inf_driver] and [_install_inf_driver_interactive]: the same
    command, success on return code 0. *)
Definition install_inf_driver (os : oracle) (driver_file : string)
  (tr : trace) : bool * trace :=
  match subprocess_run os (inf_attempt driver_file) tr with
  | (Ret c, tr') => ((c =? 0)%Z, tr')
  | (Raise _, tr') => (false, tr')
  end.

(** [os.path.splitext(p)[1]] with the separators of Windows paths: the
    text from the last dot of the last component, unless only dots come
    before it in that component. *)
Definition is_path_sep (c : ascii) : bool :=
  Ascii.eqb c "/" || Ascii.eqb c "\".

(** The last component of a path. *)
Fixpoint basename (p : string) : string :=
  match p with
  | EmptyString => EmptyString
  | String _ p' =>
      if all_chars (fun x => negb (is_path_sep x)) p then p else basename p'
  end.

Fixpoint lstrip_dots (s : string) : string :=
  match s with
  | String c s' => if Ascii.eqb c "." then lstrip_dots s' else s
  | EmptyString => s
  end.

Definition splitext_ext (p : string) : string :=
  let b := lstrip_dots (basename p) in
  match rev (Py.split_on "." b) with
  | last :: _ :: _ => String "." last
  | _ => EmptyString
  end.

(** [os.path.join(root, file)] on Windows, for a relative [file] and a
    [root] that is more than a drive letter. *)
Definition path_join (root file : string) : string :=
  match last_char root with
  | Some c => if is_path_sep c then root +:+ file else root +:+ "\" +:+ file
  | None => file
  end.

(** [_install_driver_file]: dispatch on the extension. *)
Definition install_driver_file (os : oracle) (driver_file : string)
  (tr : trace) : bool * trace :=
  let file_ext := Py.lower (splitext_ext driver_file) in
  if String.eqb file_ext ".exe" then install_exe_driver os driver_file tr
  else if String.eqb file_ext ".msi" then install_msi_driver os driver_file tr
  else if String.eqb file_ext ".inf" then install_inf_driver os driver_file tr
  else (false, tr).

(** *** The interactive variants *)

(** [_install_exe_driver_interactive] and
    [_install_msi_driver_interactive]: one attempt, success on 0 only. *)
Definition install_exe_driver_interactive (os : oracle) (driver_file : string)
  (tr : trace) : bool * trace :=
  match subprocess_run os
          (mkInvocation [driver_file; "/S"; "/silent"; "/quiet"; "/norestart"] 300)
          tr with
  | (Ret c, tr') => ((c =? 0)%Z, tr')
  | (Raise _, tr') => (false, tr')
  end.

Definition install_msi_driver_interactive (os : oracle) (driver_file : string)
  (tr : trace) : bool * trace :=
  match subprocess_run os
          (mkInvocation ["msiexec"; "/i"; driver_file; "/quiet"; "/norestart"] 300)
          tr with
  | (Ret c, tr') => ((c =? 0)%Z, tr')
  | (Raise _, tr') => (false, tr')
  end.

Definition install_inf_driver_interactive := install_inf_driver.

(** [file.endswith((".inf", ".sys", ".cat"))] *)
Definition driver_information_file (file : string) : bool :=
  Py.endswith ".inf" file || Py.endswith ".sys" file || Py.endswith ".cat" file.

(** The inner loop of [_install_zip_driver_interactive] over the files of
    one directory: every driver-information file is installed; the result
    of the installation is dropped. *)
Fixpoint install_inner_files (os : oracle) (root : string)
  (files : list string) (tr : trace) : trace :=
  match files with
  | [] => tr
  | file :: rest =>
      if driver_information_file file then
        let '(_, tr') :=
          install_inf_driver_interactive os (path_join root file) tr in
        install_inner_files os root rest tr'
      else install_inner_files os root rest tr
  end.

(** The outer loop, over the [(root, files)] pairs of [os.walk]. *)
Fixpoint install_walk (os : oracle) (tree : list (string * list string))
  (tr : trace) : trace :=
  match tree with
  | [] => tr
  | (root, files) :: rest =>
      install_walk os rest (install_inner_files os root files tr)
  end.

(** [_install_zip_driver_interactive].  [unpack driver_file] is the
    outcome of [shutil.unpack_archive] into the scratch directory: the
    [(root, files)] pairs that [os.walk] then yields, or the exception
    raised.  Creating and removing the scratch directory is taken to
    succeed. *)
Definition install_zip_driver_interactive (os : oracle)
  (unpack : string -> exc (list (string * list string)))
  (driver_file : string) (tr : trace) : bool * trace :=
  match unpack driver_file with
  | Ret tree => (true, install_walk os tree tr)
  | Raise _ => (false, tr)
  end.

(** [_install_driver_file_interactive] *)
Definition install_driver_file_interactive (os : oracle)
  (unpack : string -> exc (list (string * list string)))
  (driver_file : string) (tr : trace) : bool * trace :=
  let file_ext := Py.lower (splitext_ext driver_file) in
  if String.eqb file_ext ".exe"
  then install_exe_driver_interactive os driver_file tr
  else if String.eqb file_ext ".msi"
  then install_msi_driver_interactive os driver_file tr
  else if String.eqb file_ext ".inf" || String.eqb file_ext ".cat"
          || String.eqb file_ext ".sys"
  then install_inf_driver_interactive os driver_file tr
  else if String.eqb file_ext ".zip"
  then install_zip_driver_interactive os unpack driver_file tr
  else (false, tr).

(** *** One update *)

(** The environment of one session. *)
Record Env : Type := mkEnv {
  os : oracle;
  (** [session.get(url)] written to the download path: the size of the
      file written, [None] when the request or the write fails *)
  fetch : string -> option Z;
  unpack : string -> exc (list (string * list string));
  temp_dir : string;
  (** the PowerShell scripts, built from a device name or a description *)
  windows_update_script : string -> string;
  restore_point_script : string -> string
}.

(** What the installer changes: the files it wrote (path and size) and
    the programs it ran. *)
Record World : Type := mkWorld {
  files : gmap string Z;
  ran : trace
}.

(** [UpdateChecker.download_driver] *)
Definition download_driver (env : Env) (update : Update)
  (download_path : string) (w : World) : bool * World :=
  match download_url update with
  | None => (false, w)
  | Some url =>
      if String.eqb url "" || String.eqb url "windows_update"
         || String.eqb url "generic_update"
      then (false, w)
      else match fetch env url with
           | Some size =>
               (true, mkWorld (<[download_path := size]> (files w)) (ran w))
           | None => (false, w)
           end
  end.

(** [_download_driver]: the path of the verified download. *)
Definition download_driver_file (env : Env) (update : Update) (w : World)
  : option string * World :=
  let filename := generate_driver_filename update in
  let download_path := path_join (temp_dir env) filename in
  match download_driver env update download_path w with
  | (true, w') =>
      if verify_download (fun p => files w' !! p) download_path
           (download_size update)
      then (Some download_path, w')
      else (None, w')
  | (false, w') => (None, w')
  end.

(** [_backup_current_driver]: the export is attempted, its outcome only
    logged.  Creating the backup directory is taken to succeed. *)
Definition backup_current_driver (env : Env) (update : Update) (w : World)
  : World :=
  let device_name := get (u_device_name update) "Unknown" in
  let device_backup_dir :=
    path_join (path_join (temp_dir env) "driver_backups")
      (sanitize_filename device_name) in
  let '(_, tr) :=
    subprocess_run (os env)
      (mkInvocation ["pnputil"; "/export-driver"; "*"; device_backup_dir] 60)
      (ran w) in
  mkWorld (files w) tr.

(** [_install_via_windows_update]: success on return code 2. *)
Definition install_via_windows_update (env : Env) (update : Update)
  (w : World) : bool * World :=
  let device_name := get (u_device_name update) "Unknown" in
  match subprocess_run (os env)
          (mkInvocation ["powershell"; "-Command";
                         windows_update_script env device_name] 300)
          (ran w) with
  | (Ret c, tr) => ((c =? 2)%Z, mkWorld (files w) tr)
  | (Raise _, tr) => (false, mkWorld (files w) tr)
  end.

(** [_install_single_update] *)
Definition install_single_update (env : Env) (update : Update) (w : World)
  : bool * World :=
  if negb (truthy (download_url update)) then (false, w)
  else if String.eqb (get (download_url update) "") "windows_update"
  then install_via_windows_update env update w
  else if String.eqb (get (download_url update) "") "generic_update"
  then (false, w)
  else
    match download_driver_file env update w with
    | (None, w1) => (false, w1)
    | (Some driver_file, w1) =>
        let w2 := backup_current_driver env update w1 in
        let '(ok, tr) := install_driver_file (os env) driver_file (ran w2) in
        (ok, mkWorld (files w2) tr)
    end.

(** [SystemUtils.create_restore_point] *)
Definition create_restore_point (env : Env) (description : string)
  (w : World) : bool * World :=
  match subprocess_run (os env)
          (mkInvocation ["powershell"; "-Command";
                         restore_point_script env description] 120)
          (ran w) with
  | (Ret c, tr) => ((c =? 0)%Z, mkWorld (files w) tr)
  | (Raise _, tr) => (false, mkWorld (files w) tr)
  end.

(** *** The batch *)

(** What the loop of [install_updates] records for an item: the log line
    it writes ("Successfully installed update for", "Failed to install
    update for", "Error installing update for"). *)
Inductive item_outcome : Type :=
| Installed
| NotInstalled
| InstallError (e : exn).

Section Batch.

(** The loop of [install_updates] does not depend on how one update is
    installed: [install_single] stands for [_install_single_update] and
    may even raise; [restore_point] for the creation of the restore
    point. *)
Context {W : Type}.
Variable restore_point : W -> bool * W.
Variable install_single : Update -> W -> exc bool * W.

Fixpoint install_loop (updates : list Update) (success_count : nat)
  (outcomes : list (Update * item_outcome)) (w : W)
  : nat * list (Update * item_outcome) * W :=
  match updates with
  | [] => (success_count, outcomes, w)
  | update :: rest =>
      match install_single update w with
      | (Ret true, w') =>
          install_loop rest (S success_count)
            (outcomes ++ [(update, Installed)]) w'
      | (Ret false, w') =>
          install_loop rest success_count
            (outcomes ++ [(update, NotInstalled)]) w'
      | (Raise e, w') =>
          install_loop rest success_count
            (outcomes ++ [(update, InstallError e)]) w'
      end
  end.

(** [install_updates]: the number of updates installed, with the
    outcome recorded for each item. *)
Definition install_updates_with (updates : list Update) (w : W)
  : nat * list (Update * item_outcome) * W :=
  let '(_, w1) := restore_point w in
  install_loop updates 0 [] w1.

End Batch.

(** [install_updates] of [DriverInstaller]. *)
Definition install_updates (env : Env) (updates : list Update) (w : World)
  : nat * list (Update * item_outcome) * World :=
  install_updates_with
    (create_restore_point env "Driver Updater - Batch Installation")
    (fun update w =>
       let '(ok, w') := install_single_update env update w in (Ret ok, w'))
    updates w.

(** The result the specification names: how many succeeded, out of how
    many. *)
Record batch_result : Type := mkResult { succeeded : nat; total : nat }.

Definition run {W : Type} (restore_point : W -> bool * W)
  (install_single : Update -> W -> exc bool * W)
  (updates : list Update) (w : W) : batch_result :=
  mkResult (fst (fst (install_updates_with restore_point install_single updates w)))
           (length updates).

(** ** The scan ([driver_scanner_fixed.py]) *)

(** [scan_all_drivers]: the records of the plug-and-play scan, then those
    of the system scan, de-duplicated.  The two sub-scans read the
    operating system; their results are the arguments. *)
Definition scan_all_drivers (pnp_drivers system_drivers : list Driver)
  : list Driver :=
  let drivers := [] ++ pnp_drivers in
  let drivers := drivers ++ system_drivers in
  remove_duplicates drivers.

(** [s[a:b]] *)
Definition slice (a b : nat) (s : string) : string :=
  Py.take (b - a) (Packaging.drop a s).

(** [_format_driver_date]; [None] is the Python [None]. *)
Definition format_driver_date (date_str : option string) : string :=
  if negb (truthy date_str) then "Unknown"
  else
    let s := get date_str "" in
    if (8 <=? String.length s)%nat then
      let year := slice 0 4 s in
      let month := slice 4 6 s in
      let day := slice 6 8 s in
      year +:+ "-" +:+ month +:+ "-" +:+ day
    else if truthy date_str then s else "Unknown".

(** [any(keyword in device_name or keyword in hardware_id
         for keyword in keywords)] *)
Definition any_keyword (keywords : list string)
  (device_name hardware_id : string) : bool :=
  existsb (fun keyword =>
             Py.contains keyword device_name || Py.contains keyword hardware_id)
          keywords.

(** The branch of [get_driver_categories] a record takes. *)
Definition categorize (driver : Driver) : string :=
  let device_name := Py.lower (get (device_name driver) "") in
  let hardware_id :=
    if truthy (hardware_id driver) then Py.lower (get (hardware_id driver) "")
    else "" in
  if any_keyword ["display"; "graphics"; "video"; "nvidia"; "amd";
                  "intel hd"; "radeon"] device_name hardware_id
  then "Graphics"
  else if any_keyword ["audio"; "sound"; "speaker"; "microphone"; "realtek";
                       "hdmi audio"] device_name hardware_id
  then "Audio"
  else if any_keyword ["network"; "ethernet"; "wifi"; "wireless";
                       "bluetooth"; "lan"] device_name hardware_id
  then "Network"
  else if any_keyword ["storage"; "disk"; "ssd"; "hdd"; "sata"; "nvme";
                       "usb mass"] device_name hardware_id
  then "Storage"
  else if any_keyword ["keyboard"; "mouse"; "hid"; "input"; "touchpad"]
            device_name hardware_id
  then "Input"
  else if any_keyword ["system"; "chipset"; "acpi"; "pci"; "usb root";
                       "processor"] device_name hardware_id
  then "System"
  else "Other".

Definition category_names : list string :=
  ["Graphics"; "Audio"; "Network"; "Storage"; "Input"; "System"; "Other"].

(** The dictionary [categories] before the loop. *)
Definition empty_categories : gmap string (list Driver) :=
  list_to_map (map (fun c => (c, [])) category_names).

(** [categories[c].append(driver)] *)
Definition append_to (c : string) (driver : Driver)
  (categories : gmap string (list Driver)) : gmap string (list Driver) :=
  <[c := default [] (categories !! c) ++ [driver]]> categories.

(** [get_driver_categories] *)
Definition get_driver_categories (drivers : list Driver)
  : gmap string (list Driver) :=
  fold_left (fun categories driver =>
               append_to (categorize driver) driver categories)
            drivers empty_categories.

(** ** Priority ([main.py]) *)

(** [calculate_update_priority] *)
Definition calculate_update_priority (update : Update) : string :=
  let device_name := Py.lower (get (u_device_name update) "") in
  if existsb (fun keyword => Py.contains keyword device_name)
       ["graphics"; "display"; "security"; "chipset"]
  then "High"
  else if existsb (fun keyword => Py.contains keyword device_name)
            ["audio"; "network"; "ethernet"; "wifi"]
  then "Medium"
  else "Low".

(** ** Hardware identifiers ([update_checker.py]) *)

(** [[0-9A-F]] under [re.IGNORECASE], on a character already in lower
    case. *)
Definition is_hex (c : ascii) : bool :=
  let n := Py.code c in
  (Py.is_digit c || (97 <=? n) && (n <=? 102))%N.

(** [VEN_([0-9A-F]{4})&DEV_([0-9A-F]{4})] at the start of [s] (in lower
    case). *)
Definition match_hardware_id (s : string) : bool :=
  Py.startswith "ven_" s
  && (String.length (slice 4 8 s) =? 4)%nat && all_chars is_hex (slice 4 8 s)
  && Py.startswith "&dev_" (Packaging.drop 8 s)
  && (String.length (slice 13 17 s) =? 4)%nat
  && all_chars is_hex (slice 13 17 s).

(** [re.search]: the groups of the leftmost match. *)
Fixpoint search_hardware_id (s : string) : option (string * string) :=
  if match_hardware_id (Py.lower s) then Some (slice 4 8 s, slice 13 17 s)
  else match s with
       | EmptyString => None
       | String _ s' => search_hardware_id s'
       end.

(** [_parse_hardware_id]: the vendor and device identifiers, or
    [(None, None)]. *)
Definition parse_hardware_id (hardware_id : string)
  : option string * option string :=
  match search_hardware_id hardware_id with
  | Some (vendor, device) => (Some vendor, Some device)
  | None => (None, None)
  end.

(** ** The interactive installation ([driver_installer.py], [main.py]) *)

(** [_download_driver_interactive] never returns a path: the first
    statement of its [try] block reads [self.session], an attribute
    [DriverInstaller] never sets, and a later one calls
    [_generate_driver_filename] with one argument too many; either
    exception is caught and [None] is returned. *)
Definition download_driver_interactive (update : Update) : option string :=
  None.

(** [_install_via_windows_update_interactive]: success on return code 0.
    [script] is the PowerShell text built from the device name. *)
Definition install_via_windows_update_interactive (env : Env)
  (script : string -> string) (update : Update) (w : World) : bool * World :=
  let device_name := get (u_device_name update) "Unknown" in
  match subprocess_run (os env)
          (mkInvocation ["powershell"; "-Command"; script device_name] 600)
          (ran w) with
  | (Ret c, tr) => ((c =? 0)%Z, mkWorld (files w) tr)
  | (Raise _, tr) => (false, mkWorld (files w) tr)
  end.

(** [install_single_update_interactive]: the backup comes before the
    download here. *)
Definition install_single_update_interactive (env : Env)
  (script : string -> string) (update : Update) (w : World) : bool * World :=
  if negb (truthy (download_url update)) then (false, w)
  else if String.eqb (get (download_url update) "") "windows_update"
  then install_via_windows_update_interactive env script update w
  else if String.eqb (get (download_url update) "") "generic_update"
  then (false, w)
  else
    let w1 := backup_current_driver env update w in
    match download_driver_interactive update with
    | None => (false, w1)
    | Some driver_file =>
        let '(ok, tr) :=
          install_driver_file_interactive (os env) (unpack env) driver_file
            (ran w1) in
        (ok, mkWorld (files w1) tr)
    end.

(** The loop of [install_updates_thread] ([main.py]): the number of
    selected updates installed. *)
Fixpoint install_updates_thread (env : Env) (script : string -> string)
  (selected_updates : list Update) (success_count : nat) (w : World)
  : nat * World :=
  match selected_updates with
  | [] => (success_count, w)
  | update :: rest =>
      match install_single_update_interactive env script update w with
      | (true, w') =>
          install_updates_thread env script rest (S success_count) w'
      | (false, w') => install_updates_thread env script rest success_count w'
      end
  end.

(** The export [_backup_current_driver] asks for. *)
Definition backup_invocation (env : Env) (update : Update) : invocation :=
  mkInvocation
    ["pnputil"; "/export-driver"; "*";
     path_join (path_join (temp_dir env) "driver_backups")
       (sanitize_filename (get (u_device_name update) "Unknown"))]
    60.

(** An address that names a file to download: neither missing or empty
    nor one of the two reserved words. *)
Definition ordinary_url (update : Update) : bool :=
  truthy (download_url update)
  && negb (String.eqb (get (download_url update) "") "windows_update")
  && negb (String.eqb (get (download_url update) "") "generic_update").

(** ** Auxiliary notions used in the statements and proofs *)

(** The [Version] of a plain release: no epoch, no pre/post/dev/local. *)
Definition plain (l : list N) : Packaging.Version :=
  Packaging.mkVersion 0 l None None None None.

(** Records used as examples. *)
Definition microsoft_display : Driver :=
  mkDriver (Some "Microsoft Basic Display Adapter") (Some "Microsoft")
    None (Some "Unknown") (Some "ROOT\BASICDISPLAY\0000") (Some "").

Definition usb_hub (version : string) : Driver :=
  mkDriver (Some "Generic USB Hub") (Some "(Standard USB HUBs)")
    None (Some version) (Some "USB\ROOT_HUB30\4") (Some "").

(** The draws 0.05 and 0.01 of [random.random()]. *)
Definition draw_0_05 : spec_float := Float.of_decimal "0" "05".
Definition draw_0_01 : spec_float := Float.of_decimal "0" "01".

(** One pass over the characters: [f] applied to each. *)
Fixpoint map_chars (f : ascii -> ascii) (s : string) : string :=
  match s with
  | EmptyString => EmptyString
  | String c s' => String (f c) (map_chars f s')
  end.

(** What [_sanitize_filename] does to one character. *)
Definition sanitize_char (c : ascii) : ascii :=
  if existsb (Ascii.eqb c) invalid_chars then "_"%char else c.


(** [_remove_duplicates] without the accumulator: the records of [l] kept
    when the keys of [seen] were met before. *)
Fixpoint dedup_from (seen : gset (string * string)) (l : list Driver)
  : list Driver :=
  match l with
  | [] => []
  | d :: l' =>
      if decide (driver_key d ∈ seen) then dedup_from seen l'
      else d :: dedup_from ({[driver_key d]} ∪ seen) l'
  end.


(** An attempt that ends the cascade with success: return code 0, or 3010
    (reboot required). *)
Definition success_code (r : proc_result) : bool :=
  match r with
  | Exited c => (c =? 0)%Z || (c =? 3010)%Z
  | _ => false
  end.

(** An installer that never answers. *)
Definition hanging : oracle := fun _ _ => TimedOut.

(** The invocations [_install_zip_driver_interactive] makes for a walked
    tree: one per driver-information file, in walking order. *)
Definition inner_attempts (tree : list (string * list string))
  : list invocation :=
  flat_map (fun '(root, files) =>
              map (fun file => inf_attempt (path_join root file))
                  (filter (fun file => driver_information_file file = true)
                          files))
           tree.

(** The outcome recorded for the answer of one installation. *)
Definition outcome_of (r : exc bool) : item_outcome :=
  match r with
  | Ret true => Installed
  | Ret false => NotInstalled
  | Raise e => InstallError e
  end.

Definition is_installed (o : item_outcome) : bool :=
  match o with
  | Installed => true
  | _ => false
  end.

(** An archive with one good and one corrupt driver-information file, and
    an operating system that accepts the first only. *)
Definition sample_tree : list (string * list string) :=
  [("C:\scratch", ["good.inf"; "corrupt.inf"; "readme.txt"])].

Definition accepts_good_only : oracle :=
  fun _ cmd =>
    match argv cmd with
    | [_; _; file; _] =>
        if String.eqb file "C:\scratch\good.inf" then Exited 0 else Exited 1
    | _ => Exited 1
    end.

(** The outcomes of a batch without the accumulators: the items in input
    order, each with the outcome of its installation in the state the
    previous ones left. *)
Fixpoint batch_outcomes {W : Type}
  (install_single : Update -> W -> exc bool * W)
  (updates : list Update) (w : W) : list (Update * item_outcome) * W :=
  match updates with
  | [] => ([], w)
  | update :: rest =>
      let '(r, w') := install_single update w in
      let '(outs, w'') := batch_outcomes install_single rest w' in
      ((update, outcome_of r) :: outs, w'')
  end.

Definition count_installed (outs : list (Update * item_outcome)) : nat :=
  length (filter (fun o => is_installed (snd o) = true) outs).

(** An installer that records the items it is given and answers by
    [answer]. *)
Definition recording (answer : Update -> exc bool)
  : Update -> list Update -> exc bool * list Update :=
  fun update seen => (answer update, seen ++ [update]).

(** A candidate for the device [name] with a download location. *)
Definition sample_update (name : string) : Update :=
  mkUpdate (Some name) (Some "1.0.0.0") (Some "1.0.1.0")
    (Some ("https://example.invalid/" +:+ name +:+ ".exe")) (Some "10 MB")
    None (Some "Vendor") (Some "Available") None.

(** The installation of device "B" raises, the others succeed. *)
Definition b_raises (update : Update) : exc bool :=
  if String.eqb (get (u_device_name update) "") "B" then Raise OSError
  else Ret true.

(** "Within 10% of the expected size", in exact arithmetic. *)
Definition within_10_percent (file_size expected_bytes : Z) : bool :=
  (10 * Z.abs (file_size - expected_bytes) <=? expected_bytes)%Z.

(** The sizes the strategies announce. *)
Definition announced_sizes : list (string * Z) :=
  [("500 MB", 524288000); ("450 MB", 471859200); ("200 MB", 209715200);
   ("50 MB", 52428800); ("10 MB", 10485760); ("25 MB", 26214400)]%Z.


(** A file system with one file of the given size. *)
Definition one_file (path : string) (size : Z) : string -> option Z :=
  fun p => if String.eqb p path then Some size else None.

(** The number of records filed under the seven categories. *)
Definition total_categorized (categories : gmap string (list Driver)) : nat :=
  foldr Nat.add 0%nat
    (map (fun c => length (default [] (categories !! c))) category_names).

(** The invocation [create_restore_point] makes for the batch. *)
Definition batch_restore_point (env : Env) : invocation :=
  mkInvocation ["powershell"; "-Command";
                restore_point_script env "Driver Updater - Batch Installation"]
               120.

(** An installer that answers with the same return code every time. *)
Definition always_exits (code : Z) : oracle := fun _ _ => Exited code.

(** Where [_download_driver] stores the payload of an update. *)
Definition download_path (env : Env) (update : Update) : string :=
  path_join (temp_dir env) (generate_driver_filename update).


(** A float that is not below zero (a NaN is not). *)
Definition not_negative (f : spec_float) : Prop :=
  match f with
  | S754_finite true _ _ => False
  | S754_infinity true => False
  | _ => True
  end.

(** Four hexadecimal digits, in either case. *)
Definition hex_id (s : string) : bool :=
  (String.length s =? 4)%nat && all_chars (fun c => is_hex (Py.lower_char c)) s.

(** No character of [s] is a [v] or a [V]. *)
Definition no_v (s : string) : bool :=
  all_chars (fun c => negb (Ascii.eqb (Py.lower_char c) "v")) s.

(** No character of [s] separates the components of a path. *)
Definition no_separator (s : string) : bool :=
  all_chars (fun c => negb (is_path_sep c)) s.

(** The unit of a size is named in [s], in either case. *)
Definition names_unit (s : string) : bool :=
  Py.contains "kb" (Py.lower s) || Py.contains "mb" (Py.lower s)
  || Py.contains "gb" (Py.lower s).

(** A session in which every program ends with return code 0 and every
    download is 10 MB long. *)
Definition sample_env : Env :=
  mkEnv (always_exits 0) (fun _ => Some 10485760%Z) (fun _ => Raise OSError)
    "C:\Temp" (fun name => name) (fun description => description).

(** The address hands the update to Windows Update. *)
Definition via_windows_update (update : Update) : bool :=
  String.eqb (get (download_url update) "") "windows_update".

(** An installer that hangs with every silent flag and ends with return
    code 0 when it is run without flags. *)
Definition plain_run_succeeds : oracle :=
  fun _ cmd =>
    match argv cmd with
    | [_] => Exited 0
    | _ => TimedOut
    end.

(** [_install_single_update] as the loop of [install_updates] calls it. *)
Definition install_item (env : Env) : Update -> World -> exc bool * World :=
  fun update w =>
    let '(ok, w') := install_single_update env update w in (Ret ok, w').

(** A session in which every program ends with return code 0 and every
    download is 10 MB long, but the download of device "B" fails. *)
Definition b_unreachable : Env :=
  mkEnv (always_exits 0)
    (fun url =>
       if String.eqb url "https://example.invalid/B.exe" then None
       else Some 10485760%Z)
    (fun _ => Raise OSError)
    "C:\Temp" (fun name => name) (fun description => description).

(** * Properties *)

(** ** Sanity checks of the primitives *)

Example py_int_examples :
  Py.int "10" = Ret 10%Z /\ Py.int " -7 " = Ret (-7)%Z /\
  Py.int "1_000" = Ret 1000%Z /\ Py.int "abc" = Raise ValueError /\
  Py.int "" = Raise ValueError /\ Py.int "1__0" = Raise ValueError /\
  Py.int "0a1" = Raise ValueError /\
  Py.int (String (ascii_of_N 160) "5") = Ret 5%Z /\
  Py.int (String (ascii_of_N 28) "5") = Raise ValueError /\
  Py.int ("5" +:+ String (ascii_of_N 31) "") = Raise ValueError.
Proof. repeat split; reflexivity. Qed.

Example py_split_examples :
  Py.split_on "." "1.2.0" = ["1"; "2"; "0"] /\
  Py.split_on "." "abc" = ["abc"] /\
  Py.split_on "." "" = [""] /\
  Py.split_on "." "1..2." = ["1"; ""; "2"; ""].
Proof. repeat split; reflexivity. Qed.

Example py_str_examples :
  Py.str_Z 0 = "0" /\ Py.str_Z 1024 = "1024" /\ Py.str_Z (-35) = "-35" /\
  Py.strip "  a b  " = "a b" /\ Py.lower "NVIDIA GeForce" = "nvidia geforce".
Proof. repeat split; reflexivity. Qed.

Example packaging_parse_examples :
  Packaging.parse "1.2.0" = Ret (Packaging.mkVersion 0 [1; 2; 0]%N None None None None) /\
  Packaging.parse " v2!1.0rc1.post2.dev3+Ab.7 " =
    Ret (Packaging.mkVersion 2 [1; 0]%N (Some (Packaging.PRC, 1%N)) (Some 2%N)
           (Some 3%N) (Some [Packaging.LStr "ab"; Packaging.LNum 7])) /\
  Packaging.parse "1.0-1" = Ret (Packaging.mkVersion 0 [1; 0]%N None (Some 1%N) None None) /\
  Packaging.parse "1.0preview" =
    Ret (Packaging.mkVersion 0 [1; 0]%N (Some (Packaging.PRC, 0%N)) None None None) /\
  Packaging.parse "1.0a.dev1" =
    Ret (Packaging.mkVersion 0 [1; 0]%N (Some (Packaging.PA, 0%N)) None (Some 1%N) None) /\
  Packaging.parse "abc" = Raise InvalidVersion /\
  Packaging.parse "Unknown" = Raise InvalidVersion /\
  Packaging.parse "1.-1" = Raise InvalidVersion /\
  Packaging.parse "1_0" = Raise InvalidVersion /\
  Packaging.parse "1..2" = Raise InvalidVersion /\
  Packaging.parse "1.2." = Raise InvalidVersion /\
  Packaging.parse "" = Raise InvalidVersion.
Proof. repeat split; reflexivity. Qed.

Example is_version_newer_examples :
  is_version_newer "1.2" "1.2.0" = false /\
  is_version_newer "1.2.0" "1.2" = false /\
  is_version_newer "2.0.0.0" "1.9.9.9" = true /\
  is_version_newer "1.9.9.9" "2.0.0.0" = false /\
  is_version_newer "1.10" "1.9" = true /\
  is_version_newer "abc" "1.0" = false /\
  is_version_newer "1.0" "abc" = false /\
  is_version_newer "1.0.post1" "1.0" = true /\
  is_version_newer "1.0rc1" "1.0" = false /\
  is_version_newer "1.-1" "1.-2" = true /\
  is_version_newer "1_0" "9" = true.
Proof. repeat split; reflexivity. Qed.

Example generate_mock_version_examples :
  generate_mock_version "1.2" = "1.2.1.0" /\
  generate_mock_version "30.0.15.1179" = "30.0.16.1179" /\
  generate_mock_version "1.2.3.4.5" = "1.2.4.4" /\
  generate_mock_version "Unknown" = "1.0.0.1" /\
  generate_mock_version "5" = "1.0.0.1" /\
  generate_mock_version "1.x" = "1.0.0.1" /\
  generate_mock_version (String (ascii_of_N 28) "1.2") = "1.0.0.1" /\
  generate_mock_version " 1.2" = "1.2.1.0".
Proof. repeat split; reflexivity. Qed.

Example extract_nvidia_gpu_series_examples :
  extract_nvidia_gpu_series "nvidia geforce rtx 3080 ti" = Some "geforce rtx 3080" /\
  extract_nvidia_gpu_series "nvidia geforce 210" = None /\
  extract_nvidia_gpu_series "nvidia quadro p400" = Some "quadro p400".
Proof. repeat split; reflexivity. Qed.

Example float_examples :
  Float.lit_0_1 = S754_finite false 7205759403792794 (-56) /\
  Float.of_decimal "1" "5" = S754_finite false 6755399441055744 (-52) /\
  Float.of_Z 524288000 = Ret (S754_finite false 8796093022208000 (-24)) /\
  Float.to_Z (Float.of_decimal "102" "4") = Ret 102%Z.
Proof. repeat split; vm_compute; reflexivity. Qed.

Example parse_size_string_examples :
  parse_size_string "500 MB" = Some 524288000%Z /\
  parse_size_string "1.5 gb" = Some 1610612736%Z /\
  parse_size_string "about 12.kb or 3 kb" = Some 3072%Z /\
  parse_size_string "0 MB" = Some 0%Z /\
  parse_size_string "500 TB" = None /\
  parse_size_string "" = None.
Proof. repeat split; vm_compute; reflexivity. Qed.

Example exceeds_tolerance_examples :
  exceeds_tolerance 471859200 524288000 = Ret false /\
  exceeds_tolerance 471859199 524288000 = Ret true /\
  exceeds_tolerance 576716800 524288000 = Ret false /\
  exceeds_tolerance 576716801 524288000 = Ret true.
Proof. repeat split; vm_compute; reflexivity. Qed.

Example sanitize_filename_examples :
  sanitize_filename "  a<b>:c/d\e|f?g*h  " = "a_b__c_d_e_f_g_h" /\
  sanitize_filename "NVIDIA GeForce RTX 3080" = "NVIDIA GeForce RTX 3080" /\
  String.length
    (sanitize_filename
       "0123456789012345678901234567890123456789012345678 xyz") = 49%nat.
Proof. repeat split; reflexivity. Qed.

Example splitext_examples :
  splitext_ext "C:\tmp\NVIDIA_card_1.0.1.0.exe" = ".exe" /\
  splitext_ext "C:\tmp.d\setup" = "" /\
  splitext_ext "C:\tmp\.hidden" = "" /\
  splitext_ext "driver.ZIP" = ".ZIP".
Proof. repeat split; reflexivity. Qed.

Example remove_duplicates_example :
  remove_duplicates [usb_hub "1.0"; microsoft_display; usb_hub "2.0"] =
  [usb_hub "1.0"; microsoft_display].
Proof. vm_compute. reflexivity. Qed.

(** ** Strings *)

Section StringFacts.

Lemma all_chars_impl (p q : ascii -> bool) (s : string) :
  (forall c, p c = true -> q c = true) ->
  all_chars p s = true -> all_chars q s = true.
Proof.
  intros Hpq. induction s as [|c s IH]; simpl; [reflexivity|].
  rewrite !andb_true_iff. intros [Hc Hs]. split; auto.
Qed.

Lemma split_on_absent (sep : ascii) (s : string) :
  all_chars (fun c => negb (Ascii.eqb c sep)) s = true ->
  Py.split_on sep s = [s].
Proof.
  induction s as [|c s IH]; simpl; [reflexivity|].
  rewrite andb_true_iff, negb_true_iff. intros [Hc Hs].
  rewrite Hc, (IH Hs). reflexivity.
Qed.

Lemma rstrip_id (s : string) (c : ascii) :
  last_char s = Some c -> Py.is_space c = false -> Py.rstrip s = s.
Proof.
  induction s as [|a s IH]; simpl; [discriminate|].
  destruct s as [|b s'].
  - intros [= ->] Hc. simpl. now rewrite Hc.
  - intros Hl Hc. rewrite (IH Hl Hc). reflexivity.
Qed.

Lemma lstrip_id (s : string) (c : ascii) :
  first_char s = Some c -> Py.is_space c = false -> Py.lstrip s = s.
Proof.
  destruct s as [|a s]; simpl; [discriminate|].
  intros [= ->] Hc. now rewrite Hc.
Qed.

Lemma last_char_cons (a : ascii) (s : string) (c : ascii) :
  last_char s = Some c -> last_char (String a s) = Some c.
Proof. destruct s; simpl; [discriminate|auto]. Qed.

Lemma digit_not_space (c : ascii) :
  Py.is_digit c = true -> Py.is_space c = false.
Proof.
  unfold Py.is_digit, Py.is_space. generalize (Py.code c). intros n.
  rewrite andb_true_iff, !N.leb_le. intros [H1 H2].
  repeat match goal with
         | |- context [(?a <=? ?b)%N] => destruct (N.leb_spec a b)
         | |- context [(?a =? ?b)%N] => destruct (N.eqb_spec a b)
         end; simpl; try reflexivity; lia.
Qed.

Lemma release_char_cases (c : ascii) :
  Packaging.is_release_char c = true -> Py.is_digit c = true \/ c = "."%char.
Proof.
  unfold Packaging.is_release_char. rewrite orb_true_iff.
  intros [H|H]; [now left|right]. now apply Ascii.eqb_eq.
Qed.

Lemma digit_lower (c : ascii) : Py.is_digit c = true -> Py.lower_char c = c.
Proof.
  unfold Py.is_digit, Py.lower_char. generalize (Py.code c) at 1 2 3 4 5 6 7 8.
  intros n. rewrite andb_true_iff, !N.leb_le. intros [H1 H2].
  repeat match goal with
         | |- context [(?a <=? ?b)%N] => destruct (N.leb_spec a b)
         | |- context [(?a =? ?b)%N] => destruct (N.eqb_spec a b)
         end; simpl; try reflexivity; lia.
Qed.

Lemma release_chars_lower (s : string) :
  all_chars Packaging.is_release_char s = true -> Py.lower s = s.
Proof.
  induction s as [|c s IH]; simpl; [reflexivity|].
  rewrite andb_true_iff. intros [Hc Hs]. rewrite (IH Hs). f_equal.
  destruct (release_char_cases c Hc) as [H| ->];
    [now apply digit_lower|reflexivity].
Qed.

End StringFacts.

(** ** Plain dotted strings are PEP 440 releases *)

Section DottedStrings.

Lemma span_all (p : ascii -> bool) (s : string) :
  all_chars p s = true -> Packaging.span p s = (s, EmptyString).
Proof.
  induction s as [|c s IH]; simpl; [reflexivity|].
  rewrite andb_true_iff. intros [Hc Hs]. now rewrite Hc, (IH Hs).
Qed.

Lemma ends_with_dot_digit (s : string) (c : ascii) :
  last_char s = Some c -> Py.is_digit c = true ->
  Packaging.ends_with_dot s = false.
Proof.
  induction s as [|a s IH]; simpl; [discriminate|].
  destruct s as [|b s'].
  - intros [= ->] Hc. apply Ascii.eqb_neq. intros ->. discriminate.
  - intros Hl Hc. now apply IH.
Qed.

(** The shape of a string whose head token is made of digits and whose
    other tokens are non-empty runs of digits. *)
Lemma tokens_shape (s : string) :
  match Py.split_on "." s with
  | t :: ts =>
      Py.all_digits t = true ->
      forallb Packaging.nonempty_digits ts = true ->
      all_chars Packaging.is_release_char s = true /\
      (s <> EmptyString ->
       exists c, last_char s = Some c /\ Py.is_digit c = true)
  | [] => False
  end.
Proof.
  induction s as [|a s IH]; simpl.
  - intros _ _. split; [reflexivity|]. now intros [].
  - destruct (Ascii.eqb_spec a ".") as [->|Ha].
    + intros _ Hts. destruct (Py.split_on "." s) as [|t ts] eqn:E; [easy|].
      simpl in Hts. apply andb_true_iff in Hts as [Ht Hts].
      unfold Packaging.nonempty_digits in Ht.
      apply andb_true_iff in Ht as [Hne Ht].
      destruct (IH Ht Hts) as [Hall Hlast].
      split; [exact Hall|]. intros _.
      assert (Hs : s <> EmptyString).
      { intros ->. simpl in E. injection E as <- <-. discriminate. }
      destruct (Hlast Hs) as (c & Hc & Hd).
      exists c. split; [now apply last_char_cons|exact Hd].
    + destruct (Py.split_on "." s) as [|t ts] eqn:E; [easy|].
      simpl. rewrite andb_true_iff. intros [Hd Ht] Hts.
      destruct (IH Ht Hts) as [Hall Hlast].
      split.
      * unfold Packaging.is_release_char at 1. now rewrite Hd, Hall.
      * intros _. destruct s as [|b s'].
        -- exists a. now split.
        -- destruct Hlast as (c & Hc & Hdc); [discriminate|].
           exists c. split; [exact Hc|exact Hdc].
Qed.

Lemma dotted_shape (s : string) (l : list N) :
  dotted s = Some l ->
  all_chars Packaging.is_release_char s = true /\
  (exists c, first_char s = Some c /\ Py.is_digit c = true) /\
  (exists c, last_char s = Some c /\ Py.is_digit c = true).
Proof.
  unfold dotted, Packaging.release_segment. intros H.
  destruct (forallb Packaging.nonempty_digits (Py.split_on "." s)) eqn:F;
    [|discriminate].
  pose proof (tokens_shape s) as T.
  destruct (Py.split_on "." s) as [|t ts] eqn:E; [easy|].
  simpl in F. apply andb_true_iff in F as [Ht Hts].
  unfold Packaging.nonempty_digits in Ht.
  apply andb_true_iff in Ht as [Hne Ht].
  destruct (T Ht Hts) as [Hall Hlast].
  destruct s as [|a s'].
  { simpl in E. injection E as <- <-. discriminate. }
  split; [exact Hall|]. split; [|now apply Hlast].
  exists a. split; [reflexivity|].
  simpl in E. destruct (Ascii.eqb a ".").
  - injection E as <- <-. discriminate.
  - destruct (Py.split_on "." s'); injection E as <- <-;
      simpl in Ht; now apply andb_true_iff in Ht as [? _].
Qed.

Lemma digit_not_v (c : ascii) (r : string) :
  Py.is_digit c = true ->
  match String c r with
  | String "v" r' => r'
  | _ => String c r
  end = String c r.
Proof.
  destruct c as [[] [] [] [] [] [] [] []]; try reflexivity; discriminate.
Qed.

Lemma release_char_not (sep : ascii) (s : string) :
  Packaging.is_release_char sep = false ->
  all_chars Packaging.is_release_char s = true ->
  all_chars (fun c => negb (Ascii.eqb c sep)) s = true.
Proof.
  intros Hsep. apply all_chars_impl. intros c Hc.
  apply negb_true_iff, Ascii.eqb_neq. intros ->. congruence.
Qed.

(** [version.parse] accepts every valid dotted string and reads it as the
    plain release made of its components. *)
Lemma parse_dotted (s : string) (l : list N) :
  dotted s = Some l -> Packaging.parse s = Ret (plain l).
Proof.
  intros H. destruct (dotted_shape s l H) as (Hall & (a & Ha & Hda) & (z & Hz & Hdz)).
  unfold Packaging.parse, Py.strip.
  rewrite (lstrip_id s a Ha (digit_not_space a Hda)).
  rewrite (rstrip_id s z Hz (digit_not_space z Hdz)).
  rewrite (release_chars_lower s Hall).
  destruct s as [|c r]; [discriminate|]. injection Ha as ->.
  rewrite (digit_not_v a r Hda).
  rewrite (split_on_absent "+" (String a r));
    [|now apply release_char_not].
  unfold Packaging.parse_public.
  rewrite (split_on_absent "!" (String a r));
    [|now apply release_char_not].
  unfold Packaging.split_release.
  rewrite (span_all _ _ Hall), (ends_with_dot_digit _ _ Hz Hdz).
  unfold dotted in H. rewrite H. reflexivity.
Qed.

End DottedStrings.

(** ** The ordering of releases *)

Section ReleaseOrder.

Lemma cmp_seq_antisym (l1 l2 : list N) :
  Py.cmp_seq N.compare l1 l2 = CompOpp (Py.cmp_seq N.compare l2 l1).
Proof.
  revert l2. induction l1 as [|x l1 IH]; intros [|y l2]; simpl; try reflexivity.
  rewrite (N.compare_antisym y x).
  destruct (y ?= x)%N; simpl; [apply IH|reflexivity|reflexivity].
Qed.

Lemma cmp_seq_eq (l1 l2 : list N) :
  Py.cmp_seq N.compare l1 l2 = Eq <-> l1 = l2.
Proof.
  revert l2. induction l1 as [|x l1 IH]; intros [|y l2]; simpl;
    try (split; [discriminate|discriminate]); [tauto|].
  destruct (x ?= y)%N eqn:E.
  - apply N.compare_eq_iff in E as ->. rewrite IH.
    split; [now intros ->|now intros [= ->]].
  - split; [discriminate|]. intros [= -> _].
    rewrite N.compare_refl in E. discriminate.
  - split; [discriminate|]. intros [= -> _].
    rewrite N.compare_refl in E. discriminate.
Qed.

Lemma cmp_seq_gt_trans (l1 l2 l3 : list N) :
  Py.cmp_seq N.compare l1 l2 = Gt ->
  Py.cmp_seq N.compare l2 l3 = Gt ->
  Py.cmp_seq N.compare l1 l3 = Gt.
Proof.
  revert l2 l3.
  induction l1 as [|x l1 IH]; intros [|y l2] [|z l3]; simpl;
    try discriminate; try reflexivity.
  destruct (x ?= y)%N eqn:Exy; try discriminate;
    destruct (y ?= z)%N eqn:Eyz; try discriminate; intros H1 H2.
  - apply N.compare_eq_iff in Exy as ->. apply N.compare_eq_iff in Eyz as ->.
    rewrite N.compare_refl. now apply (IH l2).
  - apply N.compare_eq_iff in Exy as ->. now rewrite Eyz.
  - apply N.compare_eq_iff in Eyz as ->. now rewrite Exy.
  - apply N.compare_gt_iff in Exy, Eyz.
    assert (E : (x ?= z)%N = Gt) by (apply N.compare_gt_iff; lia).
    now rewrite E.
Qed.

Lemma strip_trailing_zeros_cons (x : N) (l : list N) :
  Packaging.strip_trailing_zeros (x :: l) =
  if (x =? 0)%N && match Packaging.strip_trailing_zeros l with
                   | [] => true
                   | _ => false
                   end
  then [] else x :: Packaging.strip_trailing_zeros l.
Proof.
  simpl. destruct (Packaging.strip_trailing_zeros l); simpl;
    destruct (x =? 0)%N; reflexivity.
Qed.

(** Stripping trailing zeros commutes with a comparison of the heads. *)
Lemma cmp_stripped_cons (x y : N) (l1 l2 : list N) :
  Py.cmp_seq N.compare (Packaging.strip_trailing_zeros (x :: l1))
                       (Packaging.strip_trailing_zeros (y :: l2)) =
  Packaging.lex (x ?= y)%N
    (Py.cmp_seq N.compare (Packaging.strip_trailing_zeros l1)
                          (Packaging.strip_trailing_zeros l2)).
Proof.
  rewrite !strip_trailing_zeros_cons.
  destruct (N.eqb_spec x 0) as [->|Hx], (N.eqb_spec y 0) as [->|Hy];
    destruct (Packaging.strip_trailing_zeros l1) as [|a r1];
    destruct (Packaging.strip_trailing_zeros l2) as [|b r2];
    simpl; try reflexivity;
    try (destruct y; [contradiction|reflexivity]);
    try (destruct x; [contradiction|reflexivity]);
    try rewrite N.compare_refl; try reflexivity.
  all: destruct (x ?= y)%N eqn:E; simpl; try reflexivity.
Qed.

Lemma cmp_stripped_nil_l (l : list N) (k : nat) :
  Py.cmp_seq N.compare [] (Packaging.strip_trailing_zeros l) =
  Py.cmp_seq N.compare (repeat 0%N (length l + k)) (l ++ repeat 0%N k).
Proof.
  induction l as [|y l IH].
  - simpl. induction k as [|k IHk]; simpl; [reflexivity|exact IHk].
  - rewrite strip_trailing_zeros_cons. simpl.
    destruct (N.eqb_spec y 0) as [->|Hy]; simpl.
    + rewrite <- IH. now destruct (Packaging.strip_trailing_zeros l).
    + destruct y; [contradiction|reflexivity].
Qed.

Lemma cmp_stripped_nil_r (l : list N) (k : nat) :
  Py.cmp_seq N.compare (Packaging.strip_trailing_zeros l) [] =
  Py.cmp_seq N.compare (l ++ repeat 0%N k) (repeat 0%N (length l + k)).
Proof.
  rewrite cmp_seq_antisym, (cmp_stripped_nil_l l k).
  now rewrite <- cmp_seq_antisym.
Qed.

Lemma cmp_stripped_padded (l1 l2 : list N) (k1 k2 : nat) :
  length l1 + k1 = length l2 + k2 ->
  Py.cmp_seq N.compare (Packaging.strip_trailing_zeros l1)
                       (Packaging.strip_trailing_zeros l2) =
  Py.cmp_seq N.compare (l1 ++ repeat 0%N k1) (l2 ++ repeat 0%N k2).
Proof.
  revert l2. induction l1 as [|x l1 IH]; intros l2 Hlen.
  - simpl in Hlen. subst k1. apply (cmp_stripped_nil_l l2 k2).
  - destruct l2 as [|y l2].
    + simpl in Hlen. subst k2. apply (cmp_stripped_nil_r (x :: l1) k1).
    + rewrite cmp_stripped_cons. simpl in Hlen |- *.
      rewrite (IH l2) by lia. unfold Packaging.lex.
      now destruct (x ?= y)%N.
Qed.

(** Comparing releases after stripping trailing zeros is comparing them
    component-wise with missing components read as zero. *)
Lemma cmp_stripped_components (l1 l2 : list N) :
  Py.cmp_seq N.compare (Packaging.strip_trailing_zeros l1)
                       (Packaging.strip_trailing_zeros l2) =
  cmp_components l1 l2.
Proof.
  unfold cmp_components, pad. apply cmp_stripped_padded. lia.
Qed.

Lemma compare_plain (l1 l2 : list N) :
  Packaging.compare (plain l1) (plain l2) = cmp_components l1 l2.
Proof.
  unfold Packaging.compare. simpl.
  rewrite cmp_stripped_components. now destruct (cmp_components l1 l2).
Qed.

(** On valid dotted strings the first attempt of [_is_version_newer]
    succeeds and decides by the component-wise comparison. *)
Lemma is_version_newer_dotted (a b : string) (la lb : list N) :
  dotted a = Some la -> dotted b = Some lb ->
  is_version_newer_exc a b =
  Ret (match cmp_components la lb with Gt => true | _ => false end).
Proof.
  intros Ha Hb. unfold is_version_newer_exc, newer_by_version.
  rewrite (parse_dotted a la Ha), (parse_dotted b lb Hb). simpl.
  unfold Packaging.gt. now rewrite compare_plain.
Qed.

End ReleaseOrder.

(** ** The version comparator *)

Section Comparator.

Lemma cmp_components_antisym (l1 l2 : list N) :
  cmp_components l1 l2 = CompOpp (cmp_components l2 l1).
Proof. rewrite <- !cmp_stripped_components. apply cmp_seq_antisym. Qed.

Lemma is_version_newer_total (a b : string) :
  exists r, is_version_newer_exc a b = Ret r.
Proof.
  unfold is_version_newer_exc, try_except.
  destruct (newer_by_version a b) as [r|e]; [now exists r|].
  destruct (newer_by_int_parts a b) as [r|e']; [now exists r|now exists false].
Qed.

Lemma compare_dotted (a b : string) (la lb : list N) :
  dotted a = Some la -> dotted b = Some lb ->
  compare a b = of_comparison (cmp_components la lb).
Proof.
  intros Ha Hb. unfold compare, is_version_newer.
  rewrite (is_version_newer_dotted a b la lb Ha Hb).
  rewrite (is_version_newer_dotted b a lb la Hb Ha).
  rewrite (cmp_components_antisym lb la).
  now destruct (cmp_components la lb).
Qed.

Lemma cmp_components_gt_trans (l1 l2 l3 : list N) :
  cmp_components l1 l2 = Gt -> cmp_components l2 l3 = Gt ->
  cmp_components l1 l3 = Gt.
Proof. rewrite <- !cmp_stripped_components. apply cmp_seq_gt_trans. Qed.

Lemma cmp_components_eq_trans (l1 l2 l3 : list N) :
  cmp_components l1 l2 = Eq -> cmp_components l2 l3 = Eq ->
  cmp_components l1 l3 = Eq.
Proof.
  rewrite <- !cmp_stripped_components, !cmp_seq_eq. congruence.
Qed.

Lemma of_comparison_inj (c d : comparison) :
  of_comparison c = of_comparison d -> c = d.
Proof. destruct c, d; simpl; congruence. Qed.

(** C3.  On strings that are dot-separated sequences of non-negative
    integers the comparator compares component-wise in order, a missing
    trailing component counting as zero; ["1.2"] equals ["1.2.0"] (neither
    is newer) and ["2.0.0.0"] is greater than ["1.9.9.9"]. *)
Theorem compare_componentwise :
  (forall (a b : string) (la lb : list N),
      dotted a = Some la -> dotted b = Some lb ->
      compare a b = of_comparison (cmp_components la lb) /\
      (is_version_newer a b = true <-> cmp_components la lb = Gt)) /\
  compare "1.2" "1.2.0" = EQUAL /\
  is_version_newer "1.2" "1.2.0" = false /\
  is_version_newer "1.2.0" "1.2" = false /\
  compare "2.0.0.0" "1.9.9.9" = GREATER /\
  is_version_newer "2.0.0.0" "1.9.9.9" = true.
Proof.
  split; [|repeat split; reflexivity].
  intros a b la lb Ha Hb. split; [now apply compare_dotted|].
  unfold is_version_newer. rewrite (is_version_newer_dotted a b la lb Ha Hb).
  destruct (cmp_components la lb); split; congruence.
Qed.

Lemma compare_componentwise_witness :
  dotted "1.2" = Some [1; 2]%N /\ dotted "1.2.0" = Some [1; 2; 0]%N /\
  compare "1.2" "1.2.0" = of_comparison (cmp_components [1; 2]%N [1; 2; 0]%N) /\
  cmp_components [1; 2]%N [1; 2; 0]%N = Eq.
Proof.
  split; [reflexivity|]. split; [reflexivity|]. split; [|reflexivity].
  apply (proj1 compare_componentwise "1.2" "1.2.0" [1; 2]%N [1; 2; 0]%N);
    reflexivity.
Defined.

(** C4.  On valid dotted version strings the comparator is antisymmetric
    ([compare a b] is GREATER exactly when [compare b a] is LESS, and [a]
    newer than [b] excludes [b] newer than [a]) and transitive. *)
Theorem compare_antisym_trans (a b : string) (la lb : list N) :
  dotted a = Some la -> dotted b = Some lb ->
  (compare a b = GREATER <-> compare b a = LESS) /\
  (is_version_newer a b = true -> is_version_newer b a = false) /\
  (is_version_newer b a = true -> is_version_newer a b = false) /\
  forall (c : string) (lc : list N), dotted c = Some lc ->
    (compare a b = GREATER -> compare b c = GREATER -> compare a c = GREATER) /\
    (compare a b = LESS -> compare b c = LESS -> compare a c = LESS) /\
    (compare a b = EQUAL -> compare b c = EQUAL -> compare a c = EQUAL) /\
    (is_version_newer a b = true -> is_version_newer b c = true ->
     is_version_newer a c = true).
Proof.
  intros Ha Hb.
  assert (Hnew : forall x y lx ly, dotted x = Some lx -> dotted y = Some ly ->
            is_version_newer x y =
            match cmp_components lx ly with Gt => true | _ => false end).
  { intros x y lx ly Hx Hy. unfold is_version_newer.
    now rewrite (is_version_newer_dotted x y lx ly Hx Hy). }
  rewrite (compare_dotted a b la lb Ha Hb), (compare_dotted b a lb la Hb Ha).
  rewrite (Hnew a b la lb Ha Hb), (Hnew b a lb la Hb Ha).
  rewrite (cmp_components_antisym lb la).
  split; [|split; [|split]].
  - destruct (cmp_components la lb); simpl; split; congruence.
  - destruct (cmp_components la lb); simpl; congruence.
  - destruct (cmp_components la lb); simpl; congruence.
  - intros c lc Hc.
    rewrite (compare_dotted b c lb lc Hb Hc), (compare_dotted a c la lc Ha Hc).
    rewrite (Hnew b c lb lc Hb Hc), (Hnew a c la lc Ha Hc).
    split; [|split; [|split]].
    + intros H1 H2. apply (of_comparison_inj _ Gt) in H1, H2.
      now rewrite (cmp_components_gt_trans la lb lc H1 H2).
    + intros H1 H2. apply (of_comparison_inj _ Lt) in H1, H2.
      rewrite (cmp_components_antisym la lc).
      rewrite (cmp_components_gt_trans lc lb la); [reflexivity| |].
      * rewrite (cmp_components_antisym lc lb), H2. reflexivity.
      * rewrite (cmp_components_antisym lb la), H1. reflexivity.
    + intros H1 H2. apply (of_comparison_inj _ Eq) in H1, H2.
      now rewrite (cmp_components_eq_trans la lb lc H1 H2).
    + destruct (cmp_components la lb) eqn:E1; try discriminate.
      destruct (cmp_components lb lc) eqn:E2; try discriminate.
      now rewrite (cmp_components_gt_trans la lb lc E1 E2).
Qed.

Lemma compare_antisym_trans_witness :
  dotted "2.0.0.0" = Some [2; 0; 0; 0]%N /\
  dotted "1.9.9.9" = Some [1; 9; 9; 9]%N /\
  (compare "2.0.0.0" "1.9.9.9" = GREATER <-> compare "1.9.9.9" "2.0.0.0" = LESS).
Proof.
  split; [reflexivity|]. split; [reflexivity|].
  apply (compare_antisym_trans "2.0.0.0" "1.9.9.9" [2; 0; 0; 0]%N [1; 9; 9; 9]%N);
    reflexivity.
Defined.

End Comparator.

Section ComparatorFallback.

Lemma newer_by_version_raises (a b : string) :
  (exists e, Packaging.parse a = Raise e) \/
  (exists e, Packaging.parse b = Raise e) ->
  exists e, newer_by_version a b = Raise e.
Proof.
  unfold newer_by_version. intros [[e H]|[e H]].
  - rewrite H. now exists e.
  - rewrite H. destruct (Packaging.parse a) as [v|e']; simpl; eauto.
Qed.

(** The specification's fallback, comparing the tokens as strings, orders
    ["1.-1"] before ["1.-2"]; the comparator, which reads the tokens as the
    integers -1 and -2, reports ["1.-1"] as the newer one. *)
Lemma fallback_is_not_string_comparison :
  Packaging.parse "1.-1" = Raise InvalidVersion /\
  Packaging.parse "1.-2" = Raise InvalidVersion /\
  cmp_tokens_as_strings "1.-1" "1.-2" = Lt /\
  is_version_newer "1.-1" "1.-2" = true /\
  compare "1.-1" "1.-2" = GREATER.
Proof. repeat split; reflexivity. Qed.

(** C2 (amended).  The comparator is total: it returns for every pair of
    strings.  When either string is not a PEP 440 version it falls back to
    the dot-separated tokens read as integers, the shorter list padded with
    zeros; when a token is not an integer the answer is "not newer".  So
    [compare "abc" "1.0"] is EQUAL. *)
Theorem is_version_newer_total_fallback :
  (forall a b : string, exists r, is_version_newer_exc a b = Ret r) /\
  (forall a b : string,
      (exists e, Packaging.parse a = Raise e) \/
      (exists e, Packaging.parse b = Raise e) ->
      (forall la lb,
          mapM Py.int (Py.split_on "." a) = Ret la ->
          mapM Py.int (Py.split_on "." b) = Ret lb ->
          let n := Nat.max (length la) (length lb) in
          is_version_newer a b =
          match Py.cmp_seq Z.compare (la ++ repeat 0%Z (n - length la))
                                     (lb ++ repeat 0%Z (n - length lb)) with
          | Gt => true
          | _ => false
          end) /\
      ((exists e, mapM Py.int (Py.split_on "." a) = Raise e) \/
       (exists e, mapM Py.int (Py.split_on "." b) = Raise e) ->
       is_version_newer a b = false /\ is_version_newer b a = false /\
       compare a b = EQUAL)) /\
  compare "abc" "1.0" = EQUAL /\
  is_version_newer "abc" "1.0" = false /\
  is_version_newer "1.0" "abc" = false.
Proof.
  split; [exact is_version_newer_total|].
  split; [|repeat split; reflexivity].
  intros a b Hparse.
  assert (Hsym : (exists e, Packaging.parse b = Raise e) \/
                 (exists e, Packaging.parse a = Raise e)) by tauto.
  destruct (newer_by_version_raises a b Hparse) as [e He].
  destruct (newer_by_version_raises b a Hsym) as [e' He'].
  split.
  - intros la lb Ha Hb. unfold is_version_newer, is_version_newer_exc.
    rewrite He. simpl. unfold newer_by_int_parts. rewrite Ha, Hb. reflexivity.
  - intros Hint.
    assert (Hab : is_version_newer a b = false).
    { unfold is_version_newer, is_version_newer_exc. rewrite He. simpl.
      unfold newer_by_int_parts.
      destruct Hint as [[x Hx]|[x Hx]]; rewrite Hx; simpl; [reflexivity|].
      now destruct (mapM Py.int (Py.split_on "." a)). }
    assert (Hba : is_version_newer b a = false).
    { unfold is_version_newer, is_version_newer_exc. rewrite He'. simpl.
      unfold newer_by_int_parts.
      destruct Hint as [[x Hx]|[x Hx]]; rewrite Hx; simpl; [|reflexivity].
      now destruct (mapM Py.int (Py.split_on "." b)). }
    unfold compare. now rewrite Hab, Hba.
Qed.

Lemma is_version_newer_total_fallback_witness :
  is_version_newer "1.-1" "1.-2" = true /\
  is_version_newer "abc" "1.0" = false.
Proof.
  split.
  - apply (proj1 (proj1 (proj2 is_version_newer_total_fallback) "1.-1" "1.-2"
                    (or_introl (ex_intro _ InvalidVersion eq_refl)))
             [1; -1]%Z [1; -2]%Z eq_refl eq_refl).
  - apply (proj2 (proj1 (proj2 is_version_newer_total_fallback) "abc" "1.0"
                    (or_introl (ex_intro _ InvalidVersion eq_refl)))
             (or_introl (ex_intro _ ValueError eq_refl))).
Defined.

End ComparatorFallback.

(** ** Update resolution *)

Section UpdateResolver.

Lemma candidate_newer_built (driver : Driver)
  (current new url size notes mfg ty : string) :
  candidate_newer (candidate driver current new url size notes mfg ty) =
  is_version_newer new current.
Proof. reflexivity. Qed.

(** The four vendor strategies test [_is_version_newer] before they build
    a candidate. *)
Lemma guarded_strategies_newer (driver : Driver) (u : Update) :
  check_nvidia_updates driver = Some u \/
  check_amd_updates driver = Some u \/
  check_intel_updates driver = Some u \/
  check_realtek_updates driver = Some u ->
  candidate_newer u = true.
Proof.
  unfold check_nvidia_updates, check_amd_updates, check_intel_updates,
    check_realtek_updates.
  intros [H|[H|[H|H]]];
    repeat match type of H with
           | (if ?c then _ else _) = Some _ => destruct c eqn:?; try discriminate
           | match ?c with Some _ => _ | None => _ end = Some _ =>
               destruct c eqn:?; try discriminate
           end;
    injection H as <-; rewrite candidate_newer_built; assumption.
Qed.

(** The two strategies that draw a random number build the candidate
    without the test: it carries whatever [_generate_mock_version]
    returned. *)
Lemma unguarded_strategies (driver : Driver) (rnd : spec_float) (u : Update) :
  check_microsoft_updates driver rnd = Some u \/
  check_generic_updates driver rnd = Some u ->
  new_version u =
  Some (generate_mock_version (get (version driver) "0.0.0.0")) /\
  current_version u = Some (get (version driver) "0.0.0.0").
Proof.
  unfold check_microsoft_updates, check_generic_updates.
  intros [H|H];
    match type of H with
    | (if ?c then _ else _) = Some _ => destruct c; try discriminate
    end; injection H as <-; split; reflexivity.
Qed.

(** C1 (the code at the failing inputs).  For a Microsoft device whose
    version is "Unknown" and a draw of 0.05, the resolver returns a
    candidate whose new version "1.0.0.1" is not newer than its current
    version; so does the generic strategy for a version "5" and a draw of
    0.01. *)
Theorem unguarded_candidate_not_newer :
  (exists u,
      select_strategy microsoft_display = Microsoft /\
      check_driver_update microsoft_display draw_0_05 = Some u /\
      check_for_updates [microsoft_display] [draw_0_05] = [u] /\
      current_version u = Some "Unknown" /\
      new_version u = Some "1.0.0.1" /\
      candidate_newer u = false) /\
  (exists u,
      select_strategy (usb_hub "5") = Generic /\
      check_driver_update (usb_hub "5") draw_0_01 = Some u /\
      check_for_updates [usb_hub "5"] [draw_0_01] = [u] /\
      current_version u = Some "5" /\
      new_version u = Some "1.0.0.1" /\
      candidate_newer u = false).
Proof.
  split; eexists; repeat split; reflexivity.
Qed.

End UpdateResolver.

(** ** File names *)

Section Sanitizer.

Lemma all_chars_map (p : ascii -> bool) (f : ascii -> ascii) (s : string) :
  all_chars p (map_chars f s) = all_chars (fun c => p (f c)) s.
Proof. induction s as [|c s IH]; simpl; [reflexivity|]. now rewrite IH. Qed.

Lemma all_chars_true (p : ascii -> bool) (s : string) :
  (forall c, p c = true) -> all_chars p s = true.
Proof.
  intros H. induction s as [|c s IH]; simpl; [reflexivity|].
  now rewrite H, IH.
Qed.

Lemma all_chars_take (p : ascii -> bool) (n : nat) (s : string) :
  all_chars p s = true -> all_chars p (Py.take n s) = true.
Proof.
  revert s. induction n as [|n IH]; intros [|c s]; simpl; try reflexivity.
  rewrite !andb_true_iff. intros [Hc Hs]. split; [exact Hc|now apply IH].
Qed.

Lemma all_chars_lstrip (p : ascii -> bool) (s : string) :
  all_chars p s = true -> all_chars p (Py.lstrip s) = true.
Proof.
  induction s as [|c s IH]; simpl; [reflexivity|].
  destruct (Py.is_space c); simpl; [|tauto].
  rewrite andb_true_iff. intros [_ Hs]. now apply IH.
Qed.

Lemma all_chars_rstrip (p : ascii -> bool) (s : string) :
  all_chars p s = true -> all_chars p (Py.rstrip s) = true.
Proof.
  induction s as [|c s IH]; simpl; [reflexivity|].
  rewrite andb_true_iff. intros [Hc Hs]. specialize (IH Hs).
  destruct (Py.rstrip s) as [|b r].
  - destruct (Py.is_space c); simpl; [reflexivity|now rewrite Hc].
  - change (p c && all_chars p (String b r) = true). now rewrite Hc, IH.
Qed.

Lemma replace_char_map (old new : ascii) (s : string) :
  Py.replace_char old new s =
  map_chars (fun c => if Ascii.eqb c old then new else c) s.
Proof. induction s as [|c s IH]; simpl; [reflexivity|]. now rewrite IH. Qed.

Lemma map_chars_compose (f g : ascii -> ascii) (s : string) :
  map_chars g (map_chars f s) = map_chars (fun c => g (f c)) s.
Proof. induction s as [|c s IH]; simpl; [reflexivity|]. now rewrite IH. Qed.

Lemma map_chars_ext (f g : ascii -> ascii) (s : string) :
  (forall c, f c = g c) -> map_chars f s = map_chars g s.
Proof.
  intros H. induction s as [|c s IH]; simpl; [reflexivity|].
  now rewrite H, IH.
Qed.

(** The nine replacements amount to one pass that maps each invalid
    character to an underscore. *)
Lemma replace_invalid_chars (s : string) :
  fold_left (fun f char => Py.replace_char char "_" f) invalid_chars s =
  map_chars sanitize_char s.
Proof.
  unfold invalid_chars. simpl fold_left.
  rewrite !replace_char_map, !map_chars_compose.
  apply map_chars_ext. intros c. unfold sanitize_char, invalid_chars.
  simpl existsb.
  repeat match goal with
         | |- context [Ascii.eqb c ?k] =>
             destruct (Ascii.eqb_spec c k) as [->|?]; simpl; try reflexivity
         end.
Qed.

Lemma sanitize_char_valid (x c : ascii) :
  In c invalid_chars -> negb (Ascii.eqb (sanitize_char x) c) = true.
Proof.
  intros Hc. apply negb_true_iff, Ascii.eqb_neq. unfold sanitize_char.
  destruct (existsb (Ascii.eqb x) invalid_chars) eqn:E.
  - simpl in Hc.
    repeat destruct Hc as [<-|Hc]; try discriminate; contradiction.
  - intros ->. assert (existsb (Ascii.eqb c) invalid_chars = true); [|congruence].
    apply existsb_exists. exists c. split; [exact Hc|apply Ascii.eqb_refl].
Qed.

Lemma length_take (n : nat) (s : string) :
  (String.length (Py.take n s) <= n)%nat.
Proof.
  revert s. induction n as [|n IH]; intros [|c s]; simpl; try lia.
  specialize (IH s). lia.
Qed.

Lemma length_lstrip (s : string) :
  (String.length (Py.lstrip s) <= String.length s)%nat.
Proof.
  induction s as [|c s IH]; simpl; [lia|].
  destruct (Py.is_space c); simpl; lia.
Qed.

Lemma length_rstrip (s : string) :
  (String.length (Py.rstrip s) <= String.length s)%nat.
Proof.
  induction s as [|c s IH]; simpl; [lia|].
  destruct (Py.rstrip s) as [|b r].
  - destruct (Py.is_space c); simpl; lia.
  - simpl in *. lia.
Qed.

Lemma lstrip_first (s : string) (c : ascii) :
  first_char (Py.lstrip s) = Some c -> Py.is_space c = false.
Proof.
  induction s as [|a s IH]; simpl; [discriminate|].
  destruct (Py.is_space a) eqn:E; [exact IH|].
  simpl. now intros [= <-].
Qed.

Lemma rstrip_first (s : string) (c : ascii) :
  first_char (Py.rstrip s) = Some c -> first_char s = Some c.
Proof.
  destruct s as [|a s]; simpl; [discriminate|].
  destruct (Py.rstrip s) as [|b r].
  - destruct (Py.is_space a); simpl; [discriminate|tauto].
  - simpl. tauto.
Qed.

Lemma rstrip_last (s : string) (c : ascii) :
  last_char (Py.rstrip s) = Some c -> Py.is_space c = false.
Proof.
  induction s as [|a s IH]; simpl; [discriminate|].
  destruct (Py.rstrip s) as [|b r].
  - destruct (Py.is_space a) eqn:E; simpl; [discriminate|].
    now intros [= <-].
  - intros H. apply IH. exact H.
Qed.


End Sanitizer.

(** ** De-duplication *)

Section Deduplication.

Lemma remove_duplicates_loop_spec (l : list Driver)
  (seen : gset (string * string)) (u : list Driver) :
  remove_duplicates_loop l seen u = u ++ dedup_from seen l.
Proof.
  revert seen u. induction l as [|d l IH]; intros seen u; simpl.
  - now rewrite app_nil_r.
  - destruct (decide (driver_key d ∈ seen)); [apply IH|].
    rewrite IH, <- app_assoc. reflexivity.
Qed.

Lemma dedup_from_elem (seen : gset (string * string)) (l : list Driver)
  (d : Driver) :
  d ∈ dedup_from seen l -> d ∈ l /\ driver_key d ∉ seen.
Proof.
  revert seen. induction l as [|x l IH]; intros seen; simpl.
  - intros H. now apply elem_of_nil in H.
  - destruct (decide (driver_key x ∈ seen)) as [Hin|Hout].
    + intros H. destruct (IH _ H). split; [apply elem_of_cons; now right|done].
    + intros H. apply elem_of_cons in H. destruct H as [Hd|H].
      * subst d. split; [apply elem_of_cons; now left|done].
      * destruct (IH _ H) as [H1 H2].
        split; [apply elem_of_cons; now right|].
        intros Hs. apply H2. now apply elem_of_union_r.
Qed.

Lemma dedup_from_NoDup (seen : gset (string * string)) (l : list Driver) :
  NoDup (map driver_key (dedup_from seen l)).
Proof.
  revert seen. induction l as [|x l IH]; intros seen; simpl.
  - apply NoDup_nil_2.
  - destruct (decide (driver_key x ∈ seen)); [apply IH|].
    simpl. apply NoDup_cons_2; [|apply IH].
    intros Hin. apply list_elem_of_In in Hin. apply in_map_iff in Hin.
    destruct Hin as (d & Hk & Hd). apply list_elem_of_In in Hd.
    apply dedup_from_elem in Hd. destruct Hd as [_ Hd].
    apply Hd. rewrite Hk. apply elem_of_union_l. now apply elem_of_singleton.
Qed.

Lemma dedup_from_sublist (seen : gset (string * string)) (l : list Driver) :
  sublist (dedup_from seen l) l.
Proof.
  revert seen. induction l as [|x l IH]; intros seen; simpl.
  - constructor.
  - destruct (decide (driver_key x ∈ seen)).
    + apply sublist_cons, IH.
    + apply sublist_skip, IH.
Qed.





End Deduplication.

(** ** The installation cascade *)

Section ExeCascade.

Variable os : oracle.
Variable driver_file : string.

Lemma try_silent_unsuccessful (params : list string) (tr : trace) :
  (forall tr' p, In p params ->
                 success_code (os tr' (exe_attempt driver_file p)) = false) ->
  try_silent os driver_file params tr =
  (None, tr ++ map (exe_attempt driver_file) params).
Proof.
  revert tr. induction params as [|p ps IH]; intros tr H; simpl.
  - now rewrite app_nil_r.
  - assert (Hp := H tr p (or_introl eq_refl)).
    assert (Hps : forall tr' q, In q ps ->
              success_code (os tr' (exe_attempt driver_file q)) = false).
    { intros tr' q Hq. apply H. now right. }
    unfold subprocess_run.
    destruct (os tr (exe_attempt driver_file p)) as [c| |]; simpl in Hp.
    + apply orb_false_iff in Hp as [H0 H1]. rewrite H0, H1.
      rewrite (IH _ Hps), <- app_assoc. reflexivity.
    + rewrite (IH _ Hps), <- app_assoc. reflexivity.
    + rewrite (IH _ Hps), <- app_assoc. reflexivity.
Qed.

Lemma try_silent_stops (pre post : list string) (p : string) (tr : trace) :
  (forall tr' q, In q pre ->
                 success_code (os tr' (exe_attempt driver_file q)) = false) ->
  success_code (os (tr ++ map (exe_attempt driver_file) pre)
                   (exe_attempt driver_file p)) = true ->
  try_silent os driver_file (pre ++ p :: post) tr =
  (Some true, tr ++ map (exe_attempt driver_file) pre
                 ++ [exe_attempt driver_file p]).
Proof.
  revert tr. induction pre as [|q qs IH]; intros tr Hpre Hp; simpl in *.
  - rewrite app_nil_r in Hp. unfold subprocess_run.
    destruct (os tr (exe_attempt driver_file p)) as [c| |]; simpl in Hp;
      try discriminate.
    destruct (c =? 0)%Z; [reflexivity|].
    simpl in Hp. now rewrite Hp.
  - assert (Hq := Hpre tr q (or_introl eq_refl)).
    unfold subprocess_run.
    assert (E : try_silent os driver_file (qs ++ p :: post)
                  (tr ++ [exe_attempt driver_file q]) =
                (Some true, tr ++ exe_attempt driver_file q
                   :: map (exe_attempt driver_file) qs
                   ++ [exe_attempt driver_file p])).
    { rewrite IH.
      - now rewrite <- app_assoc.
      - intros tr' r Hr. apply Hpre. now right.
      - now rewrite <- app_assoc. }
    destruct (os tr (exe_attempt driver_file q)) as [c| |]; simpl in Hq.
    + apply orb_false_iff in Hq as [H0 H1]. now rewrite H0, H1.
    + exact E.
    + exact E.
Qed.

End ExeCascade.

Lemma silent_attempts_distinct (driver_file : string) :
  NoDup silent_params /\
  NoDup (map (exe_attempt driver_file) silent_params
         ++ [interactive_attempt driver_file]).
Proof.
  unfold silent_params, exe_attempt, interactive_attempt. simpl.
  split;
    repeat (apply NoDup_cons_2;
            [rewrite ?elem_of_cons, elem_of_nil;
             intros H; repeat destruct H as [H|H]; try discriminate; exact H|]);
    apply NoDup_nil_2.
Qed.

(** Timeouts of all the silent attempts do not make the installation
    fail: the run without flags still decides.  Here it returns 0 and the
    installation succeeds, after the nine attempts. *)
Lemma silent_timeouts_then_success :
  (forall tr p, In p silent_params ->
     plain_run_succeeds tr (exe_attempt "setup.exe" p) = TimedOut) /\
  plain_run_succeeds (map (exe_attempt "setup.exe") silent_params)
    (interactive_attempt "setup.exe") = Exited 0 /\
  install_exe_driver plain_run_succeeds "setup.exe" [] =
  (true, map (exe_attempt "setup.exe") silent_params
         ++ [interactive_attempt "setup.exe"]).
Proof.
  split; [intros tr p _; reflexivity|]. split; reflexivity.
Qed.

(** C5 (amended).  When every attempt with a silent flag times out, the
    cascade tries each of the eight flags once, in order, then the
    installer without flags, and nothing else; the installation succeeds
    exactly when that last attempt returns 0 or 3010, and fails otherwise
    (when it times out, for one).  An attempt that returns 0 or 3010
    stops the cascade with success: no further flag and no fallback is
    attempted. *)
Theorem exe_cascade :
  (forall (os : oracle) (driver_file : string) (tr : trace),
      (forall tr' p, In p silent_params ->
                     os tr' (exe_attempt driver_file p) = TimedOut) ->
      let attempts := map (exe_attempt driver_file) silent_params
                      ++ [interactive_attempt driver_file] in
      let fallback := os (tr ++ map (exe_attempt driver_file) silent_params)
                         (interactive_attempt driver_file) in
      install_exe_driver os driver_file tr =
        (success_code fallback, tr ++ attempts) /\
      NoDup attempts /\ length attempts = 9%nat /\
      (fallback = TimedOut -> fst (install_exe_driver os driver_file tr) = false) /\
      (fst (install_exe_driver os driver_file tr) = true <->
       fallback = Exited 0 \/ fallback = Exited 3010)) /\
  (forall (os : oracle) (driver_file : string) (tr : trace)
          (pre post : list string) (p : string),
      silent_params = pre ++ p :: post ->
      (forall tr' q, In q pre ->
                     success_code (os tr' (exe_attempt driver_file q)) = false) ->
      success_code (os (tr ++ map (exe_attempt driver_file) pre)
                       (exe_attempt driver_file p)) = true ->
      install_exe_driver os driver_file tr =
        (true, tr ++ map (exe_attempt driver_file) pre
                  ++ [exe_attempt driver_file p])).
Proof.
  split.
  - intros os driver_file tr Hto attempts fallback.
    assert (E : install_exe_driver os driver_file tr =
                (success_code fallback, tr ++ attempts)).
    { unfold install_exe_driver.
      rewrite try_silent_unsuccessful.
      - unfold install_interactive, subprocess_run, attempts, fallback.
        rewrite app_assoc.
        now destruct (os (tr ++ map (exe_attempt driver_file) silent_params)
                         (interactive_attempt driver_file)).
      - intros tr' p Hp. now rewrite (Hto tr' p Hp). }
    split; [exact E|]. split; [apply silent_attempts_distinct|].
    split; [reflexivity|].
    split; [intros Hf; rewrite E; simpl; now rewrite Hf|].
    rewrite E. cbn [fst]. destruct fallback as [c| |]; cbn [success_code].
    + rewrite orb_true_iff, !Z.eqb_eq. split.
      * intros [->| ->]; [now left|now right].
      * intros [[= ->]|[= ->]]; [now left|now right].
    + split; [discriminate|]. intros [H|H]; discriminate.
    + split; [discriminate|]. intros [H|H]; discriminate.
  - intros os driver_file tr pre post p Hsplit Hpre Hp.
    unfold install_exe_driver. rewrite Hsplit.
    now rewrite (try_silent_stops os driver_file pre post p tr Hpre Hp).
Qed.

Lemma exe_cascade_witness :
  install_exe_driver hanging "setup.exe" [] =
  (false, map (exe_attempt "setup.exe") silent_params
          ++ [interactive_attempt "setup.exe"]).
Proof.
  apply (proj1 (proj1 exe_cascade hanging "setup.exe" []
                  (fun tr' p _ => eq_refl))).
Defined.

(** ** Archives *)

Section Archives.

Variable os : oracle.

Lemma install_inner_files_trace (root : string) (files : list string)
  (tr : trace) :
  install_inner_files os root files tr =
  tr ++ map (fun file => inf_attempt (path_join root file))
            (filter (fun file => driver_information_file file = true) files).
Proof.
  revert tr. induction files as [|f fs IH]; intros tr; simpl.
  - now rewrite app_nil_r.
  - rewrite filter_cons.
    destruct (driver_information_file f) eqn:E.
    + rewrite decide_True by reflexivity.
      unfold install_inf_driver_interactive, install_inf_driver, subprocess_run.
      destruct (os tr (inf_attempt (path_join root f)));
        rewrite IH, <- app_assoc; reflexivity.
    + rewrite decide_False by discriminate. apply IH.
Qed.

Lemma install_walk_trace (tree : list (string * list string)) (tr : trace) :
  install_walk os tree tr = tr ++ inner_attempts tree.
Proof.
  revert tr. induction tree as [|[root files] rest IH]; intros tr; simpl.
  - now rewrite app_nil_r.
  - rewrite IH, install_inner_files_trace, <- app_assoc. reflexivity.
Qed.

End Archives.

(** C7.  A [.zip] payload whose extraction completes is reported as
    installed whatever the installations of the driver-information files
    inside return: each of them is attempted, none of the results is
    used.  Only a failed extraction fails the archive. *)
Theorem zip_succeeds_when_extracted
  (os : oracle) (unpack : string -> exc (list (string * list string)))
  (driver_file : string) (tr : trace) (tree : list (string * list string)) :
  unpack driver_file = Ret tree ->
  install_zip_driver_interactive os unpack driver_file tr =
    (true, tr ++ inner_attempts tree) /\
  (Py.lower (splitext_ext driver_file) = ".zip" ->
   install_driver_file_interactive os unpack driver_file tr =
     (true, tr ++ inner_attempts tree)).
Proof.
  intros Hun.
  assert (E : install_zip_driver_interactive os unpack driver_file tr =
              (true, tr ++ inner_attempts tree)).
  { unfold install_zip_driver_interactive. rewrite Hun.
    now rewrite install_walk_trace. }
  split; [exact E|].
  intros Hext. unfold install_driver_file_interactive. rewrite Hext.
  simpl. exact E.
Qed.

Lemma zip_succeeds_when_extracted_witness :
  install_zip_driver_interactive accepts_good_only (fun _ => Ret sample_tree)
    "C:\downloads\driver.zip" [] =
  (true, [inf_attempt "C:\scratch\good.inf";
          inf_attempt "C:\scratch\corrupt.inf"]) /\
  install_inf_driver accepts_good_only "C:\scratch\corrupt.inf"
    [inf_attempt "C:\scratch\good.inf"] =
  (false, [inf_attempt "C:\scratch\good.inf";
           inf_attempt "C:\scratch\corrupt.inf"]).
Proof.
  split; [|reflexivity].
  apply (proj1 (zip_succeeds_when_extracted accepts_good_only
                  (fun _ => Ret sample_tree) "C:\downloads\driver.zip" []
                  sample_tree eq_refl)).
Defined.

Lemma zip_fails_when_extraction_raises
  (os : oracle) (unpack : string -> exc (list (string * list string)))
  (driver_file : string) (tr : trace) (e : exn) :
  unpack driver_file = Raise e ->
  install_zip_driver_interactive os unpack driver_file tr = (false, tr).
Proof.
  intros H. unfold install_zip_driver_interactive. now rewrite H.
Qed.

(** ** The batch *)

Section BatchFacts.

Context {W : Type}.
Variable restore_point : W -> bool * W.
Variable install_single : Update -> W -> exc bool * W.

Lemma count_installed_cons (u : Update) (o : item_outcome)
  (outs : list (Update * item_outcome)) :
  count_installed ((u, o) :: outs) =
  ((if is_installed o then 1 else 0) + count_installed outs)%nat.
Proof.
  unfold count_installed. rewrite filter_cons. simpl.
  destruct (is_installed o).
  - now rewrite decide_True by reflexivity.
  - now rewrite decide_False by discriminate.
Qed.

Lemma install_loop_spec (updates : list Update) (n : nat)
  (outs : list (Update * item_outcome)) (w : W) :
  install_loop install_single updates n outs w =
  (n + count_installed (fst (batch_outcomes install_single updates w)),
   outs ++ fst (batch_outcomes install_single updates w),
   snd (batch_outcomes install_single updates w))%nat.
Proof.
  revert n outs w. induction updates as [|u us IH]; intros n outs w.
  - simpl. now rewrite Nat.add_0_r, app_nil_r.
  - cbn [install_loop batch_outcomes].
    destruct (install_single u w) as [r w'].
    destruct (batch_outcomes install_single us w') as [os' w''] eqn:E.
    cbn [fst snd]. rewrite count_installed_cons.
    destruct r as [[|]|e]; rewrite IH, E; cbn [fst snd outcome_of is_installed];
      rewrite <- app_assoc; simpl; f_equal; f_equal; lia.
Qed.

Lemma batch_outcomes_items (updates : list Update) (w : W) :
  map fst (fst (batch_outcomes install_single updates w)) = updates.
Proof.
  revert w. induction updates as [|u us IH]; intros w; simpl; [reflexivity|].
  destruct (install_single u w) as [r w'].
  specialize (IH w').
  destruct (batch_outcomes install_single us w') as [os' w'']. simpl in *.
  now rewrite IH.
Qed.

Lemma count_installed_le (outs : list (Update * item_outcome)) :
  (count_installed outs <= length outs)%nat.
Proof. unfold count_installed. apply length_filter. Qed.

Lemma install_updates_with_spec (updates : list Update) (w : W) :
  install_updates_with restore_point install_single updates w =
  (count_installed
     (fst (batch_outcomes install_single updates (snd (restore_point w)))),
   fst (batch_outcomes install_single updates (snd (restore_point w))),
   snd (batch_outcomes install_single updates (snd (restore_point w)))).
Proof.
  unfold install_updates_with. destruct (restore_point w) as [b w1].
  now rewrite install_loop_spec.
Qed.

End BatchFacts.

Lemma recording_order (answer : Update -> exc bool) (updates seen : list Update) :
  snd (batch_outcomes (recording answer) updates seen) = seen ++ updates.
Proof.
  revert seen. induction updates as [|u us IH]; intros seen; simpl.
  - now rewrite app_nil_r.
  - specialize (IH (seen ++ [u])).
    destruct (batch_outcomes (recording answer) us (seen ++ [u])) as [os' w''].
    simpl in *. now rewrite IH, <- app_assoc.
Qed.

(** C6.  The batch visits the candidates in input order, records one
    outcome for each and never stops early: the outcomes are those of the
    items in order, the count is the number of installed items, and an
    item whose installation fails or raises is counted as failed while the
    following ones are still installed.  Three candidates of which the
    second fails (or raises) give 2 out of 3.  This holds for the loop
    with any way of installing one item, and for [install_updates] itself:
    after asking for the restore point it installs the items one after the
    other with [_install_single_update], each in the state the previous
    one left, and returns the number of those that succeeded. *)
Theorem batch_in_order_never_aborts :
  (forall (W : Type) (restore_point : W -> bool * W)
          (install_single : Update -> W -> exc bool * W)
          (updates : list Update) (w : W),
      let result := install_updates_with restore_point install_single updates w in
      let outs := snd (fst result) in
      map fst outs = updates /\
      length outs = length updates /\
      fst (fst result) = count_installed outs /\
      (fst (fst result) <= length updates)%nat /\
      (outs, snd result) =
        batch_outcomes install_single updates (snd (restore_point w))) /\
  (forall (answer : Update -> exc bool) (updates : list Update),
      snd (install_updates_with (fun seen => (true, seen)) (recording answer)
             updates []) = updates) /\
  (forall (W : Type) (restore_point : W -> bool * W)
          (install_single : Update -> W -> exc bool * W)
          (u1 u2 u3 : Update) (w w1 w2 w3 : W) (r2 : exc bool),
      install_single u1 (snd (restore_point w)) = (Ret true, w1) ->
      install_single u2 w1 = (r2, w2) ->
      r2 <> Ret true ->
      install_single u3 w2 = (Ret true, w3) ->
      install_updates_with restore_point install_single [u1; u2; u3] w =
        (2%nat, [(u1, Installed); (u2, outcome_of r2); (u3, Installed)], w3) /\
      run restore_point install_single [u1; u2; u3] w = mkResult 2 3) /\
  (forall (env : Env) (updates : list Update) (w : World),
      map fst (snd (fst (install_updates env updates w))) = updates /\
      fst (fst (install_updates env updates w)) =
        count_installed (snd (fst (install_updates env updates w)))) /\
  (forall (env : Env) (updates : list Update) (w : World),
      let w0 := snd (create_restore_point env
                       "Driver Updater - Batch Installation" w) in
      install_updates env updates w =
        (count_installed (fst (batch_outcomes (install_item env) updates w0)),
         fst (batch_outcomes (install_item env) updates w0),
         snd (batch_outcomes (install_item env) updates w0))) /\
  (forall (env : Env) (u1 u2 u3 : Update) (w w1 w2 w3 : World),
      install_single_update env u1
        (snd (create_restore_point env
                "Driver Updater - Batch Installation" w)) = (true, w1) ->
      install_single_update env u2 w1 = (false, w2) ->
      install_single_update env u3 w2 = (true, w3) ->
      install_updates env [u1; u2; u3] w =
        (2%nat, [(u1, Installed); (u2, NotInstalled); (u3, Installed)], w3) /\
      mkResult (fst (fst (install_updates env [u1; u2; u3] w)))
               (length [u1; u2; u3]) = mkResult 2 3).
Proof.
  split; [|split; [|split; [|split; [|split]]]]; cycle 3.
  { intros env updates w. unfold install_updates.
    rewrite install_updates_with_spec. simpl.
    split; [apply batch_outcomes_items|reflexivity]. }
  { intros env updates w. cbv zeta. unfold install_updates.
    now rewrite install_updates_with_spec. }
  { intros env u1 u2 u3 w w1 w2 w3 H1 H2 H3.
    assert (E : install_updates env [u1; u2; u3] w =
                (2%nat, [(u1, Installed); (u2, NotInstalled); (u3, Installed)],
                 w3)).
    { unfold install_updates, install_updates_with.
      destruct (create_restore_point env _ w) as [b w0].
      cbn [snd] in H1. cbn [install_loop]. rewrite H1.
      cbn [install_loop]. rewrite H2. cbn [install_loop]. now rewrite H3. }
    split; [exact E|]. now rewrite E. }
  - intros W restore_point install_single updates w.
    cbv zeta. rewrite install_updates_with_spec. simpl.
    set (w1 := snd (restore_point w)).
    pose proof (batch_outcomes_items install_single updates w1) as Hitems.
    split; [exact Hitems|].
    split; [now rewrite <- Hitems at 2; rewrite length_map|].
    split; [reflexivity|].
    split.
    + rewrite <- Hitems at 2. rewrite length_map. apply count_installed_le.
    + now destruct (batch_outcomes install_single updates w1).
  - intros answer updates. rewrite install_updates_with_spec. simpl.
    apply (recording_order answer updates []).
  - intros W restore_point install_single u1 u2 u3 w w1 w2 w3 r2 H1 H2 Hr H3.
    assert (E : install_updates_with restore_point install_single [u1; u2; u3] w =
                (2%nat, [(u1, Installed); (u2, outcome_of r2); (u3, Installed)], w3)).
    { unfold install_updates_with. destruct (restore_point w) as [b w0].
      simpl in H1. simpl. rewrite H1, H2.
      destruct r2 as [[|]|e]; [congruence| |]; simpl; now rewrite H3. }
    split; [exact E|]. unfold run. now rewrite E.
Qed.

Lemma batch_in_order_never_aborts_witness :
  fst (install_updates b_unreachable
         [sample_update "A"; sample_update "B"; sample_update "C"]
         (mkWorld ∅ [])) =
  (2%nat,
   [(sample_update "A", Installed);
    (sample_update "B", NotInstalled);
    (sample_update "C", Installed)]).
Proof.
  pose (w0 := snd (create_restore_point b_unreachable
                     "Driver Updater - Batch Installation" (mkWorld ∅ []))).
  pose (w1 := snd (install_single_update b_unreachable (sample_update "A") w0)).
  pose (w2 := snd (install_single_update b_unreachable (sample_update "B") w1)).
  pose (w3 := snd (install_single_update b_unreachable (sample_update "C") w2)).
  assert (H1 : install_single_update b_unreachable (sample_update "A") w0 =
               (true, w1)) by (vm_compute; reflexivity).
  assert (H2 : install_single_update b_unreachable (sample_update "B") w1 =
               (false, w2)) by (vm_compute; reflexivity).
  assert (H3 : install_single_update b_unreachable (sample_update "C") w2 =
               (true, w3)) by (vm_compute; reflexivity).
  exact (f_equal fst
           (proj1 (proj2 (proj2 (proj2 (proj2 (proj2
              batch_in_order_never_aborts))))
                     b_unreachable (sample_update "A") (sample_update "B")
                     (sample_update "C") (mkWorld ∅ []) w1 w2 w3 H1 H2 H3))).
Defined.

(** An item whose installation raises is recorded as an error and the
    items after it are still installed. *)
Example raising_item_is_counted_failed :
  install_updates_with (fun seen => (true, seen)) (recording b_raises)
    [sample_update "A"; sample_update "B"; sample_update "C"] [] =
  (2%nat,
   [(sample_update "A", Installed);
    (sample_update "B", InstallError OSError);
    (sample_update "C", Installed)],
   [sample_update "A"; sample_update "B"; sample_update "C"]).
Proof. reflexivity. Qed.

(** ** Download verification *)

Section Verification.

Lemma exceeds_tolerance_announced (s : string) (eb sz : Z) :
  In (s, eb) announced_sizes ->
  parse_size_string s = Some eb /\ eb <> 0%Z /\
  exceeds_tolerance sz eb = Ret (negb (within_10_percent sz eb)).
Proof.
  unfold announced_sizes. simpl.
  intros H. repeat destruct H as [H|H]; try contradiction;
    injection H as <- <-;
    (split; [vm_compute; reflexivity|]); (split; [discriminate|]);
    unfold exceeds_tolerance, within_10_percent;
    match goal with
    | |- context [Float.of_Z ?n] =>
        let f := eval vm_compute in (Float.of_Z n) in
        change (Float.of_Z n) with f
    end; cbn [bind];
    match goal with
    | |- context [Float.mul ?a ?b] =>
        let f := eval vm_compute in (Float.mul a b) in
        change (Float.mul a b) with f
    end; cbn [Float.Z_gt]; f_equal;
    rewrite Z.shiftl_mul_pow2 by lia;
    match goal with
    | |- (?a <? ?b)%Z = negb (?c <=? ?d)%Z =>
        destruct (Z.ltb_spec a b), (Z.leb_spec c d); simpl; try reflexivity; lia
    end.
Qed.

Lemma verify_download_char (files : string -> option Z) (file_path : string)
  (expected_size : option string) :
  verify_download files file_path expected_size = true <->
  exists file_size,
    files file_path = Some file_size /\
    installer_extension file_path = true /\
    (forall expected_bytes,
        truthy expected_size = true ->
        parse_size_string (get expected_size "") = Some expected_bytes ->
        expected_bytes <> 0%Z ->
        exceeds_tolerance file_size expected_bytes = Ret false).
Proof.
  unfold verify_download, verify_download_exc.
  destruct (files file_path) as [sz|]; simpl.
  2: { split; [discriminate|]. intros (sz & H & _). discriminate. }
  destruct (truthy expected_size) eqn:Et; simpl.
  - destruct (parse_size_string (get expected_size "")) as [eb|] eqn:Ep; simpl.
    + destruct (Z.eqb_spec eb 0) as [->|Hne]; simpl.
      * destruct (installer_extension file_path); simpl.
        -- split; [|reflexivity]. intros _. exists sz.
           repeat split. intros eb' _ [= <-] Hc. contradiction.
        -- split; [discriminate|]. intros (sz' & _ & H & _). discriminate.
      * destruct (exceeds_tolerance sz eb) as [[|]|e] eqn:Ex; simpl.
        -- split; [discriminate|]. intros (sz' & [= <-] & _ & H).
           specialize (H eb eq_refl eq_refl Hne). congruence.
        -- destruct (installer_extension file_path); simpl.
           ++ split; [|reflexivity]. intros _. exists sz.
              repeat split. intros eb' _ [= <-] _. exact Ex.
           ++ split; [discriminate|]. intros (sz' & _ & H & _). discriminate.
        -- split; [discriminate|]. intros (sz' & [= <-] & _ & H).
           specialize (H eb eq_refl eq_refl Hne). congruence.
    + destruct (installer_extension file_path); simpl.
      * split; [|reflexivity]. intros _. exists sz.
        repeat split. intros eb' _ H. discriminate.
      * split; [discriminate|]. intros (sz' & _ & H & _). discriminate.
  - destruct (installer_extension file_path); simpl.
    + split; [|reflexivity]. intros _. exists sz.
      repeat split. intros eb' H. discriminate.
    + split; [discriminate|]. intros (sz' & _ & H & _). discriminate.
Qed.

End Verification.

Section VerifiedInstallation.

Lemma install_fails_on_verification_failure (env : Env) (update : Update)
  (w w' : World) :
  download_driver env update
    (path_join (temp_dir env) (generate_driver_filename update)) w = (true, w') ->
  verify_download (fun p => files w' !! p)
    (path_join (temp_dir env) (generate_driver_filename update))
    (download_size update) = false ->
  install_single_update env update w = (false, w').
Proof.
  intros Hd Hv. unfold install_single_update, download_driver_file.
  rewrite Hd, Hv. unfold download_driver in Hd.
  destruct (download_url update) as [url|]; [|discriminate]. simpl.
  destruct (String.eqb url "") eqn:E1; [discriminate|].
  destruct (String.eqb url "windows_update") eqn:E2; [discriminate|].
  destruct (String.eqb url "generic_update") eqn:E3; [discriminate|].
  reflexivity.
Qed.

(** The check is skipped when the announced size reads as zero bytes: a
    file of 100 bytes is accepted for "0 MB", though 100 is not within 10%
    of 0. *)
Lemma zero_size_is_not_checked :
  verify_download (one_file "C:\tmp\driver.exe" 100) "C:\tmp\driver.exe"
    (Some "0 MB") = true /\
  parse_size_string "0 MB" = Some 0%Z /\
  within_10_percent 100 0 = false.
Proof. repeat split; vm_compute; reflexivity. Qed.

(** C8 (amended).  A download is accepted exactly when the file exists,
    its name ends (case-insensitively) in [.exe], [.msi] or [.inf], and,
    when the expected size is a non-empty string that [_parse_size_string]
    reads as a non-zero number of bytes, the test
    [abs(size - expected) > expected * 0.1] is false; there is no size
    check otherwise.  For the sizes the strategies announce that test is
    "not within 10%" exactly.  When a download fails verification the
    installation of the item fails, and nothing is run. *)
Theorem verify_download_accepts :
  (forall (files : string -> option Z) (file_path : string)
          (expected_size : option string),
      verify_download files file_path expected_size = true <->
      exists file_size,
        files file_path = Some file_size /\
        installer_extension file_path = true /\
        (forall expected_bytes,
            truthy expected_size = true ->
            parse_size_string (get expected_size "") = Some expected_bytes ->
            expected_bytes <> 0%Z ->
            exceeds_tolerance file_size expected_bytes = Ret false)) /\
  (forall (files : string -> option Z) (file_path s : string) (eb : Z),
      In (s, eb) announced_sizes ->
      (verify_download files file_path (Some s) = true <->
       exists file_size,
         files file_path = Some file_size /\
         installer_extension file_path = true /\
         within_10_percent file_size eb = true)) /\
  (forall (files : string -> option Z) (file_path : string),
      verify_download files file_path None = true <->
      (exists file_size, files file_path = Some file_size) /\
      installer_extension file_path = true) /\
  (forall (env : Env) (update : Update) (w w' : World),
      download_driver env update
        (path_join (temp_dir env) (generate_driver_filename update)) w
        = (true, w') ->
      verify_download (fun p => files w' !! p)
        (path_join (temp_dir env) (generate_driver_filename update))
        (download_size update) = false ->
      install_single_update env update w = (false, w')).
Proof.
  split; [exact verify_download_char|]. split; [|split].
  - intros files file_path s eb Hin.
    rewrite verify_download_char.
    assert (Hs : truthy (Some s) = true).
    { unfold announced_sizes in Hin. simpl in Hin.
      repeat destruct Hin as [Hin|Hin]; try contradiction;
        injection Hin as <- <-; reflexivity. }
    split.
    + intros (sz & Hf & He & Hsz). exists sz. repeat split; try assumption.
      destruct (exceeds_tolerance_announced s eb sz Hin) as (Hp & Hne & Hex).
      specialize (Hsz eb Hs Hp Hne). rewrite Hex in Hsz.
      injection Hsz as Hsz. now apply negb_false_iff in Hsz.
    + intros (sz & Hf & He & Hw). exists sz. repeat split; try assumption.
      intros eb' _ Hp' _.
      destruct (exceeds_tolerance_announced s eb sz Hin) as (Hp & Hne & Hex).
      simpl in Hp'. rewrite Hp in Hp'. injection Hp' as <-.
      now rewrite Hex, Hw.
  - intros files file_path. rewrite verify_download_char. split.
    + intros (sz & Hf & He & _). split; [now exists sz|exact He].
    + intros [(sz & Hf) He]. exists sz. repeat split; try assumption.
      intros eb H. discriminate.
  - exact install_fails_on_verification_failure.
Qed.

Lemma verify_download_accepts_witness :
  verify_download (one_file "C:\tmp\driver.exe" 500000000) "C:\tmp\driver.exe"
    (Some "500 MB") = true.
Proof.
  apply (proj2 (proj1 (proj2 verify_download_accepts)
                  (one_file "C:\tmp\driver.exe" 500000000) "C:\tmp\driver.exe"
                  "500 MB" 524288000%Z (or_introl eq_refl))).
  exists 500000000%Z. repeat split; reflexivity.
Defined.

End VerifiedInstallation.

(** * Further properties of the code *)

(** ** The scan *)

Section Scan.

Lemma dedup_from_ext (s1 s2 : gset (string * string)) (l : list Driver) :
  s1 = s2 -> dedup_from s1 l = dedup_from s2 l.
Proof. now intros ->. Qed.

Lemma dedup_from_distinct (seen : gset (string * string)) (l : list Driver) :
  NoDup (map driver_key l) ->
  (forall d, d ∈ l -> driver_key d ∉ seen) ->
  dedup_from seen l = l.
Proof.
  revert seen. induction l as [|x l IH]; intros seen Hnd Hout; simpl.
  - reflexivity.
  - simpl in Hnd. apply NoDup_cons in Hnd as [Hx Hnd].
    destruct (decide (driver_key x ∈ seen)) as [Hin|_].
    + exfalso. apply (Hout x); [apply elem_of_cons; now left|exact Hin].
    + f_equal. apply IH; [exact Hnd|].
      intros d Hd Hs. apply elem_of_union in Hs as [Hs|Hs].
      * apply elem_of_singleton in Hs. apply Hx. rewrite <- Hs.
        apply list_elem_of_In, in_map, list_elem_of_In, Hd.
      * apply (Hout d); [apply elem_of_cons; now right|exact Hs].
Qed.

Lemma dedup_from_filter (seen extra : gset (string * string))
  (l : list Driver) :
  dedup_from (seen ∪ extra) l =
  dedup_from seen (filter (fun d => driver_key d ∉ extra) l).
Proof.
  revert seen. induction l as [|x l IH]; intros seen; simpl; [reflexivity|].
  rewrite filter_cons.
  destruct (decide (driver_key x ∉ extra)) as [Hout|Hin].
  - simpl. destruct (decide (driver_key x ∈ seen ∪ extra)) as [Hu|Hu],
             (decide (driver_key x ∈ seen)) as [Hs|Hs].
    + apply IH.
    + exfalso. apply elem_of_union in Hu as [Hu|Hu]; contradiction.
    + exfalso. apply Hu. now apply elem_of_union_l.
    + f_equal. rewrite <- IH. apply dedup_from_ext.
      now rewrite (assoc_L (∪)).
  - destruct (decide (driver_key x ∈ seen ∪ extra)) as [_|Hu]; [apply IH|].
    exfalso. apply Hu. apply elem_of_union_r.
    destruct (decide (driver_key x ∈ extra)); [assumption|contradiction].
Qed.

Lemma dedup_from_app (seen : gset (string * string)) (a b : list Driver) :
  dedup_from seen (a ++ b) =
  dedup_from seen a ++
  dedup_from (seen ∪ list_to_set (map driver_key a)) b.
Proof.
  revert seen. induction a as [|x a IH]; intros seen; simpl.
  - apply dedup_from_ext. now rewrite (right_id_L ∅ (∪)).
  - destruct (decide (driver_key x ∈ seen)) as [Hin|Hout].
    + rewrite IH. f_equal. apply dedup_from_ext.
      rewrite (assoc_L (∪)). f_equal.
      apply set_eq. intros k. rewrite elem_of_union, elem_of_singleton.
      split; [now left|]. intros [H| ->]; assumption.
    + simpl. f_equal. rewrite IH. f_equal. apply dedup_from_ext.
      rewrite !(assoc_L (∪)). f_equal. apply (comm_L (∪)).
Qed.

Lemma remove_duplicates_dedup (l : list Driver) :
  remove_duplicates l = dedup_from ∅ l.
Proof. unfold remove_duplicates. now rewrite remove_duplicates_loop_spec. Qed.

(** X1.  De-duplication changes nothing the second time, leaves a list without
    duplicate keys alone, and never lengthens a list. *)
Theorem remove_duplicates_idempotent (drivers : list Driver) :
  remove_duplicates (remove_duplicates drivers) = remove_duplicates drivers /\
  (NoDup (map driver_key drivers) -> remove_duplicates drivers = drivers) /\
  (length (remove_duplicates drivers) <= length drivers)%nat /\
  remove_duplicates [] = [].
Proof.
  rewrite !remove_duplicates_dedup.
  assert (Hd : forall l, NoDup (map driver_key l) -> dedup_from ∅ l = l).
  { intros l Hl. apply dedup_from_distinct; [exact Hl|].
    intros d _ H. now apply elem_of_empty in H. }
  split; [apply Hd, dedup_from_NoDup|]. split; [apply Hd|].
  split; [apply sublist_length, dedup_from_sublist|reflexivity].
Qed.

Lemma remove_duplicates_idempotent_witness :
  remove_duplicates [usb_hub "1.0"; microsoft_display] =
  [usb_hub "1.0"; microsoft_display].
Proof.
  apply (proj1 (proj2 (remove_duplicates_idempotent
                         [usb_hub "1.0"; microsoft_display]))).
  simpl. repeat (apply NoDup_cons_2;
    [rewrite ?elem_of_cons, elem_of_nil;
     intros H; repeat destruct H as [H|H]; try discriminate; exact H|]).
  apply NoDup_nil_2.
Defined.

(** X2.  The scan keeps the plug-and-play records first: its result is the
    de-duplicated plug-and-play scan followed by the de-duplicated system
    records whose key no plug-and-play record has. *)
Theorem scan_all_drivers_pnp_first (pnp_drivers system_drivers : list Driver) :
  scan_all_drivers pnp_drivers system_drivers =
  remove_duplicates pnp_drivers ++
  remove_duplicates
    (filter (fun d => driver_key d ∉ map driver_key pnp_drivers)
            system_drivers).
Proof.
  unfold scan_all_drivers. simpl. rewrite !remove_duplicates_dedup.
  rewrite dedup_from_app. f_equal.
  rewrite (left_id_L ∅ (∪)), <- (left_id_L ∅ (∪) (list_to_set _)).
  rewrite dedup_from_filter. f_equal.
  apply list_filter_iff. intros d. now rewrite elem_of_list_to_set.
Qed.

End Scan.

(** ** File names, again *)

Section SanitizerAgain.

Lemma map_chars_id (f : ascii -> ascii) (s : string) :
  all_chars (fun c => Ascii.eqb (f c) c) s = true -> map_chars f s = s.
Proof.
  induction s as [|c s IH]; simpl; [reflexivity|].
  rewrite andb_true_iff. intros [Hc Hs].
  apply Ascii.eqb_eq in Hc. now rewrite Hc, (IH Hs).
Qed.

Lemma sanitize_char_idem (c : ascii) :
  sanitize_char (sanitize_char c) = sanitize_char c.
Proof.
  unfold sanitize_char.
  destruct (existsb (Ascii.eqb c) invalid_chars) eqn:E; [reflexivity|].
  now rewrite E.
Qed.

Lemma strip_fixed (s : string) :
  (forall c, first_char s = Some c -> Py.is_space c = false) ->
  (forall c, last_char s = Some c -> Py.is_space c = false) ->
  Py.strip s = s.
Proof.
  intros Hf Hl. unfold Py.strip.
  destruct s as [|a s']; [reflexivity|].
  rewrite (lstrip_id (String a s') a eq_refl (Hf a eq_refl)).
  destruct (last_char (String a s')) as [z|] eqn:E.
  - apply (rstrip_id _ z E (Hl z eq_refl)).
  - exfalso. clear -E. revert a E. induction s' as [|b s IH]; intros a E.
    + discriminate.
    + simpl in E. apply (IH b). exact E.
Qed.

Lemma sanitize_filename_strip (filename : string) :
  sanitize_filename filename =
  Py.strip (let f := map_chars sanitize_char filename in
            if (50 <? String.length f)%nat then Py.take 50 f else f).
Proof. unfold sanitize_filename. now rewrite replace_invalid_chars. Qed.

(** X3.  Sanitizing is idempotent: a sanitized name is left as it is. *)
Theorem sanitize_filename_idempotent (filename : string) :
  sanitize_filename (sanitize_filename filename) = sanitize_filename filename.
Proof.
  set (r := sanitize_filename filename).
  rewrite (sanitize_filename_strip r). cbv zeta.
  pose proof (sanitize_filename_strip filename) as Hr. fold r in Hr.
  cbv zeta in Hr. set (f := map_chars sanitize_char filename) in Hr.
  set (t := if (50 <? String.length f)%nat then Py.take 50 f else f) in Hr.
  assert (Hmap : map_chars sanitize_char r = r).
  { apply map_chars_id. rewrite Hr. unfold Py.strip.
    apply all_chars_rstrip, all_chars_lstrip.
    assert (Hf : all_chars (fun c => Ascii.eqb (sanitize_char c) c) f = true).
    { unfold f. rewrite all_chars_map. apply all_chars_true. intros c.
      rewrite sanitize_char_idem. apply Ascii.eqb_refl. }
    unfold t. destruct (50 <? String.length f)%nat;
      [now apply all_chars_take|exact Hf]. }
  assert (Hlen : (String.length r <= 50)%nat).
  { rewrite Hr. unfold Py.strip.
    pose proof (length_rstrip (Py.lstrip t)). pose proof (length_lstrip t).
    assert (String.length t <= 50)%nat; [|lia].
    unfold t. destruct (Nat.ltb_spec 50 (String.length f));
      [apply length_take|lia]. }
  rewrite Hmap.
  destruct (Nat.ltb_spec 50 (String.length r)); [lia|].
  apply strip_fixed.
  - intros c Hc. rewrite Hr in Hc. unfold Py.strip in Hc.
    apply rstrip_first in Hc. now apply lstrip_first in Hc.
  - intros c Hc. rewrite Hr in Hc. unfold Py.strip in Hc.
    now apply rstrip_last in Hc.
Qed.

End SanitizerAgain.

(** ** Dates *)

Section Dates.

Lemma length_drop (n : nat) (s : string) :
  String.length (Packaging.drop n s) = (String.length s - n)%nat.
Proof.
  revert s. induction n as [|n IH]; intros [|c s]; simpl; try reflexivity.
  apply IH.
Qed.

Lemma length_take_exact (n : nat) (s : string) :
  (n <= String.length s)%nat -> String.length (Py.take n s) = n.
Proof.
  revert s. induction n as [|n IH]; intros [|c s]; simpl; try reflexivity;
    try lia.
  intros H. f_equal. apply IH. lia.
Qed.

Lemma length_append (a b : string) :
  String.length (a +:+ b) = (String.length a + String.length b)%nat.
Proof. induction a as [|c a IH]; simpl; [reflexivity|]. now rewrite IH. Qed.

Lemma take_append_exact (a b : string) :
  Py.take (String.length a) (a +:+ b) = a.
Proof. induction a as [|c a IH]; simpl; [now destruct b|]. now rewrite IH. Qed.

Lemma drop_append_exact (a b : string) :
  Packaging.drop (String.length a) (a +:+ b) = b.
Proof. induction a as [|c a IH]; simpl; [now destruct b|]. exact IH. Qed.

Lemma take_take_drop (n m : nat) (s : string) :
  Py.take n s +:+ Py.take m (Packaging.drop n s) = Py.take (n + m) s.
Proof.
  revert s. induction n as [|n IH]; intros s; simpl.
  - now destruct s.
  - destruct s as [|c s]; [now destruct m|].
    change (String c (Py.take n s +:+ Py.take m (Packaging.drop n s)) =
            String c (Py.take (n + m) s)).
    f_equal. apply IH.
Qed.

Lemma drop_drop (n m : nat) (s : string) :
  Packaging.drop m (Packaging.drop n s) = Packaging.drop (n + m) s.
Proof.
  revert s. induction n as [|n IH]; intros s; simpl; [reflexivity|].
  destruct s as [|c s]; [now destruct m|]. apply IH.
Qed.

Lemma format_driver_date_some (s : string) :
  s <> "" ->
  format_driver_date (Some s) =
  if (8 <=? String.length s)%nat
  then slice 0 4 s +:+ "-" +:+ slice 4 6 s +:+ "-" +:+ slice 6 8 s
  else s.
Proof.
  intros Hs. unfold format_driver_date, truthy, get.
  apply String.eqb_neq in Hs. rewrite Hs. reflexivity.
Qed.

(** X4.  A formatted date is never empty.  A value of at least eight
    characters becomes the ten characters [YYYY-MM-DD] made of its first
    eight, which can be read back from it; a shorter one is returned as it
    is, and a missing or empty one is "Unknown". *)
Theorem format_driver_date_shape (date_str : option string) :
  format_driver_date date_str <> "" /\
  (truthy date_str = false -> format_driver_date date_str = "Unknown") /\
  (forall s, date_str = Some s -> (8 <= String.length s)%nat ->
     String.length (format_driver_date date_str) = 10%nat /\
     slice 4 5 (format_driver_date date_str) = "-" /\
     slice 7 8 (format_driver_date date_str) = "-" /\
     slice 0 4 (format_driver_date date_str)
       +:+ slice 5 7 (format_driver_date date_str)
       +:+ slice 8 10 (format_driver_date date_str) = Py.take 8 s) /\
  (forall s, date_str = Some s -> s <> "" -> (String.length s < 8)%nat ->
     format_driver_date date_str = s).
Proof.
  assert (Hnone : truthy date_str = false ->
                  format_driver_date date_str = "Unknown").
  { intros H. unfold format_driver_date. now rewrite H. }
  split; [|split; [exact Hnone|split]].
  - destruct (truthy date_str) eqn:Et; [|now rewrite Hnone].
    destruct date_str as [s|]; [|discriminate].
    assert (Hs : s <> "").
    { intros ->. discriminate. }
    rewrite (format_driver_date_some s Hs).
    destruct (8 <=? String.length s)%nat; [|exact Hs].
    intros H. apply (f_equal String.length) in H.
    rewrite !length_append in H. simpl in H. lia.
  - intros s -> Hlen.
    assert (Hs : s <> "").
    { intros ->. simpl in Hlen. lia. }
    rewrite (format_driver_date_some s Hs).
    destruct (Nat.leb_spec 8 (String.length s)) as [_|]; [|lia].
    assert (Hy : String.length (slice 0 4 s) = 4%nat).
    { unfold slice. apply length_take_exact. rewrite length_drop. lia. }
    assert (Hm : String.length (slice 4 6 s) = 2%nat).
    { unfold slice. apply length_take_exact. rewrite length_drop. lia. }
    assert (Hd : String.length (slice 6 8 s) = 2%nat).
    { unfold slice. apply length_take_exact. rewrite length_drop. lia. }
    assert (Hall : Py.take 8 s = slice 0 4 s +:+ slice 4 6 s +:+ slice 6 8 s).
    { assert (E1 : Py.take 8 s = Py.take 4 s +:+ Py.take 4 (Packaging.drop 4 s))
        by (symmetry; apply (take_take_drop 4 4 s)).
      assert (E2 : Py.take 4 (Packaging.drop 4 s) =
                   Py.take 2 (Packaging.drop 4 s)
                   +:+ Py.take 2 (Packaging.drop 2 (Packaging.drop 4 s)))
        by (symmetry; apply (take_take_drop 2 2)).
      assert (E3 : Packaging.drop 2 (Packaging.drop 4 s) = Packaging.drop 6 s)
        by apply (drop_drop 4 2 s).
      rewrite E1, E2, E3. reflexivity. }
    rewrite Hall.
    destruct (slice 0 4 s) as [|y0 [|y1 [|y2 [|y3 [|? ?]]]]]; try discriminate.
    destruct (slice 4 6 s) as [|m0 [|m1 [|? ?]]]; try discriminate.
    destruct (slice 6 8 s) as [|d0 [|d1 [|? ?]]]; try discriminate.
    repeat split; reflexivity.
  - intros s -> Hs Hlen. rewrite (format_driver_date_some s Hs).
    destruct (Nat.leb_spec 8 (String.length s)); [lia|reflexivity].
Qed.

End Dates.

(** ** Categories *)

Section Categories.

Lemma categorize_cases (d : Driver) :
  categorize d = "Graphics" \/ categorize d = "Audio" \/
  categorize d = "Network" \/ categorize d = "Storage" \/
  categorize d = "Input" \/ categorize d = "System" \/
  categorize d = "Other".
Proof.
  unfold categorize.
  repeat match goal with
         | |- context [if any_keyword ?k ?a ?b then _ else _] =>
             destruct (any_keyword k a b)
         end; tauto.
Qed.

Lemma categorize_name (d : Driver) : In (categorize d) category_names.
Proof.
  unfold category_names. simpl.
  destruct (categorize_cases d) as [H|[H|[H|[H|[H|[H|H]]]]]]; rewrite H; tauto.
Qed.

Lemma empty_categories_lookup (c : string) :
  empty_categories !! c =
  if decide (In c category_names) then Some [] else None.
Proof.
  destruct (decide (In c category_names)) as [H|H].
  - unfold category_names in H. simpl in H.
    repeat destruct H as [H|H]; try contradiction; subst c;
      vm_compute; reflexivity.
  - unfold empty_categories, category_names in *. simpl in *.
    repeat (rewrite lookup_insert_ne by (intros E; apply H; tauto)).
    apply lookup_empty.
Qed.

Lemma categories_fold (drivers : list Driver)
  (m : gmap string (list Driver)) (acc : string -> list Driver) :
  (forall c, m !! c = if decide (In c category_names) then Some (acc c) else None) ->
  forall c,
    fold_left (fun categories driver =>
                 append_to (categorize driver) driver categories) drivers m !! c =
    if decide (In c category_names)
    then Some (acc c ++ filter (fun d => categorize d = c) drivers)
    else None.
Proof.
  revert m acc. induction drivers as [|d ds IH]; intros m acc Hm c;
    cbn [fold_left].
  - rewrite Hm. destruct (decide _); [now rewrite app_nil_r|reflexivity].
  - rewrite (IH _ (fun c => acc c ++ if decide (categorize d = c) then [d] else [])).
    + destruct (decide (In c category_names)); [|reflexivity].
      rewrite filter_cons.
      destruct (decide (categorize d = c)); rewrite <- app_assoc; reflexivity.
    + intros c'. unfold append_to.
      destruct (decide (categorize d = c')) as [<-|Hne].
      * rewrite lookup_insert_eq, Hm.
        destruct (decide (In (categorize d) category_names)) as [_|Hn];
          [reflexivity|].
        exfalso. apply Hn, categorize_name.
      * rewrite lookup_insert_ne by assumption. rewrite Hm.
        destruct (decide (In c' category_names)); [|reflexivity].
        now rewrite app_nil_r.
Qed.

Lemma categories_lookup (drivers : list Driver) (c : string) :
  get_driver_categories drivers !! c =
  if decide (In c category_names)
  then Some (filter (fun d => categorize d = c) drivers)
  else None.
Proof.
  unfold get_driver_categories.
  rewrite (categories_fold drivers empty_categories (fun _ => [])).
  - reflexivity.
  - apply empty_categories_lookup.
Qed.

Lemma filtered_total (drivers : list Driver) :
  foldr Nat.add 0%nat
    (map (fun c => length (filter (fun d => categorize d = c) drivers))
         category_names) = length drivers.
Proof.
  induction drivers as [|d ds IH]; [reflexivity|].
  unfold category_names in *. simpl map in *. simpl foldr in *.
  rewrite !filter_cons.
  destruct (categorize_cases d) as [H|[H|[H|[H|[H|[H|H]]]]]]; rewrite H;
    repeat match goal with
           | |- context [decide (?a = ?b)] =>
               destruct (decide (a = b)); try discriminate; try congruence
           end; simpl length; lia.
Qed.

(** X5.  The categories partition the records: the dictionary has exactly the
    seven keys, each record is filed under the one category its name and
    hardware id select, every list keeps the input order, and the lists
    together hold as many records as the input. *)
Theorem get_driver_categories_partition (drivers : list Driver) :
  (forall c, In c category_names ->
     get_driver_categories drivers !! c =
     Some (filter (fun d => categorize d = c) drivers)) /\
  (forall c, ~ In c category_names -> get_driver_categories drivers !! c = None) /\
  (forall d, In (categorize d) category_names) /\
  total_categorized (get_driver_categories drivers) = length drivers /\
  (forall d c l, get_driver_categories drivers !! c = Some l ->
     (d ∈ l <-> d ∈ drivers /\ categorize d = c)).
Proof.
  split; [|split; [|split; [|split]]].
  - intros c Hc. rewrite categories_lookup. now destruct (decide _).
  - intros c Hc. rewrite categories_lookup. now destruct (decide _).
  - apply categorize_name.
  - unfold total_categorized. rewrite <- (filtered_total drivers).
    f_equal. apply map_ext_in. intros c Hc.
    rewrite categories_lookup. now destruct (decide _).
  - intros d c l. rewrite categories_lookup.
    destruct (decide _); [|discriminate]. intros [= <-].
    rewrite list_elem_of_filter. tauto.
Qed.

End Categories.

(** ** The cascade for any installer *)

Section ExeCascadeGeneral.

Variable os : oracle.
Variable driver_file : string.

Local Abbreviation att := (exe_attempt driver_file).

Lemma try_silent_outcomes (params : list string) (tr : trace) :
  (try_silent os driver_file params tr = (None, tr ++ map att params) /\
   forall pre q post, params = pre ++ q :: post ->
     success_code (os (tr ++ map att pre) (att q)) = false) \/
  (exists pre p post,
     params = pre ++ p :: post /\
     try_silent os driver_file params tr =
       (Some true, tr ++ map att pre ++ [att p]) /\
     success_code (os (tr ++ map att pre) (att p)) = true /\
     forall pre1 q pre2, pre = pre1 ++ q :: pre2 ->
       success_code (os (tr ++ map att pre1) (att q)) = false).
Proof.
  revert tr. induction params as [|p ps IH]; intros tr.
  - left. split; [simpl; now rewrite app_nil_r|].
    intros [|? ?] q post H; discriminate.
  - destruct (success_code (os tr (att p))) eqn:Hp.
    + right. exists [], p, ps. simpl. rewrite app_nil_r.
      split; [reflexivity|]. split.
      * unfold subprocess_run.
        destruct (os tr (att p)) as [c| |]; simpl in Hp; try discriminate.
        destruct (c =? 0)%Z; [reflexivity|]. simpl in Hp. now rewrite Hp.
      * split; [exact Hp|]. intros [|? ?] q pre2 H; discriminate.
    + assert (Hstep : try_silent os driver_file (p :: ps) tr =
                      try_silent os driver_file ps (tr ++ [att p])).
      { simpl. unfold subprocess_run.
        destruct (os tr (att p)) as [c| |]; simpl in Hp; try reflexivity.
        apply orb_false_iff in Hp as [H0 H1]. now rewrite H0, H1. }
      rewrite Hstep.
      destruct (IH (tr ++ [att p])) as [[E Hall]|(pre & q & post & Hs & E & Hq & Hpre)].
      * left. split; [rewrite E; simpl; now rewrite <- app_assoc|].
        intros [|x pre] q post H; simpl in H; injection H as -> ->.
        -- simpl. now rewrite app_nil_r.
        -- simpl. specialize (Hall pre q post eq_refl).
           now rewrite <- app_assoc in Hall.
      * right. exists (p :: pre), q, post. subst ps.
        split; [reflexivity|]. split; [rewrite E; simpl; now rewrite <- app_assoc|].
        split; [simpl; now rewrite <- app_assoc in Hq|].
        intros [|x pre1] r pre2 H; simpl in H; injection H as -> ->.
        -- simpl. now rewrite app_nil_r.
        -- simpl. specialize (Hpre pre1 r pre2 eq_refl).
           now rewrite <- app_assoc in Hpre.
Qed.

End ExeCascadeGeneral.

(** X6.  Whatever the installer does, the cascade either succeeds at the first
    silent flag whose attempt returns 0 or 3010, having tried the flags
    before it once each, in order, and nothing after it; or it has tried
    all eight flags without such a return code and its result is that of
    the run without flags.  A flag attempt that ends with another return
    code does not stop the cascade. *)
Theorem install_exe_driver_outcomes
  (os : oracle) (driver_file : string) (tr : trace) :
  (exists pre p post,
     silent_params = pre ++ p :: post /\
     install_exe_driver os driver_file tr =
       (true, tr ++ map (exe_attempt driver_file) pre
                 ++ [exe_attempt driver_file p]) /\
     success_code (os (tr ++ map (exe_attempt driver_file) pre)
                      (exe_attempt driver_file p)) = true /\
     forall pre1 q pre2, pre = pre1 ++ q :: pre2 ->
       success_code (os (tr ++ map (exe_attempt driver_file) pre1)
                        (exe_attempt driver_file q)) = false) \/
  (install_exe_driver os driver_file tr =
     (success_code (os (tr ++ map (exe_attempt driver_file) silent_params)
                       (interactive_attempt driver_file)),
      tr ++ map (exe_attempt driver_file) silent_params
         ++ [interactive_attempt driver_file]) /\
   forall pre q post, silent_params = pre ++ q :: post ->
     success_code (os (tr ++ map (exe_attempt driver_file) pre)
                      (exe_attempt driver_file q)) = false).
Proof.
  unfold install_exe_driver.
  destruct (try_silent_outcomes os driver_file silent_params tr)
    as [[E Hall]|(pre & p & post & Hs & E & Hp & Hpre)].
  - right. rewrite E. split; [|exact Hall].
    unfold install_interactive, subprocess_run. rewrite <- app_assoc.
    now destruct (os (tr ++ map (exe_attempt driver_file) silent_params)
                     (interactive_attempt driver_file)).
  - left. exists pre, p, post. rewrite E. auto.
Qed.

(** An installer that always ends with return code 1 is run with every
    flag and once without: a failure code does not end the cascade. *)
Lemma failure_code_continues :
  install_exe_driver (always_exits 1) "setup.exe" [] =
  (false, map (exe_attempt "setup.exe") silent_params
          ++ [interactive_attempt "setup.exe"]).
Proof. reflexivity. Qed.

(** ** What an installation leaves behind *)

Section AppendOnly.

Variable env : Env.

Lemma subprocess_run_trace (o : oracle) (cmd : invocation) (tr : trace) :
  snd (subprocess_run o cmd tr) = tr ++ [cmd].
Proof. reflexivity. Qed.

Lemma try_silent_prefix (o : oracle) (f : string) (params : list string)
  (tr : trace) :
  tr `prefix_of` snd (try_silent o f params tr).
Proof.
  revert tr. induction params as [|p ps IH]; intros tr; simpl.
  - reflexivity.
  - unfold subprocess_run.
    assert (H : tr `prefix_of` snd (try_silent o f ps (tr ++ [exe_attempt f p]))).
    { etransitivity; [apply prefix_app_r; reflexivity|apply IH]. }
    destruct (o tr (exe_attempt f p)) as [c| |]; try exact H.
    destruct (c =? 0)%Z; [simpl; now apply prefix_app_r|].
    destruct (c =? 3010)%Z; [simpl; now apply prefix_app_r|exact H].
Qed.

Lemma install_exe_driver_prefix (o : oracle) (f : string) (tr : trace) :
  tr `prefix_of` snd (install_exe_driver o f tr).
Proof.
  unfold install_exe_driver.
  pose proof (try_silent_prefix o f silent_params tr) as H.
  destruct (try_silent o f silent_params tr) as [[b|] tr']; simpl in *;
    [exact H|].
  unfold install_interactive, subprocess_run.
  etransitivity; [exact H|].
  destruct (o tr' (interactive_attempt f)); simpl; now apply prefix_app_r.
Qed.

Lemma install_driver_file_prefix (o : oracle) (f : string) (tr : trace) :
  tr `prefix_of` snd (install_driver_file o f tr).
Proof.
  unfold install_driver_file.
  destruct (String.eqb _ ".exe"); [apply install_exe_driver_prefix|].
  destruct (String.eqb _ ".msi").
  { unfold install_msi_driver, subprocess_run.
    destruct (o tr _); simpl; now apply prefix_app_r. }
  destruct (String.eqb _ ".inf"); [|reflexivity].
  unfold install_inf_driver, subprocess_run.
  destruct (o tr _); simpl; now apply prefix_app_r.
Qed.

Lemma download_driver_keeps (update : Update) (path : string) (w : World) :
  ran (snd (download_driver env update path w)) = ran w /\
  dom (files w) ⊆ dom (files (snd (download_driver env update path w))).
Proof.
  unfold download_driver.
  destruct (download_url update) as [url|]; [|split; reflexivity].
  destruct (_ || _); [split; reflexivity|].
  destruct (fetch env url); [|split; reflexivity].
  split; [reflexivity|]. simpl. apply dom_insert_subseteq.
Qed.

Lemma install_single_update_keeps (update : Update) (w : World) :
  ran w `prefix_of` ran (snd (install_single_update env update w)) /\
  dom (files w) ⊆ dom (files (snd (install_single_update env update w))).
Proof.
  unfold install_single_update.
  destruct (negb _); [split; reflexivity|].
  destruct (String.eqb _ "windows_update").
  { unfold install_via_windows_update, subprocess_run.
    destruct (os env (ran w) _); simpl;
      (split; [now apply prefix_app_r|reflexivity]). }
  destruct (String.eqb _ "generic_update"); [split; reflexivity|].
  unfold download_driver_file.
  pose proof (download_driver_keeps update
                (path_join (temp_dir env) (generate_driver_filename update)) w)
    as [Hr Hf].
  destruct (download_driver env update _ w) as [[|] w1]; simpl in Hr, Hf.
  - destruct (verify_download _ _ _); simpl.
    + unfold backup_current_driver, subprocess_run. simpl.
      pose proof (install_driver_file_prefix (os env)
                    (path_join (temp_dir env) (generate_driver_filename update))
                    (ran w1 ++ [mkInvocation
                       ["pnputil"; "/export-driver"; "*";
                        path_join (path_join (temp_dir env) "driver_backups")
                          (sanitize_filename (get (u_device_name update) "Unknown"))]
                       60])) as Hp.
      destruct (install_driver_file _ _ _) as [ok tr]. simpl in *.
      split; [|exact Hf].
      rewrite <- Hr. etransitivity; [|exact Hp]. now apply prefix_app_r.
    + simpl. split; [now rewrite Hr|exact Hf].
  - simpl. split; [now rewrite Hr|exact Hf].
Qed.

Lemma batch_outcomes_keeps (updates : list Update) (w : World) :
  let w' := snd (batch_outcomes
                   (fun update w =>
                      let '(ok, w') := install_single_update env update w in
                      (Ret ok, w')) updates w) in
  ran w `prefix_of` ran w' /\ dom (files w) ⊆ dom (files w').
Proof.
  revert w. induction updates as [|u us IH]; intros w; simpl.
  - split; reflexivity.
  - pose proof (install_single_update_keeps u w) as [Hr Hf].
    destruct (install_single_update env u w) as [ok w1]. simpl in Hr, Hf.
    specialize (IH w1). simpl in IH.
    destruct (batch_outcomes _ us w1) as [outs w2]. simpl in *.
    destruct IH as [Hr' Hf'].
    split; [now transitivity (ran w1)|now transitivity (dom (files w1))].
Qed.

End AppendOnly.

(** X7.  A batch only adds to what was there: the programs run before it stay
    at the head of the record, the first program it runs is the creation of
    the restore point, and no downloaded file is forgotten.  An empty batch
    still asks for the restore point and installs nothing. *)
Theorem install_updates_append_only (env : Env) (updates : list Update)
  (w : World) :
  (ran w ++ [batch_restore_point env])
    `prefix_of` ran (snd (install_updates env updates w)) /\
  dom (files w) ⊆ dom (files (snd (install_updates env updates w))) /\
  install_updates env [] w =
    (0%nat, [], mkWorld (files w) (ran w ++ [batch_restore_point env])).
Proof.
  assert (Hrp : snd (create_restore_point env
                       "Driver Updater - Batch Installation" w) =
                mkWorld (files w) (ran w ++ [batch_restore_point env])).
  { unfold create_restore_point, subprocess_run, batch_restore_point.
    now destruct (os env (ran w) _). }
  unfold install_updates. rewrite install_updates_with_spec. simpl.
  rewrite Hrp.
  pose proof (batch_outcomes_keeps env updates
                (mkWorld (files w) (ran w ++ [batch_restore_point env])))
    as [Hr Hf].
  split; [exact Hr|]. split; [exact Hf|].
  unfold install_updates_with. simpl.
  now destruct (create_restore_point env _ w) eqn:E; simpl in Hrp; subst.
Qed.

(** ** Downloads *)

Section Downloads.

Lemma append_cons (c : ascii) (a b : string) :
  String c a +:+ b = String c (a +:+ b).
Proof. reflexivity. Qed.

Lemma append_assoc_s (a b c : string) : (a +:+ b) +:+ c = a +:+ (b +:+ c).
Proof.
  induction a as [|x a IH]; [reflexivity|].
  rewrite !append_cons. f_equal. exact IH.
Qed.

Lemma endswith_app (p a : string) : Py.endswith p (a +:+ p) = true.
Proof.
  induction a as [|c a IH].
  - simpl. destruct p; simpl; [reflexivity|].
    now rewrite Ascii.eqb_refl, String.eqb_refl.
  - change (String c a +:+ p) with (String c (a +:+ p)).
    cbn [Py.endswith]. rewrite IH. apply orb_true_r.
Qed.

Lemma lower_app (a b : string) :
  Py.lower (a +:+ b) = Py.lower a +:+ Py.lower b.
Proof.
  induction a as [|c a IH]; [reflexivity|].
  rewrite append_cons. simpl. rewrite append_cons. f_equal. exact IH.
Qed.

Lemma path_join_suffix (root file : string) :
  exists x, path_join root file = x +:+ file.
Proof.
  unfold path_join. destruct (last_char root) as [c|].
  - destruct (is_path_sep c); [now exists root|].
    exists (root +:+ "\"). now rewrite append_assoc_s.
  - now exists "".
Qed.

Lemma generate_driver_filename_exe (update : Update) :
  exists y, generate_driver_filename update = y +:+ ".exe".
Proof.
  unfold generate_driver_filename.
  exists (sanitize_filename (get (u_manufacturer update) "Unknown") +:+ "_"
          +:+ sanitize_filename (get (u_device_name update) "Unknown") +:+ "_"
          +:+ get (new_version update) "1.0.0.0").
  now rewrite !append_assoc_s.
Qed.

Lemma download_path_extension (env : Env) (update : Update) :
  installer_extension (download_path env update) = true.
Proof.
  unfold download_path, installer_extension.
  destruct (path_join_suffix (temp_dir env) (generate_driver_filename update))
    as [x ->].
  destruct (generate_driver_filename_exe update) as [y ->].
  rewrite <- append_assoc_s, lower_app.
  change (Py.lower ".exe") with ".exe". now rewrite endswith_app.
Qed.

(** X8.  A download is handed on exactly when the address is an ordinary one,
    the fetch succeeds and the size fetched passes the size test: the
    name the file is stored under always ends in [.exe], so the extension
    test of the verification never rejects it. *)
Theorem download_driver_file_accepts (env : Env) (update : Update)
  (w w' : World) (p : string) :
  installer_extension (download_path env update) = true /\
  (download_driver_file env update w = (Some p, w') <->
   exists url size,
     download_url update = Some url /\
     url <> "" /\ url <> "windows_update" /\ url <> "generic_update" /\
     fetch env url = Some size /\
     p = download_path env update /\
     w' = mkWorld (<[download_path env update := size]> (files w)) (ran w) /\
     (forall expected_bytes,
         truthy (download_size update) = true ->
         parse_size_string (get (download_size update) "") = Some expected_bytes ->
         expected_bytes <> 0%Z ->
         exceeds_tolerance size expected_bytes = Ret false)).
Proof.
  split; [apply download_path_extension|].
  unfold download_driver_file, download_driver.
  fold (download_path env update).
  destruct (download_url update) as [url|].
  2: { split; [discriminate|]. intros (u & s & H & _). discriminate. }
  destruct (String.eqb_spec url "") as [->|H1]; simpl.
  { split; [discriminate|]. intros (u & s & [= <-] & H & _). contradiction. }
  destruct (String.eqb_spec url "windows_update") as [->|H2]; simpl.
  { split; [discriminate|]. intros (u & s & [= <-] & _ & H & _). contradiction. }
  destruct (String.eqb_spec url "generic_update") as [->|H3]; simpl.
  { split; [discriminate|]. intros (u & s & [= <-] & _ & _ & H & _). contradiction. }
  destruct (fetch env url) as [size|] eqn:Hf.
  2: { split; [discriminate|].
       intros (u & s & [= <-] & _ & _ & _ & H & _). congruence. }
  simpl.
  destruct (verify_download _ (download_path env update) (download_size update))
    eqn:Hv.
  - apply verify_download_char in Hv as (sz & Hsz & _ & Hsize).
    rewrite lookup_insert_eq in Hsz. injection Hsz as <-.
    split.
    + intros [= <- <-]. exists url, size. repeat split; assumption.
    + intros (u & s & [= <-] & _ & _ & _ & Hs & -> & -> & _).
      rewrite Hf in Hs. injection Hs as <-. reflexivity.
  - split; [discriminate|].
    intros (u & s & [= <-] & _ & _ & _ & Hs & _ & _ & Hsize).
    rewrite Hf in Hs. injection Hs as <-.
    assert (verify_download
              (fun p0 => <[download_path env update:=size]> (files w) !! p0)
              (download_path env update) (download_size update) = true);
      [|congruence].
    apply verify_download_char. exists size.
    split; [apply lookup_insert_eq|].
    split; [apply download_path_extension|exact Hsize].
Qed.

End Downloads.

(** ** The strategies *)

Section Strategies.







Lemma run_strategy_fields (k : strategy) (driver : Driver) (rnd : spec_float)
  (u : Update) :
  run_strategy k driver rnd = Some u ->
  u_device_name u = device_name driver /\
  current_version u = Some (get (version driver) "0.0.0.0") /\
  new_version u =
    Some (generate_mock_version (get (version driver) "0.0.0.0")) /\
  status u = Some "Available".
Proof.
  destruct k; simpl;
    unfold check_nvidia_updates, check_amd_updates, check_intel_updates,
      check_realtek_updates, check_microsoft_updates, check_generic_updates;
    intros H;
    repeat match type of H with
           | (if ?c then _ else _) = Some _ => destruct c eqn:?; try discriminate
           | match ?c with Some _ => _ | None => _ end = Some _ =>
               destruct c eqn:?; try discriminate
           end;
    injection H as <-; repeat split; reflexivity.
Qed.

Lemma check_for_updates_kept (drivers : list Driver) (draws : list spec_float) :
  exists kept,
    sublist kept drivers /\
    Forall2 (fun d u =>
               u_device_name u = device_name d /\
               current_version u = Some (get (version d) "0.0.0.0") /\
               new_version u =
                 Some (generate_mock_version (get (version d) "0.0.0.0")))
            kept (check_for_updates drivers draws).
Proof.
  revert draws. induction drivers as [|d ds IH]; intros draws; simpl.
  - exists []. split; constructor.
  - destruct (IH (tl draws)) as (kept & Hsub & Hall).
    destruct (check_driver_update d (hd (S754_zero false) draws)) as [u|] eqn:E.
    + exists (d :: kept). split; [now apply sublist_skip|].
      constructor; [|exact Hall].
      unfold check_driver_update in E.
      apply run_strategy_fields in E. tauto.
    + exists kept. split; [now apply sublist_cons|exact Hall].
Qed.

(** X10.  The resolver returns at most one candidate per record, in the order
    of the records: the candidates are those of a sub-list of the input,
    each carrying the device name and the version of its record and the
    version [_generate_mock_version] builds from it. *)
Theorem check_for_updates_in_order (drivers : list Driver)
  (draws : list spec_float) :
  (exists kept,
      sublist kept drivers /\
      Forall2 (fun d u =>
                 u_device_name u = device_name d /\
                 current_version u = Some (get (version d) "0.0.0.0") /\
                 new_version u =
                   Some (generate_mock_version (get (version d) "0.0.0.0")))
              kept (check_for_updates drivers draws)) /\
  (length (check_for_updates drivers draws) <= length drivers)%nat /\
  sublist (map u_device_name (check_for_updates drivers draws))
          (map device_name drivers).
Proof.
  destruct (check_for_updates_kept drivers draws) as (kept & Hsub & Hall).
  split; [now exists kept|].
  split.
  - rewrite <- (Forall2_length _ _ _ Hall). now apply sublist_length.
  - assert (E : map u_device_name (check_for_updates drivers draws) =
                map device_name kept).
    { clear Hsub. induction Hall as [|d u k us (H1 & _) _ IH];
        [reflexivity|]. simpl. now rewrite H1, IH. }
    rewrite E. clear -Hsub.
    induction Hsub; simpl; constructor; assumption.
Qed.

End Strategies.

(** ** Decimal numerals *)

Section Numerals.

Lemma digits_value_app (a : N) (x y : string) :
  Py.digits_value a (x +:+ y) = Py.digits_value (Py.digits_value a x) y.
Proof.
  revert a. induction x as [|c x IH]; intros a; [reflexivity|].
  rewrite append_cons. simpl. apply IH.
Qed.

Lemma all_digits_app (x y : string) :
  Py.all_digits (x +:+ y) = Py.all_digits x && Py.all_digits y.
Proof.
  induction x as [|c x IH]; [reflexivity|].
  rewrite append_cons. simpl. now rewrite IH, andb_assoc.
Qed.

Lemma digit_char (k : N) :
  (k < 10)%N ->
  Py.is_digit (ascii_of_N (48 + k)) = true /\
  Py.digit_val (ascii_of_N (48 + k)) = k.
Proof.
  intros Hk. unfold Py.is_digit, Py.digit_val, Py.code.
  rewrite N_ascii_embedding by lia.
  split; [|lia].
  apply andb_true_iff. split; apply N.leb_le; lia.
Qed.

Lemma str_pos_fuel_step (f : nat) (n : N) (acc : string) :
  Py.str_pos_fuel (S f) n acc =
  if (n <? 10)%N then String (ascii_of_N (48 + n mod 10)) acc
  else Py.str_pos_fuel f (n / 10)%N (String (ascii_of_N (48 + n mod 10)) acc).
Proof. reflexivity. Qed.

(** The digits [str_pos_fuel] puts in front of [acc], given enough fuel. *)
Lemma str_pos_fuel_spec (f : nat) (n : N) (acc : string) :
  (n < 2 ^ N.of_nat (S f))%N ->
  exists ds,
    Py.str_pos_fuel (S f) n acc = ds +:+ acc /\
    ds <> "" /\ Py.all_digits ds = true /\
    forall a, Py.digits_value a ds =
              (a * 10 ^ N.of_nat (String.length ds) + n)%N.
Proof.
  revert n acc. induction f as [|f IH]; intros n acc Hn.
  - assert (Hlt : (n < 10)%N) by (simpl in Hn; lia).
    exists (String (ascii_of_N (48 + n mod 10)) "").
    rewrite str_pos_fuel_step. apply N.ltb_lt in Hlt as Hb. rewrite Hb.
    rewrite N.mod_small by lia.
    destruct (digit_char n Hlt) as [Hd Hv].
    split; [reflexivity|]. split; [discriminate|].
    split; [simpl; now rewrite Hd|].
    intros a. simpl. rewrite Hv. lia.
  - rewrite str_pos_fuel_step.
    assert (Hm : (n mod 10 < 10)%N) by (apply N.mod_lt; lia).
    destruct (digit_char (n mod 10) Hm) as [Hd Hv].
    destruct (N.ltb_spec n 10) as [Hlt|Hge].
    + exists (String (ascii_of_N (48 + n mod 10)) "").
      split; [reflexivity|]. split; [discriminate|].
      split; [simpl; now rewrite Hd|].
      intros a. simpl. rewrite Hv, N.mod_small by lia. lia.
    + assert (Hdiv : (n / 10 < 2 ^ N.of_nat (S f))%N).
      { apply N.Div0.div_lt_upper_bound.
        rewrite Nat2N.inj_succ, N.pow_succ_r' in Hn.
        rewrite Nat2N.inj_succ, N.pow_succ_r' in *. lia. }
      destruct (IH (n / 10)%N (String (ascii_of_N (48 + n mod 10)) acc) Hdiv)
        as (ds & E & Hne & Hall & Hval).
      exists (ds +:+ String (ascii_of_N (48 + n mod 10)) "").
      rewrite E. split; [now rewrite append_assoc_s|].
      split; [destruct ds; [contradiction|discriminate]|].
      split; [rewrite all_digits_app, Hall; simpl; now rewrite Hd|].
      intros a. rewrite digits_value_app, Hval. simpl. rewrite Hv.
      rewrite length_append. simpl.
      rewrite Nat.add_1_r, Nat2N.inj_succ, N.pow_succ_r'.
      pose proof (N.div_mod n 10). lia.
Qed.

Lemma str_N_spec (n : N) :
  Py.str_N n <> "" /\ Py.all_digits (Py.str_N n) = true /\
  Py.digits_value 0 (Py.str_N n) = n.
Proof.
  unfold Py.str_N.
  destruct (str_pos_fuel_spec (N.to_nat (N.log2 n)) n "") as (ds & E & Hne & Hall & Hval).
  - rewrite Nat2N.inj_succ, N2Nat.id.
    destruct n as [|p]; [reflexivity|].
    apply N.log2_spec. lia.
  - rewrite E.
    assert (Hnil : ds +:+ "" = ds).
    { clear. induction ds as [|c ds IH]; [reflexivity|].
      rewrite append_cons. now rewrite IH. }
    rewrite Hnil. split; [exact Hne|]. split; [exact Hall|].
    rewrite Hval. lia.
Qed.

Lemma all_digits_first (t : string) :
  Py.all_digits t = true -> t <> "" ->
  (exists c, first_char t = Some c /\ Py.is_digit c = true) /\
  (exists c, last_char t = Some c /\ Py.is_digit c = true).
Proof.
  intros Hall Hne. split.
  - destruct t as [|c t]; [contradiction|]. exists c.
    simpl in Hall. apply andb_true_iff in Hall as [Hc _]. now split.
  - induction t as [|c t IH]; [contradiction|].
    simpl in Hall. apply andb_true_iff in Hall as [Hc Ht].
    destruct t as [|b t'].
    + exists c. now split.
    + destruct (IH Ht) as (z & Hz & Hd); [discriminate|].
      exists z. split; [exact Hz|exact Hd].
Qed.

Lemma int_body_digits (b : bool) (acc : N) (t : string) :
  Py.all_digits t = true -> t <> "" ->
  Py.int_body b acc t = Some (Py.digits_value acc t).
Proof.
  revert b acc. induction t as [|c t IH]; intros b acc Hall Hne;
    [contradiction|].
  simpl in Hall. apply andb_true_iff in Hall as [Hc Ht].
  simpl. rewrite Hc. destruct t as [|d t']; [reflexivity|].
  apply IH; [exact Ht|discriminate].
Qed.

Lemma digit_not_sign (c : ascii) (r : string) :
  Py.is_digit c = true ->
  match String c r with
  | String "-" r' => (true, r')
  | String "+" r' => (false, r')
  | _ => (false, String c r)
  end = (false, String c r).
Proof.
  destruct c as [[] [] [] [] [] [] [] []]; try reflexivity; discriminate.
Qed.

Lemma lstrip_by_id (p : ascii -> bool) (s : string) (c : ascii) :
  first_char s = Some c -> p c = false -> Py.lstrip_by p s = s.
Proof.
  destruct s as [|a s]; [discriminate|]. simpl. intros [= ->] H.
  now rewrite H.
Qed.

Lemma rstrip_by_id (p : ascii -> bool) (s : string) (c : ascii) :
  last_char s = Some c -> p c = false -> Py.rstrip_by p s = s.
Proof.
  induction s as [|a s IH]; simpl; [discriminate|].
  destruct s as [|b s'].
  - intros [= ->] Hc. simpl. now rewrite Hc.
  - intros Hl Hc. rewrite (IH Hl Hc). reflexivity.
Qed.

Lemma digit_not_int_space (c : ascii) :
  Py.is_digit c = true -> Py.is_int_space c = false.
Proof.
  unfold Py.is_digit, Py.is_int_space. cbv zeta.
  rewrite andb_true_iff, !N.leb_le. intros [H1 H2].
  rewrite !orb_false_iff, !andb_false_iff, !N.leb_gt, !N.eqb_neq. lia.
Qed.

(** [int] reads a run of digits as its value. *)
Lemma int_digits (t : string) :
  Packaging.nonempty_digits t = true ->
  Py.int t = Ret (Z.of_N (Py.digits_value 0 t)).
Proof.
  unfold Packaging.nonempty_digits. rewrite andb_true_iff, negb_true_iff.
  intros [Hne Hall]. apply String.eqb_neq in Hne.
  destruct (all_digits_first t Hall Hne) as [(a & Ha & Hda) (z & Hz & Hdz)].
  unfold Py.int.
  rewrite (lstrip_by_id _ t a Ha (digit_not_int_space a Hda)).
  rewrite (rstrip_by_id _ t z Hz (digit_not_int_space z Hdz)).
  destruct t as [|c r]; [contradiction|]. injection Ha as ->.
  rewrite (digit_not_sign a r Hda).
  now rewrite (int_body_digits false 0 (String a r) Hall Hne).
Qed.

(** [int(str(n))] is [n]. *)
Lemma int_str_N (n : N) : Py.int (Py.str_N n) = Ret (Z.of_N n).
Proof.
  destruct (str_N_spec n) as (Hne & Hall & Hval).
  rewrite int_digits; [now rewrite Hval|].
  unfold Packaging.nonempty_digits. rewrite Hall.
  apply String.eqb_neq in Hne. now rewrite Hne.
Qed.

End Numerals.

(** ** The mock version *)

Section MockVersion.

Lemma split_on_app (sep : ascii) (a b : string) :
  all_chars (fun c => negb (Ascii.eqb c sep)) a = true ->
  Py.split_on sep (a +:+ String sep b) = a :: Py.split_on sep b.
Proof.
  induction a as [|c a IH]; intros Ha.
  - change ("" +:+ String sep b) with (String sep b).
    cbn [Py.split_on]. now rewrite Ascii.eqb_refl.
  - simpl in Ha. apply andb_true_iff in Ha as [Hc Ha].
    rewrite append_cons. cbn [Py.split_on].
    apply negb_true_iff in Hc. rewrite Hc, (IH Ha). reflexivity.
Qed.

Lemma digits_no_dot (t : string) :
  Py.all_digits t = true ->
  all_chars (fun c => negb (Ascii.eqb c ".")) t = true.
Proof.
  induction t as [|c t IH]; simpl; [reflexivity|].
  rewrite !andb_true_iff. intros [Hc Ht]. split; [|now apply IH].
  apply negb_true_iff, Ascii.eqb_neq. intros ->. discriminate.
Qed.

Lemma str_Z_of_N (n : N) : Py.str_Z (Z.of_N n) = Py.str_N n.
Proof. destruct n; reflexivity. Qed.

Lemma str_N_token (n : N) : Packaging.nonempty_digits (Py.str_N n) = true.
Proof.
  destruct (str_N_spec n) as (Hne & Hall & _).
  unfold Packaging.nonempty_digits. rewrite Hall.
  apply String.eqb_neq in Hne. now rewrite Hne.
Qed.

(** A string of four numerals separated by dots is the dotted version of
    the four numbers. *)
Lemma dotted_of_numerals (a b c d : N) :
  dotted (Py.str_N a +:+ "." +:+ Py.str_N b +:+ "." +:+ Py.str_N c +:+ "."
          +:+ Py.str_N d) = Some [a; b; c; d].
Proof.
  unfold dotted, Packaging.release_segment.
  set (R := Py.str_N a +:+ "." +:+ Py.str_N b +:+ "." +:+ Py.str_N c +:+ "."
            +:+ Py.str_N d).
  assert (Hs : Py.split_on "." R =
               [Py.str_N a; Py.str_N b; Py.str_N c; Py.str_N d]).
  { subst R.
    change (Py.split_on "."
              (Py.str_N a +:+ String "." (Py.str_N b +:+ String "."
                 (Py.str_N c +:+ String "." (Py.str_N d)))) =
            [Py.str_N a; Py.str_N b; Py.str_N c; Py.str_N d]).
    destruct (str_N_spec a) as (_ & Ha & _), (str_N_spec b) as (_ & Hb & _),
      (str_N_spec c) as (_ & Hc & _), (str_N_spec d) as (_ & Hd & _).
    rewrite !split_on_app by now apply digits_no_dot.
    now rewrite split_on_absent by now apply digits_no_dot. }
  rewrite Hs. cbn [forallb map]. rewrite !str_N_token. cbn [andb].
  destruct (str_N_spec a) as (_ & _ & ->), (str_N_spec b) as (_ & _ & ->),
    (str_N_spec c) as (_ & _ & ->), (str_N_spec d) as (_ & _ & ->).
  reflexivity.
Qed.

Lemma generate_mock_version_parts (v p0 p1 : string) (rest : list string) :
  Py.split_on "." v = p0 :: p1 :: rest ->
  forallb Packaging.nonempty_digits (p0 :: p1 :: rest) = true ->
  generate_mock_version v =
  Py.str_N (Py.digits_value 0 p0) +:+ "."
  +:+ Py.str_N (Py.digits_value 0 p1) +:+ "."
  +:+ Py.str_N (nth 0 (map (Py.digits_value 0) rest) 0%N + 1) +:+ "."
  +:+ Py.str_N (nth 1 (map (Py.digits_value 0) rest) 0%N).
Proof.
  intros Hs Hall. cbn [forallb] in Hall.
  apply andb_true_iff in Hall as [H0 Hall].
  apply andb_true_iff in Hall as [H1 Hall].
  unfold generate_mock_version. rewrite Hs.
  cbn [length Nat.leb nth]. rewrite (int_digits p0 H0), (int_digits p1 H1).
  cbn [bind].
  destruct rest as [|p2 [|p3 rest]].
  - cbn [length Nat.ltb Nat.leb bind try_except map nth].
    change (0 + 1)%Z with (Z.of_N (0 + 1)). change 0%Z with (Z.of_N 0).
    now rewrite !str_Z_of_N.
  - cbn [forallb] in Hall. apply andb_true_iff in Hall as [H2 _].
    cbn [length Nat.ltb Nat.leb nth]. rewrite (int_digits p2 H2).
    cbn [bind try_except map nth].
    replace (Z.of_N (Py.digits_value 0 p2) + 1)%Z
      with (Z.of_N (Py.digits_value 0 p2 + 1)) by lia.
    change 0%Z with (Z.of_N 0). now rewrite !str_Z_of_N.
  - cbn [forallb] in Hall. apply andb_true_iff in Hall as [H2 Hall].
    apply andb_true_iff in Hall as [H3 _].
    cbn [length Nat.ltb Nat.leb nth].
    rewrite (int_digits p2 H2), (int_digits p3 H3).
    cbn [bind try_except map nth].
    replace (Z.of_N (Py.digits_value 0 p2) + 1)%Z
      with (Z.of_N (Py.digits_value 0 p2 + 1)) by lia.
    now rewrite !str_Z_of_N.
Qed.

Lemma bumped_components_newer (a b : N) (rest : list N) :
  cmp_components [a; b; (nth 0 rest 0 + 1)%N; nth 1 rest 0%N] (a :: b :: rest)
  = Gt.
Proof.
  unfold cmp_components, pad.
  assert (Hgt : forall c : N, (c + 1 ?= c)%N = Gt)
    by (intros c; apply N.compare_gt_iff; lia).
  destruct rest as [|c rest]; cbn [nth app Py.cmp_seq length Nat.max Nat.sub repeat].
  - rewrite !N.compare_refl. reflexivity.
  - rewrite !N.compare_refl, Hgt. reflexivity.
Qed.

(** X11.  For a current version made of at least two dot-separated numbers the
    mock version is the first two numbers, the third plus one and the
    fourth (missing ones read as zero), and it is newer than the current
    version; so for such a version every candidate of the resolver, the
    unguarded strategies' included, is newer than what it replaces. *)
Theorem mock_version_newer (v : string) (l : list N) :
  dotted v = Some l -> (2 <= length l)%nat ->
  dotted (generate_mock_version v) =
    Some [nth 0 l 0; nth 1 l 0; nth 2 l 0 + 1; nth 3 l 0]%N /\
  is_version_newer (generate_mock_version v) v = true /\
  (forall driver rnd u,
      version driver = Some v ->
      check_driver_update driver rnd = Some u ->
      candidate_newer u = true).
Proof.
  intros Hv Hlen.
  assert (Hparts : exists p0 p1 rest,
             Py.split_on "." v = p0 :: p1 :: rest /\
             forallb Packaging.nonempty_digits (p0 :: p1 :: rest) = true /\
             l = Py.digits_value 0 p0 :: Py.digits_value 0 p1
                 :: map (Py.digits_value 0) rest).
  { unfold dotted, Packaging.release_segment in Hv.
    destruct (forallb Packaging.nonempty_digits (Py.split_on "." v)) eqn:F;
      [|discriminate].
    injection Hv as <-.
    destruct (Py.split_on "." v) as [|p0 [|p1 rest]]; simpl in Hlen; try lia.
    exists p0, p1, rest. repeat split. exact F. }
  destruct Hparts as (p0 & p1 & rest & Hs & Hall & ->).
  rewrite (generate_mock_version_parts v p0 p1 rest Hs Hall).
  set (a := Py.digits_value 0 p0). set (b := Py.digits_value 0 p1).
  set (r := map (Py.digits_value 0) rest).
  assert (Hd : dotted (Py.str_N a +:+ "." +:+ Py.str_N b +:+ "."
                       +:+ Py.str_N (nth 0 r 0%N + 1) +:+ "."
                       +:+ Py.str_N (nth 1 r 0%N)) =
               Some [a; b; (nth 0 r 0 + 1)%N; nth 1 r 0%N])
    by apply dotted_of_numerals.
  assert (Hnew : is_version_newer
                   (Py.str_N a +:+ "." +:+ Py.str_N b +:+ "."
                    +:+ Py.str_N (nth 0 r 0%N + 1) +:+ "."
                    +:+ Py.str_N (nth 1 r 0%N)) v = true).
  { unfold is_version_newer.
    rewrite (is_version_newer_dotted _ v _ _ Hd Hv).
    now rewrite bumped_components_newer. }
  split; [exact Hd|]. split; [exact Hnew|].
  intros driver rnd u Hver Hu. unfold check_driver_update in Hu.
  apply run_strategy_fields in Hu as (_ & Hc & Hn & _).
  unfold candidate_newer. rewrite Hc, Hn, Hver. simpl get.
  rewrite (generate_mock_version_parts v p0 p1 rest Hs Hall). exact Hnew.
Qed.

Lemma mock_version_newer_witness :
  dotted (generate_mock_version "30.0.15.1179") = Some [30; 0; 16; 1179]%N /\
  is_version_newer (generate_mock_version "30.0.15.1179") "30.0.15.1179" = true.
Proof.
  split.
  - apply (proj1 (mock_version_newer "30.0.15.1179" [30; 0; 15; 1179]%N
                    eq_refl (le_S _ _ (le_S _ _ (le_n 2))))).
  - apply (proj1 (proj2 (mock_version_newer "30.0.15.1179" [30; 0; 15; 1179]%N
                           eq_refl (le_S _ _ (le_S _ _ (le_n 2)))))).
Defined.

End MockVersion.

(** ** Sizes *)

Section Sizes.

Lemma binary_round_aux_sign (mx ex : Z) (lx : location) :
  not_negative (binary_round_aux Float.prec Float.emax false mx ex lx).
Proof.
  unfold binary_round_aux.
  destruct (shr_fexp Float.prec Float.emax mx ex lx) as [mrs' e'].
  destruct (shr_fexp Float.prec Float.emax _ e' loc_Exact) as [mrs'' e''].
  destruct (shr_m mrs''); simpl; auto.
  destruct (Z.leb e'' _); simpl; auto.
Qed.

Lemma of_decimal_sign (ip fp : string) :
  not_negative (Float.of_decimal ip fp).
Proof.
  unfold Float.of_decimal.
  destruct (Py.digits_value 0 (ip ++ fp)); simpl; [exact I|].
  destruct (SFdiv_core_binary Float.prec Float.emax _ 0 _ 0) as [[mz ez] lz].
  apply binary_round_aux_sign.
Qed.

Lemma of_Z_sign (z : Z) (f : spec_float) :
  (0 <= z)%Z -> Float.of_Z z = Ret f -> not_negative f.
Proof.
  unfold Float.of_Z, binary_normalize. intros Hz.
  destruct z as [|p|p]; [| |lia].
  - intros [= <-]. exact I.
  - unfold binary_round.
    destruct (shl_align p 0 _) as [mz ez].
    pose proof (binary_round_aux_sign (Zpos mz) ez loc_Exact) as H.
    destruct (binary_round_aux _ _ false (Zpos mz) ez loc_Exact);
      intros [= <-]; exact H.
Qed.

Lemma mul_sign (x y : spec_float) :
  not_negative x -> not_negative y -> not_negative (Float.mul x y).
Proof.
  unfold Float.mul, SFmul.
  destruct x as [sx|sx| |sx mx ex], y as [sy|sy| |sy my ey]; simpl;
    try tauto;
    try (destruct sx; try tauto; destruct sy; simpl; tauto).
  destruct sx; [tauto|]. destruct sy; [tauto|]. intros _ _.
  apply binary_round_aux_sign.
Qed.

Lemma to_Z_nonneg (f : spec_float) (n : Z) :
  not_negative f -> Float.to_Z f = Ret n -> (0 <= n)%Z.
Proof.
  destruct f as [s|s| |s m e]; simpl; try discriminate.
  - intros _ [= <-]. lia.
  - destruct s; [tauto|]. intros _ [= <-].
    destruct e as [|k|k].
    + apply Z.shiftl_nonneg. lia.
    + apply Z.shiftl_nonneg. lia.
    + apply Z.shiftr_nonneg. lia.
Qed.

Lemma multiplier_pos (unit : string) : (0 <= multiplier unit)%Z.
Proof.
  unfold multiplier.
  repeat match goal with
         | |- context [String.eqb ?a ?b] => destruct (String.eqb a b)
         end; lia.
Qed.

(** X12.  The number of bytes read from a size string is never negative. *)
Theorem parse_size_string_nonneg (size_str : string) (n : Z) :
  parse_size_string size_str = Some n -> (0 <= n)%Z.
Proof.
  unfold parse_size_string.
  destruct (search_size size_str) as [[[ip fp] unit]|]; [|discriminate].
  destruct (Float.of_Z (multiplier unit)) as [m|e] eqn:Em; [|discriminate].
  simpl. destruct (Float.to_Z (Float.mul (Float.of_decimal ip fp) m))
    as [k|e] eqn:Ek; [|discriminate].
  intros [= <-].
  apply (to_Z_nonneg _ _ (mul_sign _ _ (of_decimal_sign ip fp)
                            (of_Z_sign _ _ (multiplier_pos unit) Em)) Ek).
Qed.

Lemma parse_size_string_nonneg_witness :
  parse_size_string "1.5 GB" = Some 1610612736%Z /\ (0 <= 1610612736)%Z.
Proof.
  split; [vm_compute; reflexivity|].
  apply (parse_size_string_nonneg "1.5 GB" 1610612736).
  vm_compute. reflexivity.
Defined.

End Sizes.

(** ** Hardware identifiers *)

Lemma lower_take (n : nat) (s : string) :
  Py.lower (Py.take n s) = Py.take n (Py.lower s).
Proof.
  revert s. induction n as [|n IH]; intros [|c s]; simpl; try reflexivity.
  now rewrite IH.
Qed.

Lemma lower_drop (n : nat) (s : string) :
  Py.lower (Packaging.drop n s) = Packaging.drop n (Py.lower s).
Proof.
  revert s. induction n as [|n IH]; intros [|c s]; simpl; try reflexivity.
  apply IH.
Qed.

Lemma lower_slice (a b : nat) (s : string) :
  Py.lower (slice a b s) = slice a b (Py.lower s).
Proof. unfold slice. now rewrite lower_take, lower_drop. Qed.

Lemma length_lower (s : string) : String.length (Py.lower s) = String.length s.
Proof. induction s as [|c s IH]; simpl; [reflexivity|]. now rewrite IH. Qed.

Lemma all_chars_lower (p : ascii -> bool) (s : string) :
  all_chars p (Py.lower s) = all_chars (fun c => p (Py.lower_char c)) s.
Proof. induction s as [|c s IH]; simpl; [reflexivity|]. now rewrite IH. Qed.

Lemma startswith_app (p x : string) : Py.startswith p (p +:+ x) = true.
Proof.
  induction p as [|c p IH]; [reflexivity|].
  rewrite append_cons. simpl. now rewrite Ascii.eqb_refl, IH.
Qed.

Lemma startswith_take (p s : string) :
  Py.startswith p s = true -> Py.take (String.length p) s = p.
Proof.
  revert s. induction p as [|c p IH]; intros [|b s]; simpl; try reflexivity;
    try discriminate.
  rewrite andb_true_iff, Ascii.eqb_eq. intros [-> H]. now rewrite (IH s H).
Qed.

Lemma take_startswith (n : nat) (s : string) :
  Py.startswith (Py.take n s) s = true.
Proof.
  revert s. induction n as [|n IH]; intros [|c s]; simpl; try reflexivity.
  now rewrite Ascii.eqb_refl, IH.
Qed.

Lemma startswith_contains (p s : string) :
  Py.startswith p s = true -> Py.contains p s = true.
Proof. intros H. destruct s; simpl; rewrite H; reflexivity. Qed.

Lemma contains_cons (p : string) (c : ascii) (s : string) :
  Py.contains p s = true -> Py.contains p (String c s) = true.
Proof. intros H. cbn [Py.contains]. rewrite H. apply orb_true_r. Qed.

Lemma search_hardware_id_step (c : ascii) (s : string) :
  match_hardware_id (Py.lower (String c s)) = false ->
  search_hardware_id (String c s) = search_hardware_id s.
Proof. intros H. cbn [search_hardware_id]. now rewrite H. Qed.

(** What a match at the start of [s] says about [s]. *)
Lemma match_hardware_id_sound (s : string) :
  match_hardware_id (Py.lower s) = true ->
  hex_id (slice 4 8 s) = true /\ hex_id (slice 13 17 s) = true /\
  Py.startswith
    (Py.lower ("VEN_" +:+ slice 4 8 s +:+ "&DEV_" +:+ slice 13 17 s))
    (Py.lower s) = true.
Proof.
  unfold match_hardware_id. rewrite !andb_true_iff.
  intros [[[[[Hv Hl1] Hh1] Hd] Hl2] Hh2].
  rewrite <- lower_slice, length_lower in Hl1, Hl2.
  rewrite <- lower_slice, all_chars_lower in Hh1, Hh2.
  unfold hex_id. rewrite Hl1, Hh1, Hl2, Hh2. repeat split.
  rewrite !lower_app, !lower_slice.
  apply startswith_take in Hv, Hd.
  change (String.length "ven_") with 4%nat in Hv.
  change (String.length "&dev_") with 5%nat in Hd.
  set (L := Py.lower s) in *.
  assert (E : Py.lower "VEN_" +:+ slice 4 8 L +:+ Py.lower "&DEV_"
              +:+ slice 13 17 L = Py.take 17 L).
  { change (Py.lower "VEN_") with "ven_".
    change (Py.lower "&DEV_") with "&dev_".
    pose proof (take_take_drop 4 13 L) as T1.
    pose proof (take_take_drop 4 9 (Packaging.drop 4 L)) as T2.
    pose proof (take_take_drop 5 4 (Packaging.drop 8 L)) as T3.
    rewrite drop_drop in T2, T3. cbn [Nat.add] in T1, T2, T3.
    rewrite Hv, <- T2, <- T3, Hd in T1. exact T1. }
  rewrite E. apply take_startswith.
Qed.

(** X13.  [_parse_hardware_id] returns both identifiers or neither; the two
    it returns are four hexadecimal digits each, and the text
    [VEN_<vendor>&DEV_<device>] occurs in the hardware identifier, case
    apart. *)
Theorem parse_hardware_id_sound (hardware_id : string) :
  parse_hardware_id hardware_id = (None, None) \/
  exists vendor device,
    parse_hardware_id hardware_id = (Some vendor, Some device) /\
    hex_id vendor = true /\ hex_id device = true /\
    Py.contains (Py.lower ("VEN_" +:+ vendor +:+ "&DEV_" +:+ device))
      (Py.lower hardware_id) = true.
Proof.
  unfold parse_hardware_id.
  induction hardware_id as [|c s IH].
  - left. reflexivity.
  - destruct (match_hardware_id (Py.lower (String c s))) eqn:M.
    + right. cbn [search_hardware_id]. rewrite M.
      destruct (match_hardware_id_sound _ M) as (Hv & Hd & Hs).
      eexists _, _. repeat split; try eassumption.
      now apply startswith_contains.
    + rewrite (search_hardware_id_step _ _ M).
      destruct IH as [IH|(v & d & IH & Hv & Hd & Hc)]; [now left|right].
      exists v, d. repeat split; try assumption.
      change (Py.lower (String c s))
        with (String (Py.lower_char c) (Py.lower s)).
      now apply contains_cons.
Qed.

Lemma slice_middle (a b c : string) :
  slice (String.length a) (String.length a + String.length b)
    (a +:+ b +:+ c) = b.
Proof.
  unfold slice. rewrite drop_append_exact.
  replace (String.length a + String.length b - String.length a)%nat
    with (String.length b) by lia.
  apply take_append_exact.
Qed.

(** X14.  An identifier written the usual way is read back: after a prefix
    without the letter V, [VEN_] and four hexadecimal digits, [&DEV_] and
    four more give exactly these two groups, whatever follows. *)
Theorem parse_hardware_id_round_trip (bus vendor device rest : string) :
  no_v bus = true -> hex_id vendor = true -> hex_id device = true ->
  parse_hardware_id
    (bus +:+ "VEN_" +:+ vendor +:+ "&DEV_" +:+ device +:+ rest)
  = (Some vendor, Some device).
Proof.
  unfold no_v, hex_id. rewrite !andb_true_iff, !Nat.eqb_eq.
  intros Hb [Lv Hv] [Ld Hd]. unfold parse_hardware_id.
  set (tail := "VEN_" +:+ vendor +:+ "&DEV_" +:+ device +:+ rest).
  assert (Ht : search_hardware_id tail = Some (vendor, device)).
  { assert (M : match_hardware_id (Py.lower tail) = true).
    { unfold match_hardware_id, tail.
      rewrite !lower_app. change (Py.lower "VEN_") with "ven_".
      change (Py.lower "&DEV_") with "&dev_".
      rewrite startswith_app.
      pose proof (slice_middle "ven_" (Py.lower vendor)
                    ("&dev_" +:+ Py.lower device +:+ Py.lower rest)) as S1.
      rewrite length_lower, Lv in S1. cbn [String.length Nat.add] in S1.
      rewrite S1, length_lower, Lv, all_chars_lower, Hv.
      pose proof (drop_append_exact ("ven_" +:+ Py.lower vendor)
                    ("&dev_" +:+ Py.lower device +:+ Py.lower rest)) as D1.
      rewrite length_append, length_lower, Lv in D1.
      cbn [String.length Nat.add] in D1.
      rewrite append_assoc_s in D1. rewrite D1, startswith_app.
      pose proof (slice_middle ("ven_" +:+ Py.lower vendor +:+ "&dev_")
                    (Py.lower device) (Py.lower rest)) as S2.
      rewrite !length_append, !length_lower, Lv, Ld in S2.
      cbn [String.length Nat.add] in S2.
      rewrite !append_assoc_s in S2.
      rewrite S2, length_lower, Ld, all_chars_lower, Hd. reflexivity. }
    destruct tail as [|c t] eqn:Et; [discriminate|].
    cbn [search_hardware_id]. rewrite M. rewrite <- Et. unfold tail.
    pose proof (slice_middle "VEN_" vendor
                  ("&DEV_" +:+ device +:+ rest)) as S1.
    rewrite Lv in S1. cbn [String.length Nat.add] in S1. rewrite S1.
    pose proof (slice_middle ("VEN_" +:+ vendor +:+ "&DEV_") device rest)
      as S2.
    rewrite !length_append, Lv, Ld in S2. cbn [String.length Nat.add] in S2.
    rewrite !append_assoc_s in S2. now rewrite S2. }
  fold tail.
  enough (E : search_hardware_id (bus +:+ tail) = Some (vendor, device))
    by now rewrite E.
  clearbody tail. induction bus as [|c bus IH]; [exact Ht|].
  simpl in Hb. apply andb_true_iff in Hb as [Hc Hb].
  rewrite append_cons, search_hardware_id_step; [now apply IH|].
  unfold match_hardware_id. cbn [Py.lower Py.startswith].
  apply negb_true_iff in Hc. rewrite Ascii.eqb_sym in Hc. now rewrite Hc.
Qed.

Lemma parse_hardware_id_round_trip_witness :
  no_v "PCI\" = true /\ hex_id "10de" = true /\ hex_id "1C82" = true /\
  parse_hardware_id "PCI\VEN_10de&DEV_1C82&SUBSYS_11BF1462"
  = (Some "10de", Some "1C82").
Proof.
  split; [reflexivity|]. split; [reflexivity|]. split; [reflexivity|].
  exact (parse_hardware_id_round_trip "PCI\" "10de" "1C82" "&SUBSYS_11BF1462"
           eq_refl eq_refl eq_refl).
Defined.

(** ** The extension of a download *)

Lemma all_chars_app (p : ascii -> bool) (a b : string) :
  all_chars p (a +:+ b) = all_chars p a && all_chars p b.
Proof.
  induction a as [|c a IH]; [reflexivity|].
  rewrite append_cons. simpl. now rewrite IH, andb_assoc.
Qed.

Lemma sanitize_filename_no_separator (filename : string) :
  no_separator (sanitize_filename filename) = true.
Proof.
  unfold no_separator, sanitize_filename. rewrite replace_invalid_chars.
  unfold Py.strip. apply all_chars_rstrip, all_chars_lstrip.
  assert (H : all_chars (fun c => negb (is_path_sep c))
                (map_chars sanitize_char filename) = true).
  { rewrite all_chars_map. apply all_chars_true. intros x.
    unfold is_path_sep. rewrite negb_orb.
    rewrite (sanitize_char_valid x "/"), (sanitize_char_valid x "\");
      [reflexivity| |]; unfold invalid_chars; simpl; tauto. }
  destruct (50 <? _)%nat; [now apply all_chars_take|exact H].
Qed.

Lemma basename_no_separator (file : string) :
  no_separator file = true -> basename file = file.
Proof.
  unfold no_separator. destruct file as [|c f]; [reflexivity|].
  intros H. cbn [basename]. now rewrite H.
Qed.

Lemma basename_after (x file : string) (c : ascii) :
  last_char x = Some c -> is_path_sep c = true ->
  no_separator file = true -> basename (x +:+ file) = file.
Proof.
  intros Hl Hc Hf. induction x as [|a x IH]; [discriminate|].
  assert (Hx : all_chars (fun y => negb (is_path_sep y))
                 (String a x +:+ file) = false).
  { rewrite all_chars_app. apply andb_false_iff. left.
    clear IH. revert a Hl. induction x as [|b x IH]; intros a Hl.
    - injection Hl as ->. simpl. now rewrite Hc.
    - cbn [all_chars]. apply andb_false_iff. right. apply IH. exact Hl. }
  rewrite append_cons in *. cbn [basename]. rewrite Hx.
  destruct x as [|b x].
  - now apply basename_no_separator.
  - apply IH. exact Hl.
Qed.

Lemma basename_path_join (root file : string) :
  no_separator file = true -> basename (path_join root file) = file.
Proof.
  intros Hf. unfold path_join. destruct (last_char root) as [c|] eqn:Hl.
  - destruct (is_path_sep c) eqn:Hc.
    + now apply basename_after with c.
    + rewrite <- append_assoc_s. apply basename_after with "\"%char.
      * clear Hc. revert c Hl. induction root as [|a r IH]; intros c Hl;
          [discriminate|].
        rewrite append_cons. destruct r as [|b r]; [reflexivity|].
        cbn [last_char]. rewrite append_cons.
        specialize (IH c Hl). rewrite append_cons in IH. exact IH.
      * reflexivity.
      * exact Hf.
  - now apply basename_no_separator.
Qed.

Lemma lstrip_dots_keeps (a : string) (c : ascii) (b : string) :
  Ascii.eqb c "." = false ->
  exists a', lstrip_dots (a +:+ String c b) = a' +:+ String c b.
Proof.
  intros Hc. induction a as [|x a IH].
  - exists "". change ("" +:+ String c b) with (String c b).
    cbn [lstrip_dots]. now rewrite Hc.
  - rewrite append_cons. cbn [lstrip_dots].
    destruct (Ascii.eqb x "."); [exact IH|].
    exists (String x a). reflexivity.
Qed.

Lemma split_on_not_nil (sep : ascii) (s : string) : Py.split_on sep s <> [].
Proof.
  induction s as [|c s IH]; simpl; [discriminate|].
  destruct (Ascii.eqb c sep); [discriminate|].
  now destruct (Py.split_on sep s).
Qed.

Lemma split_on_sep (sep : ascii) (a b : string) :
  Py.split_on sep (a +:+ String sep b) =
  Py.split_on sep a ++ Py.split_on sep b.
Proof.
  induction a as [|c a IH].
  - change ("" +:+ String sep b) with (String sep b).
    cbn [Py.split_on]. now rewrite Ascii.eqb_refl.
  - rewrite append_cons. cbn [Py.split_on]. rewrite IH.
    destruct (Ascii.eqb c sep); [reflexivity|].
    pose proof (split_on_not_nil sep a) as Hn.
    now destruct (Py.split_on sep a).
Qed.

(** The extension of a file that is named [<a>_<b>.exe] is [.exe],
    whatever directory it is in. *)
Lemma splitext_ext_exe (root a b : string) :
  no_separator a = true -> no_separator b = true ->
  splitext_ext (path_join root (a +:+ "_" +:+ b +:+ ".exe")) = ".exe".
Proof.
  intros Ha Hb. unfold splitext_ext. rewrite basename_path_join.
  2: { unfold no_separator in *. rewrite !all_chars_app, Ha, Hb. reflexivity. }
  destruct (lstrip_dots_keeps a "_" (b +:+ ".exe") eq_refl) as [a' E].
  change (a +:+ "_" +:+ b +:+ ".exe")
    with (a +:+ String "_" (b +:+ ".exe")).
  rewrite E.
  replace (a' +:+ String "_" (b +:+ ".exe"))
    with ((a' +:+ String "_" b) +:+ String "." "exe").
  2: { rewrite append_assoc_s. f_equal. }
  rewrite split_on_sep. change (Py.split_on "." "exe") with ["exe"].
  rewrite rev_app_distr. cbn [rev app].
  pose proof (split_on_not_nil "." (a' +:+ String "_" b)) as Hn.
  destruct (Py.split_on "." (a' +:+ String "_" b)) as [|t ts];
    [contradiction|].
  cbn [rev]. now destruct (rev ts ++ [t]) eqn:Er;
    [apply app_eq_nil in Er as [_ Er]; discriminate|].
Qed.

Lemma download_path_is_exe (env : Env) (update : Update) :
  no_separator (get (new_version update) "1.0.0.0") = true ->
  splitext_ext (download_path env update) = ".exe".
Proof.
  intros Hv. unfold download_path, generate_driver_filename. cbv zeta.
  pose proof (splitext_ext_exe (temp_dir env)
           (sanitize_filename (get (u_manufacturer update) "Unknown"))
           (sanitize_filename (get (u_device_name update) "Unknown") +:+ "_"
            +:+ get (new_version update) "1.0.0.0")) as E.
  rewrite !append_assoc_s in E. apply E.
  - apply sanitize_filename_no_separator.
  - unfold no_separator in *. rewrite !all_chars_app, Hv.
    pose proof (sanitize_filename_no_separator
                  (get (u_device_name update) "Unknown")) as H.
    unfold no_separator in H. now rewrite H.
Qed.

Lemma backup_current_driver_spec (env : Env) (update : Update) (w : World) :
  backup_current_driver env update w =
  mkWorld (files w) (ran w ++ [backup_invocation env update]).
Proof. reflexivity. Qed.

(** X15.  An update with an ordinary address and a version without path
    separators is installed by the cascade for executables and by nothing
    else: its download is stored under a name whose extension is [.exe];
    no program is run unless the download is accepted; when it is, one
    export of the current driver is requested first and then the
    downloaded file goes through the cascade, whose result is the result
    of the update. *)
Theorem install_single_update_runs_download (env : Env) (update : Update)
  (w : World) :
  ordinary_url update = true ->
  no_separator (get (new_version update) "1.0.0.0") = true ->
  (forall tr,
      install_driver_file (os env) (download_path env update) tr =
      install_exe_driver (os env) (download_path env update) tr) /\
  match download_driver_file env update w with
  | (None, w1) =>
      install_single_update env update w = (false, w1) /\ ran w1 = ran w
  | (Some driver_file, w1) =>
      driver_file = download_path env update /\ ran w1 = ran w /\
      let r := install_exe_driver (os env) driver_file
                 (ran w ++ [backup_invocation env update]) in
      install_single_update env update w = (fst r, mkWorld (files w1) (snd r))
  end.
Proof.
  intros Hu Hv.
  assert (Hd : forall tr,
             install_driver_file (os env) (download_path env update) tr =
             install_exe_driver (os env) (download_path env update) tr).
  { intros tr. unfold install_driver_file.
    now rewrite (download_path_is_exe env update Hv). }
  split; [exact Hd|].
  unfold ordinary_url in Hu. rewrite !andb_true_iff, !negb_true_iff in Hu.
  destruct Hu as [[Ht Hw] Hg].
  unfold install_single_update. rewrite Ht, Hw, Hg. cbn [negb].
  assert (Hp : forall p w1, download_driver_file env update w = (Some p, w1) ->
                            p = download_path env update).
  { unfold download_driver_file. fold (download_path env update).
    intros p w1. destruct (download_driver env update _ w) as [[|] w'];
      [destruct (verify_download _ _ _)|]; congruence. }
  assert (Hr : ran (snd (download_driver_file env update w)) = ran w).
  { unfold download_driver_file.
    pose proof (download_driver_keeps env update
                  (path_join (temp_dir env) (generate_driver_filename update))
                  w) as [Hr _].
    destruct (download_driver env update _ w) as [[|] w'];
      [destruct (verify_download _ _ _)|]; exact Hr. }
  destruct (download_driver_file env update w) as [[p|] w1]; simpl in Hr.
  - specialize (Hp p w1 eq_refl). subst p.
    split; [reflexivity|]. split; [exact Hr|].
    rewrite backup_current_driver_spec. cbn [ran files]. rewrite Hd, Hr.
    cbv zeta. now destruct (install_exe_driver _ _ _).
  - split; [reflexivity|exact Hr].
Qed.

Lemma install_single_update_runs_download_witness :
  ordinary_url (sample_update "A") = true /\
  no_separator (get (new_version (sample_update "A")) "1.0.0.0") = true /\
  install_driver_file (os sample_env)
    (download_path sample_env (sample_update "A")) [] =
  install_exe_driver (os sample_env)
    (download_path sample_env (sample_update "A")) [].
Proof.
  split; [reflexivity|]. split; [reflexivity|].
  exact (proj1 (install_single_update_runs_download sample_env
                  (sample_update "A") (mkWorld ∅ []) eq_refl eq_refl) []).
Defined.

(** ** Sizes without a unit *)

Lemma span_app (p : ascii -> bool) (s a b : string) :
  Packaging.span p s = (a, b) -> s = a +:+ b.
Proof.
  revert a b. induction s as [|c s IH]; intros a b; simpl.
  - now intros [= <- <-].
  - destruct (p c).
    + destruct (Packaging.span p s) as [a' b'].
      intros [= <- <-]. rewrite append_cons. f_equal. now apply IH.
    + now intros [= <- <-].
Qed.

Lemma lstrip_suffix (s : string) : exists x, s = x +:+ Py.lstrip s.
Proof.
  induction s as [|c s [x IH]]; [now exists ""|]. simpl.
  destruct (Py.is_space c); [|now exists ""].
  exists (String c x). rewrite append_cons. now f_equal.
Qed.

Lemma contains_app_r (p x y : string) :
  Py.contains p y = true -> Py.contains p (x +:+ y) = true.
Proof.
  intros H. induction x as [|c x IH]; [exact H|].
  rewrite append_cons. now apply contains_cons.
Qed.

Lemma fraction_suffix (r1 : string) :
  exists x, r1 = x +:+ snd
    (match r1 with
     | String "." r =>
         let '(f, r') := Packaging.span Py.is_digit r in
         if String.eqb f "" then (EmptyString, r1) else (f, r')
     | _ => (EmptyString, r1)
     end).
Proof.
  destruct r1 as [|c r]; [now exists ""|].
  destruct (Ascii.eqb_spec c ".") as [->|Hne].
  - destruct (Packaging.span Py.is_digit r) as [f r'] eqn:E.
    apply span_app in E. destruct (String.eqb f ""); [now exists ""|].
    exists (String "." f). simpl. rewrite append_cons. now f_equal.
  - destruct c as [[] [] [] [] [] [] [] []];
      try (now exists ""); now contradiction Hne.
Qed.

(** A match of the size pattern ends in one of the three units. *)
Lemma match_size_unit (s : string) (m : string * string * string) :
  match_size s = Some m ->
  Py.contains "kb" s || Py.contains "mb" s || Py.contains "gb" s = true.
Proof.
  unfold match_size.
  destruct (Packaging.span Py.is_digit s) as [ip r1] eqn:E1.
  apply span_app in E1. destruct (String.eqb ip ""); [discriminate|].
  destruct (fraction_suffix r1) as [x Hx].
  match type of Hx with _ = _ +:+ snd ?e => destruct e as [fp r2] end.
  simpl in Hx. destruct (lstrip_suffix r2) as [y Hy].
  assert (Hc : forall u, Py.startswith u (Py.lstrip r2) = true ->
                         Py.contains u s = true).
  { intros u Hu. rewrite E1, Hx, Hy.
    now apply contains_app_r, contains_app_r, contains_app_r,
      startswith_contains. }
  destruct (Py.startswith "kb" _) eqn:K; [now rewrite (Hc _ K)|].
  destruct (Py.startswith "mb" _) eqn:M;
    [rewrite (Hc _ M); now rewrite orb_true_r|].
  destruct (Py.startswith "gb" _) eqn:G; [|discriminate].
  rewrite (Hc _ G). now rewrite !orb_true_r.
Qed.

Lemma search_size_unit (s : string) (m : string * string * string) :
  search_size s = Some m -> names_unit s = true.
Proof.
  unfold names_unit. induction s as [|c s IH].
  - cbn [search_size]. destruct (match_size (Py.lower "")) eqn:E;
      [|discriminate].
    intros _. now apply match_size_unit in E.
  - cbn [search_size].
    destruct (match_size (Py.lower (String c s))) eqn:E.
    + intros _. now apply match_size_unit in E.
    + intros H. specialize (IH H).
      change (Py.lower (String c s))
        with (String (Py.lower_char c) (Py.lower s)).
      rewrite !orb_true_iff in *.
      destruct IH as [[H1|H1]|H1]; [left; left|left; right|right];
        now apply contains_cons.
Qed.

(** X16.  An expected size that names none of KB, MB and GB - a size in
    bytes or in terabytes, say - has no byte count, and the verification
    of a download treats it as if no size had been announced: whatever
    the file's size, the size test is not made. *)
Theorem size_check_needs_unit (files : string -> option Z)
  (file_path expected_size : string) :
  names_unit expected_size = false ->
  parse_size_string expected_size = None /\
  verify_download files file_path (Some expected_size) =
  verify_download files file_path None.
Proof.
  intros Hn.
  assert (Hp : parse_size_string expected_size = None).
  { unfold parse_size_string.
    destruct (search_size expected_size) as [m|] eqn:E; [|reflexivity].
    apply search_size_unit in E. congruence. }
  split; [exact Hp|].
  unfold verify_download, verify_download_exc.
  destruct (files file_path) as [file_size|]; [|reflexivity].
  cbn [get]. rewrite Hp. now destruct (truthy (Some expected_size)).
Qed.

Lemma size_check_needs_unit_witness :
  names_unit "2 TB" = false /\
  parse_size_string "2 TB" = None /\
  verify_download (one_file "C:\Temp\a.exe" 5) "C:\Temp\a.exe" (Some "2 TB") =
  verify_download (one_file "C:\Temp\a.exe" 5) "C:\Temp\a.exe" None.
Proof.
  split; [reflexivity|].
  exact (size_check_needs_unit (one_file "C:\Temp\a.exe" 5) "C:\Temp\a.exe"
           "2 TB" eq_refl).
Defined.

(** ** The interactive installation *)

Section Interactive.

Variable env : Env.
Variable script : string -> string.

Lemma install_single_update_interactive_step (update : Update) (w : World) :
  let r := install_single_update_interactive env script update w in
  files (snd r) = files w /\
  (fst r = true -> via_windows_update update = true) /\
  (ordinary_url update = true ->
   fst r = false /\ ran (snd r) = ran w ++ [backup_invocation env update]).
Proof.
  unfold install_single_update_interactive, ordinary_url, via_windows_update.
  destruct (truthy (download_url update)); cbn [negb andb];
    [|repeat split; discriminate].
  destruct (String.eqb (get (download_url update) "") "windows_update").
  { cbn [negb andb]. unfold install_via_windows_update_interactive,
      subprocess_run.
    destruct (os env (ran w) _); cbn [fst snd files];
      repeat split; discriminate. }
  destruct (String.eqb (get (download_url update) "") "generic_update");
    cbn [negb andb]; [repeat split; discriminate|].
  unfold download_driver_interactive.
  rewrite backup_current_driver_spec. cbn [fst snd files ran].
  repeat split; discriminate.
Qed.

Lemma install_updates_thread_cons (update : Update) (rest : list Update)
  (n : nat) (w : World) :
  install_updates_thread env script (update :: rest) n w =
  let r := install_single_update_interactive env script update w in
  install_updates_thread env script rest
    (if fst r then S n else n) (snd r).
Proof.
  cbn [install_updates_thread].
  now destruct (install_single_update_interactive env script update w)
    as [[|] w'].
Qed.

End Interactive.

(** X17.  The interactive installation of a selection never stores a file;
    it counts as installed at most the updates it passed to Windows
    Update; and for a selection of updates with ordinary addresses it
    installs none of them: the only programs it runs are the exports of
    the current drivers, one per update, in the order of the selection. *)
Theorem install_updates_thread_installs_no_download (env : Env)
  (script : string -> string) (selected_updates : list Update)
  (success_count : nat) (w : World) :
  let r := install_updates_thread env script selected_updates
             success_count w in
  files (snd r) = files w /\
  (success_count <= fst r
   <= success_count
      + length (List.filter via_windows_update selected_updates))%nat /\
  (forallb ordinary_url selected_updates = true ->
   fst r = success_count /\
   ran (snd r) = ran w ++ map (backup_invocation env) selected_updates).
Proof.
  revert success_count w.
  induction selected_updates as [|u us IH]; intros n w.
  - cbn. rewrite app_nil_r. repeat split; lia.
  - rewrite install_updates_thread_cons. cbv zeta.
    pose proof (install_single_update_interactive_step env script u w)
      as (Hf & Hw & Ho). cbv zeta in Hf, Hw, Ho.
    destruct (install_single_update_interactive env script u w) as [ok w1].
    cbn [fst snd] in *.
    specialize (IH (if ok then S n else n) w1). cbv zeta in IH.
    destruct IH as (IHf & IHc & IHo).
    split; [now rewrite IHf|]. split.
    + cbn [List.filter]. destruct ok.
      * rewrite (Hw eq_refl). cbn [length]. lia.
      * destruct (via_windows_update u); cbn [length]; lia.
    + cbn [forallb]. rewrite andb_true_iff. intros [Hu Hus].
      destruct (Ho Hu) as [-> Hr]. destruct (IHo Hus) as [Hc Hr'].
      split; [exact Hc|]. rewrite Hr', Hr, <- app_assoc. reflexivity.
Qed.

(** ** Priority *)

(** X18.  A device whose name holds one of the words graphics, display,
    security or chipset, written in any case and at any place, has
    priority High, whatever else the name holds - the words of the Medium
    priority included. *)
Theorem calculate_update_priority_high (update : Update)
  (before word after : string) :
  In (Py.lower word) ["graphics"; "display"; "security"; "chipset"] ->
  u_device_name update = Some (before +:+ word +:+ after) ->
  calculate_update_priority update = "High".
Proof.
  intros Hw Hn. unfold calculate_update_priority. rewrite Hn. cbn [get].
  rewrite !lower_app.
  assert (Hc : Py.contains (Py.lower word)
                 (Py.lower before +:+ Py.lower word +:+ Py.lower after)
               = true).
  { apply contains_app_r, startswith_contains, startswith_app. }
  assert (He : existsb
                 (fun keyword =>
                    Py.contains keyword
                      (Py.lower before +:+ Py.lower word +:+ Py.lower after))
                 ["graphics"; "display"; "security"; "chipset"] = true).
  { apply existsb_exists. exists (Py.lower word). split; assumption. }
  cbv zeta. now rewrite He.
Qed.

Lemma calculate_update_priority_high_witness :
  In (Py.lower "Display") ["graphics"; "display"; "security"; "chipset"] /\
  calculate_update_priority
    (sample_update "High Definition Audio (Display port)") = "High".
Proof.
  split; [right; left; reflexivity|].
  exact (calculate_update_priority_high
           (sample_update "High Definition Audio (Display port)")
           "High Definition Audio (" "Display" " port)"
           (or_intror (or_introl eq_refl)) eq_refl).
Defined.

(** ** The two dispatchers *)

(** X19.  For a Windows Installer package or a driver-information file the
    batch dispatcher and the interactive one run the same single program,
    and the interactive one is the stricter of the two: whenever it
    reports success so does the batch dispatcher.  (The converse fails for
    a package that ends with return code 3010, see
    [reboot_required_is_judged_twice].) *)
Theorem interactive_dispatch_is_stricter (os : oracle)
  (unpack : string -> exc (list (string * list string)))
  (driver_file : string) (tr : trace) :
  Py.lower (splitext_ext driver_file) = ".msi" \/
  Py.lower (splitext_ext driver_file) = ".inf" ->
  snd (install_driver_file os driver_file tr) =
  snd (install_driver_file_interactive os unpack driver_file tr) /\
  (exists cmd, snd (install_driver_file os driver_file tr) = tr ++ [cmd] /\
               In driver_file (argv cmd)) /\
  (fst (install_driver_file_interactive os unpack driver_file tr) = true ->
   fst (install_driver_file os driver_file tr) = true).
Proof.
  unfold install_driver_file, install_driver_file_interactive.
  intros [E|E]; rewrite E; cbn [String.eqb Ascii.eqb Bool.eqb orb].
  - unfold install_msi_driver, install_msi_driver_interactive, subprocess_run.
    split; [|split].
    + now destruct (os tr _).
    + eexists. split; [now destruct (os tr _)|]. simpl. tauto.
    + destruct (os tr _) as [c| |]; cbn [fst]; try discriminate.
      intros ->. reflexivity.
  - unfold install_inf_driver_interactive, install_inf_driver, subprocess_run.
    split; [|split].
    + reflexivity.
    + eexists. split; [now destruct (os tr _)|]. simpl. tauto.
    + tauto.
Qed.

Lemma interactive_dispatch_is_stricter_witness :
  (Py.lower (splitext_ext "C:\Temp\Setup.MSI") = ".msi" \/
   Py.lower (splitext_ext "C:\Temp\Setup.MSI") = ".inf") /\
  snd (install_driver_file (always_exits 0) "C:\Temp\Setup.MSI" []) =
  snd (install_driver_file_interactive (always_exits 0)
         (fun _ => Raise OSError) "C:\Temp\Setup.MSI" []).
Proof.
  split; [left; reflexivity|].
  exact (proj1 (interactive_dispatch_is_stricter (always_exits 0)
                  (fun _ => Raise OSError) "C:\Temp\Setup.MSI" []
                  (or_introl eq_refl))).
Defined.

(** A package that asks for a reboot (return code 3010) is installed for
    the batch dispatcher and failed for the interactive one. *)
Lemma reboot_required_is_judged_twice :
  fst (install_driver_file (always_exits 3010) "C:\Temp\Setup.MSI" []) = true /\
  fst (install_driver_file_interactive (always_exits 3010)
         (fun _ => Raise OSError) "C:\Temp\Setup.MSI" []) = false.
Proof. split; reflexivity. Qed.
